(** * Travel-agent chat frontend: streaming client and stores

    A shallow embedding of the TypeScript sources of the chat frontend
    (the [useChat] composable with its streaming [sendMessage], the chat,
    preferences and sessions Pinia stores, the functions of the
    components and the Markdown composable) together with the properties
    the specification states about them, and further properties that the
    code shows.

    Conventions of the embedding.
    - A JavaScript string is a [string]; one [ascii] stands for one UTF-16
      code unit, so the model covers text whose code units are below 256.
    - The body of a response is given by the texts that the streaming
      [TextDecoder] yields for its successive reads.
    - Values of type [any] (parsed JSON, store fields typed [any]) are
      [JSValue]s.  A number is given by its canonical text.
    - The sessions store is the one of [stores/sessions.ts], which the
      composable and the components import.
    - Message objects live in a heap and arrays hold references, because
      [sendMessage] keeps a reference to the message it pushed and writes
      through it.
    - Runtime services ([JSON.parse], [uuidv4], [new Date()], case
      conversion) are variables of the sections that use them; a concrete
      instance is given at the end of the definitions for running the
      model on wire text. *)

From Stdlib Require Import Ascii Sorted.
From stdpp Require Import gmap strings list pretty.

(** ** JavaScript strings *)

Module JsString.

Definition LF : ascii := "010"%char.

(** [WhiteSpace] and [LineTerminator] code units below 256: what
    [String.prototype.trim] strips and what [\s] matches. *)
Definition is_space (c : ascii) : bool :=
  match N_of_ascii c with
  | 9 | 10 | 11 | 12 | 13 | 32 | 160 => true
  | _ => false
  end%N.

(** [\w] without the unicode flag: [A-Za-z0-9_]. *)
Definition is_word (c : ascii) : bool :=
  let n := N_of_ascii c in
  ((48 <=? n) && (n <=? 57) || (65 <=? n) && (n <=? 90)
   || (97 <=? n) && (n <=? 122) || (n =? 95))%N.

Fixpoint trimStart (s : string) : string :=
  match s with
  | String c r => if is_space c then trimStart r else s
  | EmptyString => EmptyString
  end.

Fixpoint trimEnd (s : string) : string :=
  match s with
  | String c r =>
      match trimEnd r with
      | EmptyString => if is_space c then EmptyString else String c EmptyString
      | r' => String c r'
      end
  | EmptyString => EmptyString
  end.

Definition trim (s : string) : string := trimEnd (trimStart s).

(** [s.substring(0, n)] *)
Definition substring0 (n : nat) (s : string) : string := String.substring 0 n s.

(** [s.slice(n)] for [n >= 0] *)
Fixpoint slice (n : nat) (s : string) : string :=
  match n, s with
  | S n', String _ r => slice n' r
  | _, _ => s
  end.

(** [s.charAt(0)] *)
Definition charAt0 (s : string) : string :=
  match s with
  | String c _ => String c EmptyString
  | EmptyString => EmptyString
  end.

Definition startsWith (p s : string) : bool := String.prefix p s.

(** A string is truthy when it is not empty. *)
Definition nonempty (s : string) : bool :=
  match s with EmptyString => false | _ => true end.

(** [s.split('\n')]: the segments between line feeds, always at least one. *)
Fixpoint split_lines (s : string) : list string :=
  match s with
  | EmptyString => [EmptyString]
  | String c r =>
      if Ascii.eqb c LF then EmptyString :: split_lines r
      else match split_lines r with
           | x :: xs => String c x :: xs
           | [] => [String c EmptyString]
           end
  end.

(** [lines.pop() || ''] leaves the array without its last element and
    yields that element. *)
Definition pop (l : list string) : list string * string :=
  (removelast l, List.last l EmptyString).

(** [s.replace(/\s+/g, '_')]: every maximal run of white space becomes
    one underscore; [in_run] tells that the previous unit was white
    space. *)
Fixpoint replace_spaces_from (in_run : bool) (s : string) : string :=
  match s with
  | EmptyString => EmptyString
  | String c r =>
      if is_space c then
        if in_run then replace_spaces_from true r
        else String "_"%char (replace_spaces_from true r)
      else String c (replace_spaces_from false r)
  end.

Definition replace_spaces (s : string) : string := replace_spaces_from false s.

(** ASCII case conversion, the 7-bit part of [toUpperCase] and
    [toLowerCase]. *)
Definition ascii_upper (c : ascii) : ascii :=
  let n := N_of_ascii c in
  if ((97 <=? n) && (n <=? 122))%N then ascii_of_N (n - 32) else c.

Definition ascii_lower (c : ascii) : ascii :=
  let n := N_of_ascii c in
  if ((65 <=? n) && (n <=? 90))%N then ascii_of_N (n + 32) else c.

Fixpoint map_string (f : ascii -> ascii) (s : string) : string :=
  match s with
  | EmptyString => EmptyString
  | String c r => String (f c) (map_string f r)
  end.

(** Text on the wire: [no_LF s] says that [s] is one line, and
    [unlines l] is the text of the lines [l], each ended by a line feed. *)
Fixpoint no_LF (s : string) : bool :=
  match s with
  | EmptyString => true
  | String c r => negb (Ascii.eqb c LF) && no_LF r
  end.

Fixpoint unlines (l : list string) : string :=
  match l with
  | [] => EmptyString
  | x :: r => x +:+ String LF (unlines r)
  end.

(** The strings of [l] one after the other. *)
Definition concat_all (l : list string) : string :=
  fold_right String.append EmptyString l.

Fixpoint join (sep : string) (l : list string) : string :=
  match l with
  | [] => EmptyString
  | [x] => x
  | x :: r => x +:+ sep +:+ join sep r
  end.

End JsString.

(** ** JavaScript values *)

Module Js.
Import JsString.

(** Values of type [any]: what [JSON.parse] yields, plus [undefined].

    The client never computes with the numbers it receives; it converts
    them to strings and tests them for truth.  A number is therefore
    given by the text that [Number.prototype.toString] yields for it
    (["25000"], ["1.5"], ["1e+21"], ["0"] for both zeros), which
    determines it.

    The properties of an object are listed in the order in which
    [Object.keys] enumerates them, each key once. *)
#[warnings="-register-all"]
Inductive JSValue : Type :=
| JUndefined
| JNull
| JBool (b : bool)
| JNumber (text : string)
| JString (s : string)
| JArray (items : list JSValue)
| JObject (props : list (string * JSValue)).

Inductive Exn : Type :=
| TypeError
| SyntaxError
| Error (message : string).

Definition ToBoolean (v : JSValue) : bool :=
  match v with
  | JUndefined | JNull => false
  | JBool b => b
  | JNumber text => negb (String.eqb text "0" || String.eqb text "NaN")
  | JString s => nonempty s
  | JArray _ | JObject _ => true
  end.

(** The last binding of [k] in a property list. *)
Fixpoint lookup_prop (k : string) (props : list (string * JSValue)) : option JSValue :=
  match props with
  | [] => None
  | (k', v) :: rest =>
      match lookup_prop k rest with
      | Some v' => Some v'
      | None => if String.eqb k k' then Some v else None
      end
  end.

(** The strings of [l], or the first exception among them. *)
Fixpoint all_strings (l : list (Exn + string)) : Exn + list string :=
  match l with
  | [] => inr []
  | inl e :: _ => inl e
  | inr x :: rest =>
      match all_strings rest with
      | inl e => inl e
      | inr xs => inr (x :: xs)
      end
  end.

(** The string that concatenation with a string makes of its other
    operand.  An object of parsed JSON inherits [valueOf] and [toString]
    from [Object.prototype], and [valueOf] yields the object itself, so
    the conversion comes to [toString]: ["[object Object]"], unless the
    object has a property [toString] of its own, which holds no function
    and leaves nothing to call.  An array is joined, its elements
    converted in the same way. *)
Fixpoint ToString (v : JSValue) : Exn + string :=
  match v with
  | JUndefined => inr "undefined"
  | JNull => inr "null"
  | JBool true => inr "true"
  | JBool false => inr "false"
  | JNumber text => inr text
  | JString s => inr s
  | JArray items =>
      match all_strings (map (fun e => match e with
                                       | JUndefined | JNull => inr EmptyString
                                       | _ => ToString e
                                       end) items) with
      | inl e => inl e
      | inr texts => inr (join "," texts)
      end
  | JObject props =>
      match lookup_prop "toString" props with
      | Some _ => inl TypeError
      | None => inr "[object Object]"
      end
  end.

(** [a || b] *)
Definition or_else (a b : JSValue) : JSValue := if ToBoolean a then a else b.

(** [v.k] for the property names the client reads ([type],
    [description], [updates], [content], [message]): none of them is
    defined on a primitive, an array or a prototype, and reading a
    property of [null] or [undefined] throws. *)
Definition Get (v : JSValue) (k : string) : Exn + JSValue :=
  match v with
  | JUndefined | JNull => inl TypeError
  | JObject props => inr (default JUndefined (lookup_prop k props))
  | _ => inr JUndefined
  end.

(** The own enumerable string-keyed properties of a value, the
    [Record<string, any>] that [Object.keys] and [Object.assign] see. *)
Definition own_props (v : JSValue) : list (string * JSValue) :=
  match v with
  | JObject props => props
  | JArray items => imap (fun i e => (pretty i, e)) items
  | JString s =>
      imap (fun i c => (pretty i, JString (String c EmptyString)))
           (String.list_ascii_of_string s)
  | _ => []
  end.

(** *** Objects that the stores write to

    Such an object is created by an object literal, so it inherits from
    [Object.prototype] at first.  A write to [__proto__] can replace its
    prototype by [null] or by an object or array of parsed JSON. *)
Inductive Proto : Type :=
| Object_prototype
| Null_prototype
| Object_value (props : list (string * JSValue))
| Array_value (items : list JSValue).

Record Obj : Type := mkObj {
  own : gmap string JSValue;            (* its own properties *)
  proto : Proto
}.

(** [{}] *)
Definition empty_object : Obj := mkObj ∅ Object_prototype.

(** The string keys of [Object.prototype]. *)
Definition Object_prototype_keys : list string :=
  [ "constructor"; "__defineGetter__"; "__defineSetter__"; "hasOwnProperty";
    "__lookupGetter__"; "__lookupSetter__"; "isPrototypeOf";
    "propertyIsEnumerable"; "toString"; "valueOf"; "__proto__";
    "toLocaleString" ].

(** [k] is one of the indices of an array of [n] elements. *)
Definition is_index (k : string) (n : nat) : bool :=
  existsb (fun i => String.eqb k (pretty i)) (seq 0 n).

Section Prototypes.
(** The string keys of [Array.prototype] in the engine that runs the
    client; which methods it has depends on the edition of the
    language. *)
Variable Array_prototype_keys : list string.

(** [k] is a property of an object whose prototype is [p], by
    inheritance. *)
Definition inherited (p : Proto) (k : string) : bool :=
  match p with
  | Object_prototype => bool_decide (k ∈ Object_prototype_keys)
  | Null_prototype => false
  | Object_value props =>
      match lookup_prop k props with
      | Some _ => true
      | None => bool_decide (k ∈ Object_prototype_keys)
      end
  | Array_value items =>
      is_index k (length items) || String.eqb k "length"
      || bool_decide (k ∈ Array_prototype_keys)
      || bool_decide (k ∈ Object_prototype_keys)
  end.

(** [k in o] *)
Definition has_property (o : Obj) (k : string) : bool :=
  match own o !! k with
  | Some _ => true
  | None => inherited (proto o) k
  end.
End Prototypes.

Definition set_own (o : Obj) (k : string) (v : JSValue) : Obj :=
  mkObj (<[k := v]> (own o)) (proto o).

(** What the setter of [Object.prototype.__proto__] does with the value
    it receives: an object or [null] becomes the prototype, any other
    value is ignored. *)
Definition set_prototype (o : Obj) (v : JSValue) : Obj :=
  match v with
  | JObject props => mkObj (own o) (Object_value props)
  | JArray items => mkObj (own o) (Array_value items)
  | JNull => mkObj (own o) Null_prototype
  | _ => o
  end.

(** A write to [__proto__] finds the accessor of [Object.prototype]:
    neither the object nor an object before [Object.prototype] on its
    chain has a property [__proto__] of its own. *)
Definition reaches_setter (o : Obj) : bool :=
  match own o !! "__proto__" with
  | Some _ => false
  | None =>
      match proto o with
      | Object_prototype | Array_value _ => true
      | Null_prototype => false
      | Object_value props =>
          match lookup_prop "__proto__" props with
          | Some _ => false
          | None => true
          end
      end
  end.

(** [o[k] = v].  The properties on the chain are writable data
    properties, which a write shadows by a property of the object
    itself, but for the accessor [__proto__]. *)
Definition set_property (o : Obj) (k : string) (v : JSValue) : Obj :=
  if String.eqb k "__proto__" && reaches_setter o
  then set_prototype o v
  else set_own o k v.

(** [Object.assign(target, source)] *)
Definition Object_assign (target : Obj) (source : list (string * JSValue)) : Obj :=
  fold_left (fun o kv => set_property o kv.1 kv.2) source target.

End Js.

(** ** Regular expressions

    A backtracking matcher in the order of the ECMAScript semantics:
    alternatives left to right, greedy repetition, one capture group. *)

Module Regex.
Import JsString.

Inductive regex : Type :=
| Eps
| Chr (p : ascii -> bool)
| Seq (r1 r2 : regex)
| Alt (r1 r2 : regex)
| Star (r : regex)
| Group (r : regex).

Definition Plus (r : regex) : regex := Seq r (Star r).

(** A literal under the [i] flag.  The patterns below are ASCII, and no
    other code unit canonicalises to an ASCII letter without the [u]
    flag. *)
Fixpoint lit_i (s : string) : regex :=
  match s with
  | EmptyString => Eps
  | String c r => Seq (Chr (fun x => Ascii.eqb (ascii_lower x) (ascii_lower c))) (lit_i r)
  end.

(** [.] matches anything but a line terminator. *)
Definition dot : regex :=
  Chr (fun c => negb (Ascii.eqb c LF || Ascii.eqb c "013"%char)).

(** [run r s cap k] matches [r] at the start of [s] and hands the rest
    of the input and the capture to [k]; [None] makes the matcher
    backtrack.  An iteration of [Star] that consumes nothing is
    rejected, as in the language definition. *)
Fixpoint run {R : Type} (r : regex) (s : string) (cap : option string)
         (k : string -> option string -> option R) : option R :=
  match r with
  | Eps => k s cap
  | Chr p =>
      match s with
      | String c s' => if p c then k s' cap else None
      | EmptyString => None
      end
  | Seq r1 r2 => run r1 s cap (fun s' cap' => run r2 s' cap' k)
  | Alt r1 r2 =>
      match run r1 s cap k with
      | Some x => Some x
      | None => run r2 s cap k
      end
  | Star r1 =>
      (fix iterate (n : nat) (s : string) (cap : option string) : option R :=
         match n with
         | O => k s cap
         | S n' =>
             match run r1 s cap
                       (fun s' cap' =>
                          if Nat.ltb (String.length s') (String.length s)
                          then iterate n' s' cap' else None) with
             | Some x => Some x
             | None => k s cap
             end
         end) (String.length s) s cap
  | Group r1 =>
      run r1 s cap
          (fun s' _ => k s' (Some (substring0 (String.length s - String.length s') s)))
  end.

(** [s.match(r)] without the [g] flag: the capture of the leftmost
    match. *)
Fixpoint exec (r : regex) (s : string) : option (option string) :=
  match run r s None (fun _ cap => Some cap) with
  | Some cap => Some cap
  | None =>
      match s with
      | String _ s' => exec r s'
      | EmptyString => None
      end
  end.

(** [s.replace(r, '')] with the [g] flag; [n] bounds the number of
    positions still to visit. *)
Fixpoint delete_all_from (n : nat) (r : regex) (s : string) : string :=
  match n with
  | O => s
  | S n' =>
      match run r s None (fun s' _ => Some s') with
      | Some s' =>
          if Nat.ltb (String.length s') (String.length s) then delete_all_from n' r s'
          else match s with
               | String c t => String c (delete_all_from n' r t)
               | EmptyString => EmptyString
               end
      | None =>
          match s with
          | String c t => String c (delete_all_from n' r t)
          | EmptyString => EmptyString
          end
      end
  end.

Definition delete_all (r : regex) (s : string) : string :=
  delete_all_from (String.length s) r s.

End Regex.

(** ** Shared types ([types/index.ts]) *)

Module Types.
Import Js.

(** An instant, as milliseconds since the epoch. *)
Definition Date : Type := Z.

Inductive Role : Type := user | assistant.

(** [content] is declared a string; the error branch of the client
    stores whatever truthy value the event carried, so the field holds
    a [JSValue]. *)
Record Message : Type := mkMessage {
  m_id : string;
  m_role : Role;
  m_content : JSValue;
  m_timestamp : Date;
  m_isError : option bool
}.

Definition with_content (c : JSValue) (m : Message) : Message :=
  mkMessage (m_id m) (m_role m) c (m_timestamp m) (m_isError m).

Record AgentAction : Type := mkAgentAction {
  action_type : string;
  description : string;
  a_timestamp : string;
  data : list (string * JSValue)
}.

(** References to message objects and the heap they point into. *)
Abbreviation ref := nat.
Abbreviation Heap := (list Message).

Definition alloc (m : Message) (h : Heap) : ref * Heap := (length h, h ++ [m]).

End Types.

(** ** Preferences store *)

Module PreferencesStore.
Import Js.

(** The initial [preferences] object: every field is an own property,
    also those holding [undefined]. *)
Definition initial : Obj :=
  mkObj
    (<["destination" := JUndefined]>
    (<["origin" := JUndefined]>
    (<["budget" := JUndefined]>
    (<["dates" := JUndefined]>
    (<["people_count" := JNumber "1"]>
    (<["dietary_preferences" := JArray []]>
    (<["activity_preferences" := JArray []]>
    (<["accommodation_type" := JUndefined]> ∅))))))))
    Object_prototype.

Definition updatePreference (key : string) (value : JSValue) (preferences : Obj) : Obj :=
  set_property preferences key value.

Definition updatePreferences (updates : list (string * JSValue)) (preferences : Obj) : Obj :=
  Object_assign preferences updates.

Definition clearAllPreferences (preferences : Obj) : Obj := initial.

Section Engine.
Variable Array_prototype_keys : list string.

(** The callback of [forEach] in [setFromMemoryUpdates]. *)
Definition assign_key (memoryUpdates : list (string * JSValue))
           (preferences : Obj) (key : string) : Obj :=
  if has_property Array_prototype_keys preferences key
  then updatePreference key (default JUndefined (lookup_prop key memoryUpdates)) preferences
  else preferences.

Definition setFromMemoryUpdates (memoryUpdates : list (string * JSValue))
           (preferences : Obj) : Obj :=
  fold_left (assign_key memoryUpdates) (map fst memoryUpdates) preferences.
End Engine.

End PreferencesStore.

(** ** Chat store *)

Module ChatStore.
Import Js Types.

Record Store : Type := mkStore {
  sessionId : string;
  messages : list ref;
  agentActions : list AgentAction;
  memoryUpdates : Obj;
  isTyping : bool;
  error : JSValue;
  isLoadingHistory : bool;
  sessionMessages : gmap string (list ref);
  sessionActions : gmap string (list AgentAction);
  sessionMemory : gmap string Obj
}.

Definition messageCount (s : Store) : nat := length (messages s).

Definition hasError (s : Store) : bool :=
  match error s with JNull => false | _ => true end.

Definition setTyping (typing : bool) (s : Store) : Store :=
  mkStore (sessionId s) (messages s) (agentActions s) (memoryUpdates s) typing
          (error s) (isLoadingHistory s) (sessionMessages s) (sessionActions s)
          (sessionMemory s).

Definition setError (errorMessage : JSValue) (s : Store) : Store :=
  mkStore (sessionId s) (messages s) (agentActions s) (memoryUpdates s) (isTyping s)
          errorMessage (isLoadingHistory s) (sessionMessages s) (sessionActions s)
          (sessionMemory s).

Definition set_messages (ms : list ref) (s : Store) : Store :=
  mkStore (sessionId s) ms (agentActions s) (memoryUpdates s) (isTyping s)
          (error s) (isLoadingHistory s) (sessionMessages s) (sessionActions s)
          (sessionMemory s).

Definition addMessage (message : ref) (s : Store) : Store :=
  set_messages (messages s ++ [message]) s.

Definition addAgentAction (action : AgentAction) (s : Store) : Store :=
  mkStore (sessionId s) (messages s) (agentActions s ++ [action]) (memoryUpdates s)
          (isTyping s) (error s) (isLoadingHistory s) (sessionMessages s)
          (sessionActions s) (sessionMemory s).

Definition updateMemory (updates : list (string * JSValue)) (s : Store) : Store :=
  mkStore (sessionId s) (messages s) (agentActions s)
          (Object_assign (memoryUpdates s) updates)
          (isTyping s) (error s) (isLoadingHistory s) (sessionMessages s)
          (sessionActions s) (sessionMemory s).

(** The cache entries receive the arrays of the store as they are at
    the time of the call. *)
Definition saveCurrentSession (s : Store) : Store :=
  let currentSessionId := sessionId s in
  mkStore (sessionId s) (messages s) (agentActions s) (memoryUpdates s) (isTyping s)
          (error s) (isLoadingHistory s)
          (<[currentSessionId := messages s]> (sessionMessages s))
          (<[currentSessionId := agentActions s]> (sessionActions s))
          (<[currentSessionId := memoryUpdates s]> (sessionMemory s)).

End ChatStore.

(** ** Sessions store kept in local storage

    A second sessions store of the repository: it keeps its catalog in
    local storage and defines [updateSessionTitle]. *)

Module LocalSessions.
Import JsString Types.

Record ChatSession : Type := mkChatSession {
  id : string;
  title : string;
  lastMessage : string;
  lastActivity : Date;
  messageCount : nat
}.

Record Store : Type := mkStore {
  sessions : list ChatSession;
  currentSessionId : string
}.

(** [Partial<ChatSession>]: the keys an update object carries. *)
Record Partial : Type := mkPartial {
  p_title : option string;
  p_lastMessage : option string;
  p_messageCount : option nat
}.

(** [Object.assign(session, updates, { lastActivity: now })] *)
Definition assign (updates : Partial) (now : Date) (session : ChatSession) : ChatSession :=
  mkChatSession (id session)
                (default (title session) (p_title updates))
                (default (lastMessage session) (p_lastMessage updates))
                now
                (default (messageCount session) (p_messageCount updates)).

(** Apply [f] to the element [sessions.value.find(p)] returns, the
    first one satisfying [p], in place. *)
Fixpoint update_found {A : Type} (p : A -> bool) (f : A -> A) (l : list A) : list A :=
  match l with
  | [] => []
  | x :: r => if p x then f x :: r else x :: update_found p f r
  end.

Definition has_id (sessionId : string) (s : ChatSession) : bool :=
  String.eqb (id s) sessionId.

Definition updateSession (sessionId : string) (updates : Partial) (now : Date)
           (st : Store) : Store :=
  mkStore (update_found (has_id sessionId) (assign updates now) (sessions st))
          (currentSessionId st).

Definition filler : Regex.regex :=
  Regex.Alt (Regex.lit_i "plan a trip")
    (Regex.Alt (Regex.lit_i "find")
      (Regex.Alt (Regex.lit_i "show me")
        (Regex.Alt (Regex.lit_i "help me") (Regex.lit_i "i want to")))).

Section Title.
(** [String.prototype.toUpperCase] *)
Variable toUpperCase : string -> string.

Definition derive_title (firstMessage : string) : string :=
  let title := trim firstMessage in
  let title := trim (Regex.delete_all filler title) in
  let title := toUpperCase (charAt0 title) +:+ slice 1 title in
  let title := if Nat.ltb 30 (String.length title)
               then substring0 30 title +:+ "..." else title in
  if nonempty title then title else "Travel Planning".

Definition set_title (t : string) (s : ChatSession) : ChatSession :=
  mkChatSession (id s) t (lastMessage s) (lastActivity s) (messageCount s).

Definition updateSessionTitle (sessionId firstMessage : string) (st : Store) : Store :=
  mkStore
    (update_found (has_id sessionId)
       (fun session =>
          if String.eqb (title session) "New Chat"
          then set_title (derive_title firstMessage) session
          else session)
       (sessions st))
    (currentSessionId st).
End Title.

End LocalSessions.

(** ** Sessions store backed by the server ([stores/sessions.ts])

    The store that [useChat], [App.vue] and the session sidebar import.
    It has no action [updateSessionTitle]. *)

Module BackendSessions.
Import JsString Js Types.

Record ChatSession : Type := mkChatSession {
  id : string;
  title : string;
  lastMessage : option string;
  lastActivity : Date;
  messageCount : nat;
  destination : JSValue;
  budget : JSValue
}.

Record Store : Type := mkStore {
  sessions : list ChatSession;
  currentSessionId : string;
  isLoading : bool;
  error : option string
}.

Definition set_sessions (l : list ChatSession) (st : Store) : Store :=
  mkStore l (currentSessionId st) (isLoading st) (error st).

Definition selectSession (sessionId : string) (st : Store) : Store :=
  mkStore (sessions st) sessionId (isLoading st) (error st).

Definition has_id (sessionId : string) (s : ChatSession) : bool :=
  String.eqb (id s) sessionId.

(** [uuid] and [now] are what [uuidv4()] and [new Date()] yield. *)
Definition createSession (title : string) (uuid : string) (now : Date)
           (st : Store) : string * Store :=
  let newSessionId := uuid in
  let newSession := mkChatSession newSessionId title None now 0 JUndefined JUndefined in
  (newSessionId, selectSession newSessionId (set_sessions (newSession :: sessions st) st)).

(** [Partial<ChatSession>]: the keys an update object carries. *)
Record Partial : Type := mkPartial {
  p_id : option string;
  p_title : option string;
  p_lastMessage : option (option string);
  p_lastActivity : option Date;
  p_messageCount : option nat;
  p_destination : option JSValue;
  p_budget : option JSValue
}.

(** [Object.assign(session, updates, { lastActivity: now })] *)
Definition assign (updates : Partial) (now : Date) (session : ChatSession) : ChatSession :=
  mkChatSession (default (id session) (p_id updates))
                (default (title session) (p_title updates))
                (default (lastMessage session) (p_lastMessage updates))
                now
                (default (messageCount session) (p_messageCount updates))
                (default (destination session) (p_destination updates))
                (default (budget session) (p_budget updates)).

Definition updateSession (sessionId : string) (updates : Partial) (now : Date)
           (st : Store) : Store :=
  set_sessions
    (LocalSessions.update_found (has_id sessionId) (assign updates now) (sessions st)) st.

(** The pattern of the title rule, with flag [i]: the non-capturing
    alternation [to|visit|trip.*to|go.*to], then [\s+], then the group
    [\w+(?:\s+\w+)*]. *)
Definition travel : Regex.regex :=
  Regex.Seq
    (Regex.Alt (Regex.lit_i "to")
      (Regex.Alt (Regex.lit_i "visit")
        (Regex.Alt
           (Regex.Seq (Regex.lit_i "trip") (Regex.Seq (Regex.Star Regex.dot) (Regex.lit_i "to")))
           (Regex.Seq (Regex.lit_i "go") (Regex.Seq (Regex.Star Regex.dot) (Regex.lit_i "to"))))))
    (Regex.Seq (Regex.Plus (Regex.Chr is_space))
       (Regex.Group
          (Regex.Seq (Regex.Plus (Regex.Chr is_word))
             (Regex.Star (Regex.Seq (Regex.Plus (Regex.Chr is_space))
                                    (Regex.Plus (Regex.Chr is_word))))))).

Definition derive_title (message : string) : string :=
  let title := trim message in
  match Regex.exec travel title with
  | Some travelMatch => "Trip to " +:+ default "undefined" travelMatch
  | None =>
      if Nat.ltb 30 (String.length title)
      then substring0 30 title +:+ "..." else title
  end.

Definition touch (message : string) (now : Date) (s : ChatSession) : ChatSession :=
  mkChatSession (id s) (title s) (Some message) now (messageCount s + 1)
                (destination s) (budget s).

Definition set_title (t : string) (s : ChatSession) : ChatSession :=
  mkChatSession (id s) t (lastMessage s) (lastActivity s) (messageCount s)
                (destination s) (budget s).

Definition updateSessionFromMessage (sessionId message : string) (now : Date)
           (st : Store) : Store :=
  set_sessions
    (LocalSessions.update_found (has_id sessionId)
       (fun session =>
          let session := touch message now session in
          if String.eqb (title session) "New Chat" && nonempty (trim message)
          then set_title (derive_title message) session
          else session)
       (sessions st))
    st.

(** The outcome of the [DELETE] request. *)
Inductive Remote : Type :=
| Answered (ok : bool)
| Rejected.

Definition deleteSession (uuid : string) (now : Date) (remote : Remote)
           (sessionId : string) (st : Store) : bool * Store :=
  if Nat.leb (length (sessions st)) 1 then (false, st)
  else
    (* the request is awaited inside [try]; a rejection is caught and
       logged, an answer is only logged *)
    let st := match remote with
              | Answered _ => st
              | Rejected => st
              end in
    let st := set_sessions
                (List.filter (fun s => negb (has_id sessionId s)) (sessions st)) st in
    let st :=
      if String.eqb (currentSessionId st) sessionId then
        match sessions st with
        | first :: _ => selectSession (id first) st
        | [] => (createSession "New Chat" uuid now st).2
        end
      else st in
    (true, st).

(** *** Histories of a catalog

    The stores a sequence of calls of [updateSessionFromMessage] goes
    through, and how often a title changes along the way. *)

(** One call: the session id, the message and the instant of the call. *)
Record Call : Type := mkCall {
  c_sessionId : string;
  c_message : string;
  c_now : Date
}.

Definition step (c : Call) (st : Store) : Store :=
  updateSessionFromMessage (c_sessionId c) (c_message c) (c_now c) st.

Fixpoint history (calls : list Call) (st : Store) : list Store :=
  st :: match calls with
        | [] => []
        | c :: rest => history rest (step c st)
        end.

(** The title of the session at position [j] of the catalog. *)
Definition title_at (j : nat) (st : Store) : option string :=
  title <$> sessions st !! j.

Fixpoint count_changes (titles : list (option string)) : nat :=
  match titles with
  | a :: (b :: _) as rest => (if decide (a = b) then 0 else 1) + count_changes rest
  | _ => 0
  end.

End BackendSessions.

(** ** The chat composable ([useChat]) *)

Module UseChat.
Import JsString Js Types.

(** The local variables of [sendMessage] that the event handlers read
    and write.  ([buffer], the third one, is only touched by the read
    loop and is carried by it.) *)
Record Locals : Type := mkLocals {
  currentMessage : option ref;
  messageContent : string
}.

(** Everything [sendMessage] reads and writes: the three stores, the
    heap of message objects, how often the id generator and the clock
    have been used, and its own local variables. *)
Record Machine : Type := mkMachine {
  chatStore : ChatStore.Store;
  preferences : Obj;
  sessionsStore : BackendSessions.Store;
  heap : Heap;
  uuid_calls : nat;
  clock_reads : nat;
  locals : Locals
}.

Definition on_chat (f : ChatStore.Store -> ChatStore.Store) (m : Machine) : Machine :=
  mkMachine (f (chatStore m)) (preferences m) (sessionsStore m) (heap m)
            (uuid_calls m) (clock_reads m) (locals m).

Definition on_preferences (f : Obj -> Obj) (m : Machine) : Machine :=
  mkMachine (chatStore m) (f (preferences m)) (sessionsStore m) (heap m)
            (uuid_calls m) (clock_reads m) (locals m).

Definition on_sessions (f : BackendSessions.Store -> BackendSessions.Store)
           (m : Machine) : Machine :=
  mkMachine (chatStore m) (preferences m) (f (sessionsStore m)) (heap m)
            (uuid_calls m) (clock_reads m) (locals m).

Definition on_heap (f : Heap -> Heap) (m : Machine) : Machine :=
  mkMachine (chatStore m) (preferences m) (sessionsStore m) (f (heap m))
            (uuid_calls m) (clock_reads m) (locals m).

Definition on_locals (f : Locals -> Locals) (m : Machine) : Machine :=
  mkMachine (chatStore m) (preferences m) (sessionsStore m) (heap m)
            (uuid_calls m) (clock_reads m) (f (locals m)).

Definition set_currentMessage (c : option ref) (l : Locals) : Locals :=
  mkLocals c (messageContent l).
Definition set_messageContent (s : string) (l : Locals) : Locals :=
  mkLocals (currentMessage l) s.

(** *** Completions

    A statement ends normally, by [return], or by a thrown exception;
    the machine it leaves behind is kept in each case. *)
Inductive Completion (A : Type) : Type :=
| Normal (a : A) (m : Machine)
| Returned (m : Machine)
| Thrown (e : Exn) (m : Machine).
Arguments Normal {A} a m.
Arguments Returned {A} m.
Arguments Thrown {A} e m.

Definition M (A : Type) : Type := Machine -> Completion A.

Definition ret {A : Type} (a : A) : M A := fun m => Normal a m.

Definition bind {A B : Type} (c : M A) (k : A -> M B) : M B :=
  fun m => match c m with
           | Normal a m' => k a m'
           | Returned m' => Returned m'
           | Thrown e m' => Thrown e m'
           end.

Definition throw {A : Type} (e : Exn) : M A := fun m => Thrown e m.
Definition return_ {A : Type} : M A := fun m => Returned m.
Definition modify (f : Machine -> Machine) : M unit := fun m => Normal tt (f m).
Definition gets {A : Type} (f : Machine -> A) : M A := fun m => Normal (f m) m.

(** [try { body } catch (e) { handler }] *)
Definition try_catch {A : Type} (body : M A) (handler : Exn -> M A) : M A :=
  fun m => match body m with
           | Thrown e m' => handler e m'
           | c => c
           end.

(** The body of a function seen from its caller: [return] ends it
    normally, and the variables of the body are gone with it. *)
Definition call (body : M unit) : M unit :=
  fun m => match body m with
           | Normal _ m' | Returned m' => Normal tt (on_locals (fun _ => locals m) m')
           | Thrown e m' => Thrown e (on_locals (fun _ => locals m) m')
           end.

Definition lift {A : Type} (r : Exn + A) : M A :=
  match r with
  | inl e => throw e
  | inr a => ret a
  end.

Declare Scope js_scope.
Delimit Scope js_scope with js.
Notation "x <- c ;; k" := (bind c (fun x => k))
  (at level 100, c at next level, right associativity) : js_scope.
Notation "c ;; k" := (bind c (fun _ => k))
  (at level 100, right associativity) : js_scope.
Local Open Scope js_scope.

(** *** What the response of [fetch] can be *)

Inductive ReadEnd : Type :=
| EndOfData          (* [read()] resolves with [done] *)
| ReadError.         (* [read()] rejects *)

(** The body of a response: [chunks] holds, for each read that yields
    a value, the text [decoder.decode(value, { stream: true })] makes of
    it.  The streaming decoder keeps the bytes of an incomplete character
    for the next read, so these texts, one after the other, are the text
    of the stream wherever the reads cut its bytes. *)
Record Body : Type := mkBody {
  chunks : list string;
  ending : ReadEnd
}.

Inductive Fetch : Type :=
| NetworkError
| Response (ok : bool) (status : nat) (body : option Body).

(** [TextDecoder] is a service of the platform.  A decoder handles the
    bytes it is given one at a time: [handler s b] is the text that the
    byte [b] makes the decoder emit in the state [s], and the state it
    leaves, which holds the bytes of an incomplete character. *)
Section Decoder.
Context {State : Type}.
Variable handler : State -> Byte.byte -> string * State.

(** [decoder.decode(value, { stream: true })] in the state [s]: with
    [stream] set, the end of the chunk flushes nothing. *)
Fixpoint decode (s : State) (value : list Byte.byte) : string * State :=
  match value with
  | [] => (EmptyString, s)
  | b :: rest =>
      let '(t, s1) := handler s b in
      let '(u, s2) := decode s1 rest in
      (t +:+ u, s2)
  end.

(** The texts of the reads that yield the byte chunks [values]. *)
Fixpoint decoded (s : State) (values : list (list Byte.byte)) : list string :=
  match values with
  | [] => []
  | value :: rest => let '(text, s') := decode s value in text :: decoded s' rest
  end.

End Decoder.

(** [array.findIndex(p)] *)
Fixpoint findIndex {A : Type} (p : A -> bool) (l : list A) : option nat :=
  match l with
  | [] => None
  | x :: r => if p x then Some 0 else S <$> findIndex p r
  end.

(** [v === 'name'] *)
Definition is_string (v : JSValue) (name : string) : bool :=
  match v with
  | JString s => String.eqb s name
  | _ => false
  end.

(** [data.type === 'name'] for a parsed event. *)
Definition has_type (data : JSValue) (name : string) : bool :=
  match Get data "type" with
  | inr type => is_string type name
  | inl _ => false
  end.

(** The text of a token event: [data.content] when [data] is a token
    event and its content is a string. *)
Definition token_text (data : JSValue) : option string :=
  if has_type data "token" then
    match Get data "content" with
    | inr (JString c) => Some c
    | _ => None
    end
  else None.

Section Runtime.
(** The string keys of [Array.prototype]. *)
Variable Array_prototype_keys : list string.
(** [JSON.parse]; [None] stands for the [SyntaxError] it throws. *)
Variable JSON_parse : string -> option JSValue.
(** The result of the [n]-th call of [uuidv4()]. *)
Variable uuidv4 : nat -> string.
(** The result of the [n]-th evaluation of [new Date()]. *)
Variable Date_now : nat -> Date.
Variable toISOString : Date -> string.
Variable toLowerCase : string -> string.

Definition new_uuid : M string :=
  fun m => Normal (uuidv4 (uuid_calls m))
                  (mkMachine (chatStore m) (preferences m) (sessionsStore m) (heap m)
                             (S (uuid_calls m)) (clock_reads m) (locals m)).

Definition new_Date : M Date :=
  fun m => Normal (Date_now (clock_reads m))
                  (mkMachine (chatStore m) (preferences m) (sessionsStore m) (heap m)
                             (uuid_calls m) (S (clock_reads m)) (locals m)).

(** An object literal of type [Message] *)
Definition new_Message (msg : Message) : M ref :=
  fun m => Normal (length (heap m)) (on_heap (fun h => h ++ [msg]) m).

Definition setTyping (typing : bool) : M unit :=
  modify (on_chat (ChatStore.setTyping typing)).
Definition setError (e : JSValue) : M unit :=
  modify (on_chat (ChatStore.setError e)).
Definition addMessage (message : ref) : M unit :=
  modify (on_chat (ChatStore.addMessage message)).

(** [sessionsStore.updateSession]: the clock is read only when the
    session is found. *)
Definition updateSession (sessionId : string) (updates : BackendSessions.Partial) : M unit :=
  found <- gets (fun m => existsb (BackendSessions.has_id sessionId)
                                  (BackendSessions.sessions (sessionsStore m))) ;;
  if found : bool then
    now <- new_Date ;;
    modify (on_sessions (BackendSessions.updateSession sessionId updates now))
  else ret tt.

(** The update object [{ lastMessage, messageCount }]. *)
Definition summary (lastMessage : string) (messageCount : nat) : BackendSessions.Partial :=
  BackendSessions.mkPartial None None (Some (Some lastMessage)) None (Some messageCount)
                            None None.

(** *** The cases of [switch (data.type)] *)

Definition on_start : M unit := setTyping true.

(** [case 'action']: add to the inspector panel. *)
Definition on_action (data : JSValue) : M unit :=
  description <- lift (Get data "description") ;;
  match description with
  | JString d =>
      let action_type := replace_spaces (toLowerCase d) in
      now <- new_Date ;;
      modify (on_chat (ChatStore.addAgentAction
                         (mkAgentAction action_type d (toISOString now) [])))
  | _ => throw TypeError                 (* no [toLowerCase] to call *)
  end.

(** [case 'memory']: update the memory in the stores. *)
Definition on_memory (data : JSValue) : M unit :=
  updates <- lift (Get data "updates") ;;
  if ToBoolean updates then
    modify (on_chat (ChatStore.updateMemory (own_props updates))) ;;
    modify (on_preferences (PreferencesStore.setFromMemoryUpdates
                              Array_prototype_keys (own_props updates)))
  else ret tt.

(** [case 'response_start']: start a new assistant message. *)
Definition on_response_start : M unit :=
  id <- new_uuid ;;
  timestamp <- new_Date ;;
  current <- new_Message (mkMessage id assistant (JString EmptyString) timestamp None) ;;
  modify (on_locals (set_currentMessage (Some current))) ;;
  addMessage current ;;
  modify (on_locals (set_messageContent EmptyString)) ;;
  setTyping false.

(** [messages.findIndex(m => m.id === currentMessage?.id)] *)
Definition index_of_current (current : ref) (m : Machine) : option nat :=
  findIndex (fun r => bool_decide (m_id <$> heap m !! r = m_id <$> heap m !! current))
            (ChatStore.messages (chatStore m)).

(** [case 'token']: append the token to the current message, then
    replace the entry of the store by a copy of it.  When the content
    cannot be converted to a string, [+=] throws and assigns nothing. *)
Definition on_token (data : JSValue) : M unit :=
  current <- gets (fun m => currentMessage (locals m)) ;;
  match current with
  | Some current =>
      content <- lift (Get data "content") ;;
      text <- lift (ToString content) ;;
      modify (on_locals (fun l => set_messageContent (messageContent l +:+ text) l)) ;;
      messageContent <- gets (fun m => messageContent (locals m)) ;;
      modify (on_heap (alter (with_content (JString messageContent)) current)) ;;
      messageIndex <- gets (index_of_current current) ;;
      match messageIndex with
      | Some i =>
          copy <- gets (fun m => heap m !! current) ;;
          match copy with
          | Some msg =>
              r <- new_Message msg ;;
              modify (on_chat (fun s => ChatStore.set_messages
                                          (<[i := r]> (ChatStore.messages s)) s))
          | None => ret tt
          end
      | None => ret tt
      end
  | None => ret tt
  end.

(** [chatStore.messages[chatStore.messages.length - 1]] *)
Definition final_message (m : Machine) : option Message :=
  match last (ChatStore.messages (chatStore m)) with
  | Some r => heap m !! r
  | None => None
  end.

(** [case 'complete'] *)
Definition on_complete (sessionId : string) : M unit :=
  setTyping false ;;
  (* save the current session to the cache *)
  modify (on_chat ChatStore.saveCurrentSession) ;;
  (* update the session with the final message count *)
  count <- gets (fun m => ChatStore.messageCount (chatStore m)) ;;
  final <- gets final_message ;;
  preview <- match final with
             | None => ret "undefined"
             | Some msg => match m_content msg with
                           | JString s => ret (substring0 50 s)
                           | _ => throw TypeError        (* no [substring] to call *)
                           end
             end ;;
  updateSession sessionId (summary (preview +:+ "...") count) ;;
  return_.

(** The machine a [complete] event leaves: the chat store with the
    indicator cleared and the session saved, the catalog with the summary
    of the session, one more reading of the clock. *)
Definition completed (sid : string) (text : string) (m : Machine) : Machine :=
  on_sessions
    (BackendSessions.updateSession sid
       (summary (substring0 50 text +:+ "...") (ChatStore.messageCount (chatStore m)))
       (Date_now (clock_reads m)))
    (mkMachine (ChatStore.saveCurrentSession (ChatStore.setTyping false (chatStore m)))
               (preferences m) (sessionsStore m) (heap m) (uuid_calls m)
               (S (clock_reads m)) (locals m)).

(** [case 'error'] *)
Definition on_error (data : JSValue) : M unit :=
  message <- lift (Get data "message") ;;                 (* logged *)
  setTyping false ;;
  setError message ;;
  id <- new_uuid ;;
  timestamp <- new_Date ;;
  errorMessage <- new_Message
    (mkMessage id assistant
       (or_else message (JString "Sorry, I encountered an error. Please try again."))
       timestamp (Some true)) ;;
  addMessage errorMessage ;;
  return_.

Definition handle_event (sessionId : string) (data : JSValue) : M unit :=
  type <- lift (Get data "type") ;;
  if is_string type "start" then on_start
  else if is_string type "action" then on_action data
  else if is_string type "memory" then on_memory data
  else if is_string type "response_start" then on_response_start
  else if is_string type "token" then on_token data
  else if is_string type "complete" then on_complete sessionId
  else if is_string type "error" then on_error data
  else ret tt.

(** The body of [for (const line of lines)]. *)
Definition process_line (sessionId : string) (line : string) : M unit :=
  if startsWith "data: " line then
    try_catch
      (let eventData := slice 6 line in
       if String.eqb (trim eventData) EmptyString then ret tt   (* skip empty data *)
       else
         data <- match JSON_parse eventData with
                 | Some v => ret v
                 | None => throw SyntaxError
                 end ;;
         handle_event sessionId data)
      (fun parseError => ret tt)                       (* logged *)
  else ret tt.

(** The event a line carries, if any: the conditions under which
    [process_line] reaches the [switch], and the value it switches on. *)
Definition event_of (line : string) : option JSValue :=
  if startsWith "data: " line then
    if String.eqb (trim (slice 6 line)) EmptyString then None
    else JSON_parse (slice 6 line)
  else None.

(** The line carries an event of the type [name]. *)
Definition carries (name : string) (line : string) : bool :=
  match event_of line with
  | Some data => has_type data name
  | None => false
  end.

(** The line carries a token event with the text [c]. *)
Definition token_line (line : string) : option string :=
  match event_of line with
  | Some data => token_text data
  | None => None
  end.

(** A line with the [data: ] prefix whose payload does not parse. *)
Definition malformed (line : string) : Prop :=
  startsWith "data: " line = true /\ JSON_parse (slice 6 line) = None.

Fixpoint for_lines (sessionId : string) (lines : list string) : M unit :=
  match lines with
  | [] => ret tt
  | line :: rest => process_line sessionId line ;; for_lines sessionId rest
  end.

(** The [while (true)] loop over the reads of the body; [buffer] is
    the incomplete line kept from the previous read. *)
Fixpoint read_loop (sessionId : string) (chunks : list string) (ending : ReadEnd)
         (buffer : string) : M unit :=
  match chunks with
  | [] =>
      match ending with
      | EndOfData => ret tt                            (* [done]: break *)
      | ReadError => throw (Error "read failed")
      end
  | text :: rest =>
      let buffer := buffer +:+ text in
      (* process the complete lines, keep the incomplete one *)
      let lines := split_lines buffer in
      let '(lines, buffer) := pop lines in
      for_lines sessionId lines ;;
      read_loop sessionId rest ending buffer
  end.

(** *** The parts of [sendMessage] *)

(** Before [try]: the user message and the metadata of the session.
    The sessions store has no [updateSessionTitle], so the call of it
    throws a [TypeError]. *)
Definition add_user_message (sessionId content : string) : M unit :=
  id <- new_uuid ;;
  timestamp <- new_Date ;;
  userMessage <- new_Message (mkMessage id user (JString (trim content)) timestamp None) ;;
  addMessage userMessage ;;
  (* update the session with the first message title *)
  count <- gets (fun m => ChatStore.messageCount (chatStore m)) ;;
  (if Nat.leb count 2                    (* only user + welcome message *)
   then throw TypeError                  (* [updateSessionTitle] is not a function *)
   else ret tt) ;;
  (* update the session metadata *)
  count <- gets (fun m => ChatStore.messageCount (chatStore m)) ;;
  updateSession sessionId
    (summary (if Nat.ltb 50 (String.length content)
              then substring0 50 content +:+ "..." else content)
             count).

(** The machine the first message of a chat leaves: the user's message
    has been added, and nothing else has happened. *)
Definition with_user_message (content : string) (m : Machine) : Machine :=
  mkMachine
    (ChatStore.addMessage (length (heap m)) (chatStore m))
    (preferences m) (sessionsStore m)
    (heap m ++ [mkMessage (uuidv4 (uuid_calls m)) user (JString (trim content))
                          (Date_now (clock_reads m)) None])
    (S (uuid_calls m)) (S (clock_reads m)) (locals m).

(** The [try] block: the request and the stream of its answer. *)
Definition stream_response (sessionId : string) (response : Fetch) : M unit :=
  setTyping true ;;
  match response with
  | NetworkError => throw (Error "Failed to fetch")
  | Response ok status body =>
      if negb ok then throw (Error ("HTTP error! status: " +:+ pretty status))
      else match body with
           | None => throw (Error "No response body reader")
           | Some reader =>
               modify (on_locals (fun _ => mkLocals None EmptyString)) ;;
               read_loop sessionId (chunks reader) (ending reader) EmptyString
           end
  end.

(** The [catch] block. *)
Definition report_failure (err : Exn) : M unit :=
  setError (JString "Failed to send message. Please try again.") ;;
  setTyping false ;;
  id <- new_uuid ;;
  timestamp <- new_Date ;;
  errorMessage <- new_Message
    (mkMessage id assistant
       (JString "Sorry, I encountered an error sending your message. Please try again.")
       timestamp (Some true)) ;;
  addMessage errorMessage.

Definition sendMessage (sessionId content : string) (response : Fetch) : M unit :=
  call (
    if negb (nonempty (trim content)) then return_ else
    add_user_message sessionId content ;;
    try_catch (stream_response sessionId response) report_failure).

End Runtime.

(** *** Invariants of the stream loop *)

Definition machine_of {A : Type} (c : Completion A) : Machine :=
  match c with
  | Normal _ m | Returned m | Thrown _ m => m
  end.

(** Every message of the store is an object of the heap. *)
Definition well_formed (m : Machine) : Prop :=
  Forall (fun r => r < length (heap m)) (ChatStore.messages (chatStore m)).

(** No message of the list [msgs], read in the heap [h], has the id [u]. *)
Definition fresh_id (u : string) (msgs : list ref) (h : Heap) : Prop :=
  forall r msg, r ∈ msgs -> h !! r = Some msg -> m_id msg <> u.

(** The machine while an answer is streaming.  [old] and [base] are the
    message list and the heap at [response_start]; [current] is the
    message object made then, with id [u]; it has received the text [acc];
    the entry appended then, at position [length old], shows that text,
    and it is either [current] itself or a copy of it that is the first
    entry with the id [u]; [k] ids have been generated.  When [u] is a
    new id, the entries before it and their objects are as they were. *)
Definition streaming (u : string) (old : list ref) (base : Heap) (k : nat)
           (acc : string) (m : Machine) : Prop :=
  exists current msg shown msg',
    currentMessage (locals m) = Some current /\
    messageContent (locals m) = acc /\
    heap m !! current = Some msg /\
    m_id msg = u /\ m_role msg = assistant /\ m_content msg = JString acc /\
    length (ChatStore.messages (chatStore m)) = S (length old) /\
    ChatStore.messages (chatStore m) !! length old = Some shown /\
    heap m !! shown = Some msg' /\
    m_id msg' = u /\ m_role msg' = assistant /\ m_content msg' = JString acc /\
    (shown = current \/
     forall j r, j < length old -> ChatStore.messages (chatStore m) !! j = Some r ->
                 m_id <$> heap m !! r <> Some u) /\
    well_formed m /\
    ChatStore.isTyping (chatStore m) = false /\
    uuid_calls m = k /\
    length base <= current /\
    Forall (fun r => r < length base) old /\
    (fresh_id u old base ->
     take (length old) (ChatStore.messages (chatStore m)) = old /\
     forall r, r < length base -> heap m !! r = base !! r).

(** The final message of the store is an object holding a text. *)
Definition text_final (m : Machine) : Prop :=
  exists msg text, final_message m = Some msg /\ m_content msg = JString text.

(** What the message list shows: the role and the content of each entry. *)
Definition shown (m : Machine) : list (option (Role * JSValue)) :=
  map (fun r => (fun msg => (m_role msg, m_content msg)) <$> heap m !! r)
      (ChatStore.messages (chatStore m)).

(** Unfold the primitives of a handler and split on what it inspects,
    innermost first. *)
Ltac run :=
  unfold setTyping, setError, addMessage;
  unfold bind, lift, ret, throw, return_, modify, gets, new_uuid, new_Date, new_Message;
  repeat match goal with
         | |- context [match ?x with _ => _ end] =>
             lazymatch x with
             | context [match _ with _ => _ end] => fail
             | _ => destruct x eqn:?
             end
         end;
  cbn [machine_of locals on_chat on_preferences on_sessions on_heap on_locals].

End UseChat.

(** ** A concrete runtime

    An instance of the runtime services, for running the model on wire
    text: a parser of the JSON texts whose numbers are integers of at
    most 15 digits and whose strings stay below code unit 256, counters
    for ids and instants, ASCII case conversion, and the methods of
    arrays of ECMAScript 2023. *)

Module Sample.
Import JsString Js Types.

Definition is_json_ws (c : ascii) : bool :=
  match N_of_ascii c with
  | 9 | 10 | 13 | 32 => true
  | _ => false
  end%N.

Fixpoint skip_ws (s : string) : string :=
  match s with
  | String c r => if is_json_ws c then skip_ws r else s
  | EmptyString => EmptyString
  end.

Definition digit (c : ascii) : option Z :=
  let n := Z.of_N (N_of_ascii c) in
  if ((48 <=? n) && (n <=? 57))%Z then Some (n - 48)%Z else None.

Definition is_digit (c : ascii) : bool :=
  match digit c with Some _ => true | None => false end.

Definition hex (c : ascii) : option N :=
  let n := N_of_ascii c in
  if ((48 <=? n) && (n <=? 57))%N then Some (n - 48)%N
  else if ((65 <=? n) && (n <=? 70))%N then Some (n - 55)%N
  else if ((97 <=? n) && (n <=? 102))%N then Some (n - 87)%N
  else None.

(** The characters of a string literal after its opening quote. *)
Fixpoint parse_chars (s : string) : option (string * string) :=
  match s with
  | EmptyString => None
  | String c r =>
      if Ascii.eqb c "034"%char then Some (EmptyString, r)
      else if Ascii.eqb c "\"%char then
        match r with
        | String e r' =>
            let plain (x : ascii) :=
              match parse_chars r' with
              | Some (t, rest) => Some (String x t, rest)
              | None => None
              end in
            if Ascii.eqb e "034"%char then plain "034"%char
            else if Ascii.eqb e "\"%char then plain "\"%char
            else if Ascii.eqb e "/"%char then plain "/"%char
            else if Ascii.eqb e "b"%char then plain "008"%char
            else if Ascii.eqb e "f"%char then plain "012"%char
            else if Ascii.eqb e "n"%char then plain "010"%char
            else if Ascii.eqb e "r"%char then plain "013"%char
            else if Ascii.eqb e "t"%char then plain "009"%char
            else if Ascii.eqb e "u"%char then
              match r' with
              | String a (String b (String c' (String d r''))) =>
                  match hex a, hex b, hex c', hex d with
                  | Some 0%N, Some 0%N, Some h, Some l =>
                      match parse_chars r'' with
                      | Some (t, rest) => Some (String (ascii_of_N (16 * h + l)) t, rest)
                      | None => None
                      end
                  | _, _, _, _ => None
                  end
              | _ => None
              end
            else None
        | EmptyString => None
        end
      else if (N_of_ascii c <? 32)%N then None
      else match parse_chars r with
           | Some (t, rest) => Some (String c t, rest)
           | None => None
           end
  end.

(** The digits [s] begins with, and what follows them. *)
Fixpoint take_digits (s : string) : string * string :=
  match s with
  | String c r =>
      if is_digit c
      then let '(digits, rest) := take_digits r in (String c digits, rest)
      else (EmptyString, s)
  | EmptyString => (EmptyString, s)
  end.

(** An integer literal of at most 15 digits: every such integer is a
    number, and its digits are the text of that number.  A longer
    literal, a fraction or an exponent is outside this parser. *)
Definition parse_int (s : string) : option (string * string) :=
  let '(digits, rest) := take_digits s in
  match digits with
  | EmptyString => None
  | String "0"%char (String _ _) => None
  | _ =>
      if Nat.ltb 15 (String.length digits) then None
      else match rest with
           | String x _ =>
               if Ascii.eqb x "."%char || Ascii.eqb x "e"%char || Ascii.eqb x "E"%char
               then None else Some (digits, rest)
           | EmptyString => Some (digits, rest)
           end
  end.

(** The defining of a property while an object is parsed: a key that
    is there already keeps its place. *)
Fixpoint define_property (k : string) (v : JSValue) (props : list (string * JSValue))
  : list (string * JSValue) :=
  match props with
  | [] => [(k, v)]
  | (k', v') :: rest =>
      if String.eqb k k' then (k, v) :: rest else (k', v') :: define_property k v rest
  end.

Fixpoint number_of_digits (acc : N) (s : string) : N :=
  match s with
  | String c r =>
      match digit c with
      | Some d => number_of_digits (10 * acc + Z.to_N d) r
      | None => acc
      end
  | EmptyString => acc
  end.

(** An array index: the decimal text of an integer below [2^32 - 1]. *)
Definition array_index (k : string) : option N :=
  match take_digits k with
  | (EmptyString, _) => None
  | (String "0"%char (String _ _), _) => None
  | (digits, EmptyString) =>
      if Nat.ltb 10 (String.length digits) then None
      else let n := number_of_digits 0 digits in
           if (n <? 4294967295)%N then Some n else None
  | (_, String _ _) => None
  end.

Fixpoint insert_index (n : N) (kv : string * JSValue)
         (l : list (N * (string * JSValue))) : list (N * (string * JSValue)) :=
  match l with
  | [] => [(n, kv)]
  | (n', kv') :: rest =>
      if (n <? n')%N then (n, kv) :: l else (n', kv') :: insert_index n kv rest
  end.

(** The order of [Object.keys]: the array indices in ascending order,
    then the other keys as they were created. *)
Definition enumeration_order (props : list (string * JSValue)) : list (string * JSValue) :=
  let indexed := foldr (fun kv acc => match array_index kv.1 with
                                      | Some n => insert_index n kv acc
                                      | None => acc
                                      end) [] props in
  map snd indexed
  ++ List.filter (fun kv => match array_index kv.1 with Some _ => false | None => true end)
                 props.

Definition eat (p s : string) : option string :=
  if String.prefix p s then Some (slice (String.length p) s) else None.

Fixpoint parse_value (fuel : nat) (s : string) : option (JSValue * string) :=
  match fuel with
  | O => None
  | S fuel =>
      match skip_ws s with
      | EmptyString => None
      | String c r as t =>
          if Ascii.eqb c "{"%char then
            match skip_ws r with
            | String "}"%char r' => Some (JObject [], r')
            | r' => parse_members fuel r' []
            end
          else if Ascii.eqb c "["%char then
            match skip_ws r with
            | String "]"%char r' => Some (JArray [], r')
            | r' => parse_elements fuel r' []
            end
          else if Ascii.eqb c "034"%char then
            match parse_chars r with
            | Some (str, rest) => Some (JString str, rest)
            | None => None
            end
          else if Ascii.eqb c "-"%char then
            match parse_int r with
            | Some (digits, rest) =>
                Some (JNumber (if String.eqb digits "0" then "0" else "-" +:+ digits), rest)
            | None => None
            end
          else if is_digit c then
            match parse_int t with
            | Some (digits, rest) => Some (JNumber digits, rest)
            | None => None
            end
          else
            match eat "true" t, eat "false" t, eat "null" t with
            | Some rest, _, _ => Some (JBool true, rest)
            | _, Some rest, _ => Some (JBool false, rest)
            | _, _, Some rest => Some (JNull, rest)
            | _, _, _ => None
            end
      end
  end
with parse_elements (fuel : nat) (s : string) (acc : list JSValue)
     : option (JSValue * string) :=
  match fuel with
  | O => None
  | S fuel =>
      match parse_value fuel s with
      | Some (v, rest) =>
          match skip_ws rest with
          | String ","%char rest' => parse_elements fuel rest' (acc ++ [v])
          | String "]"%char rest' => Some (JArray (acc ++ [v]), rest')
          | _ => None
          end
      | None => None
      end
  end
with parse_members (fuel : nat) (s : string) (acc : list (string * JSValue))
     : option (JSValue * string) :=
  match fuel with
  | O => None
  | S fuel =>
      match skip_ws s with
      | String "034"%char r =>
          match parse_chars r with
          | Some (key, rest) =>
              match skip_ws rest with
              | String ":"%char rest' =>
                  match parse_value fuel rest' with
                  | Some (v, rest'') =>
                      match skip_ws rest'' with
                      | String ","%char t => parse_members fuel t (define_property key v acc)
                      | String "}"%char t =>
                          Some (JObject (enumeration_order (define_property key v acc)), t)
                      | _ => None
                      end
                  | None => None
                  end
              | _ => None
              end
          | None => None
          end
      | _ => None
      end
  end.

Definition JSON_parse (text : string) : option JSValue :=
  match parse_value (2 * String.length text + 2) text with
  | Some (v, rest) =>
      match skip_ws rest with
      | EmptyString => Some v
      | _ => None
      end
  | None => None
  end.

Definition uuidv4 (n : nat) : string := "uuid-" +:+ pretty n.
Definition Date_now (n : nat) : Date := Z.of_nat n.
Definition toISOString (d : Date) : string := "T" +:+ pretty d.
Definition toLowerCase : string -> string := map_string ascii_lower.
Definition toUpperCase : string -> string := map_string ascii_upper.

(** The string keys of [Array.prototype] in ECMAScript 2023. *)
Definition Array_prototype_keys : list string :=
  [ "length"; "constructor"; "at"; "concat"; "copyWithin"; "fill"; "find";
    "findIndex"; "findLast"; "findLastIndex"; "lastIndexOf"; "pop"; "push";
    "reverse"; "shift"; "unshift"; "slice"; "sort"; "splice"; "includes";
    "indexOf"; "join"; "keys"; "entries"; "values"; "forEach"; "filter";
    "flat"; "flatMap"; "map"; "every"; "some"; "reduce"; "reduceRight";
    "toLocaleString"; "toString"; "toReversed"; "toSorted"; "toSpliced"; "with" ].

Definition sendMessage : string -> string -> UseChat.Fetch -> UseChat.M unit :=
  UseChat.sendMessage Array_prototype_keys JSON_parse uuidv4 Date_now toISOString
                      toLowerCase.

(** Wire text is written here with single quotes in the place of the
    double quotes of JSON. *)
Definition quoted (s : string) : string :=
  map_string (fun c => if Ascii.eqb c "'"%char then "034"%char else c) s.

(** The line of an event with the payload [json]. *)
Definition data_line (json : string) : string := "data: " +:+ quoted json.

(** A chat store as it is before the first session is loaded. *)
Definition empty_chat (sessionId : string) : ChatStore.Store :=
  ChatStore.mkStore sessionId [] [] empty_object false JNull false ∅ ∅ ∅.

Definition new_chat_session (id : string) : BackendSessions.ChatSession :=
  BackendSessions.mkChatSession id "New Chat" None 0%Z 0 JUndefined JUndefined.

(** The machine after [initializeWelcome]: the welcome message alone,
    one session titled [New Chat]. *)
Definition welcome_text : string :=
  "Hello! I'm your AI travel agent. I can help you plan flights, hotels, and activities for your trip. Where would you like to go?".

Definition welcome : Message :=
  mkMessage "welcome" assistant (JString welcome_text) 0%Z None.

Definition start (sessionId : string) : UseChat.Machine :=
  UseChat.mkMachine
    (ChatStore.set_messages [0] (empty_chat sessionId))
    PreferencesStore.initial
    (BackendSessions.mkStore [new_chat_session sessionId] sessionId false None)
    [welcome] 0 0 (UseChat.mkLocals None EmptyString).

(** Lines of the wire, and the stream of the scenario
    [start, response_start, token("Hel"), token("lo"), complete], each
    event followed by the blank line that ends it. *)
Definition start_line : string := data_line "{'type':'start'}".
Definition response_start_line : string := data_line "{'type':'response_start'}".
Definition token_Hel : string := data_line "{'type':'token','content':'Hel'}".
Definition token_lo : string := data_line "{'type':'token','content':'lo'}".
Definition complete_line : string := data_line "{'type':'complete'}".
Definition broken_line : string := "data: {'type':".

Definition hello_stream : string :=
  unlines [start_line; EmptyString; response_start_line; EmptyString;
           token_Hel; EmptyString; token_lo; EmptyString;
           complete_line; EmptyString].

(** A catalog of the server-backed store with one session, and one with
    two. *)
Definition one_session : BackendSessions.Store :=
  BackendSessions.mkStore
    [BackendSessions.mkChatSession "s1" "New Chat" None 0%Z 0 JUndefined JUndefined]
    "s1" false None.

Definition two_sessions : BackendSessions.Store :=
  BackendSessions.mkStore
    [BackendSessions.mkChatSession "s1" "New Chat" None 0%Z 0 JUndefined JUndefined;
     BackendSessions.mkChatSession "s2" "Trip to Goa" (Some "hi") 5%Z 2 JUndefined JUndefined]
    "s1" false None.

End Sample.

(** ** Arrays

    [Array.prototype.sort] with a comparator is a stable sort: the
    result is ordered by the comparator, and elements the comparator
    holds equal keep their order.  Insertion from the right is such a
    sort. *)

Module JsArray.

Section Sort.
Context {A : Type}.
(** [cmp a b < 0]: [a] goes first; [cmp a b > 0]: [b] goes first. *)
Variable cmp : A -> A -> Z.

Fixpoint insert_sorted (x : A) (l : list A) : list A :=
  match l with
  | [] => [x]
  | y :: r => if (cmp x y <=? 0)%Z then x :: y :: r else y :: insert_sorted x r
  end.

Definition sort (l : list A) : list A := foldr insert_sorted [] l.
End Sort.

(** [array.slice(-n)]: the last [n] elements, all of them when there
    are fewer. *)
Definition slice_last {A : Type} (n : nat) (l : list A) : list A :=
  drop (length l - n) l.

End JsArray.

(** ** Chat store: getters and resets *)

Module ChatStoreActions.
Import Js Types ChatStore.

(** [m => m.role === 'user'], the message read through its reference. *)
Definition is_user (h : Heap) (r : ref) : bool :=
  match h !! r with
  | Some msg => match m_role msg with user => true | assistant => false end
  | None => false
  end.

Definition userMessageCount (h : Heap) (s : Store) : nat :=
  length (List.filter (is_user h) (messages s)).

(** [userMessages[userMessages.length - 1]] *)
Definition lastUserMessage (h : Heap) (s : Store) : option ref :=
  last (List.filter (is_user h) (messages s)).

(** The last 10 actions. *)
Definition recentActions (s : Store) : list AgentAction :=
  JsArray.slice_last 10 (agentActions s).

Definition clearMessages (s : Store) : Store := set_messages [] s.

Definition clearActions (s : Store) : Store :=
  mkStore (sessionId s) (messages s) [] (memoryUpdates s) (isTyping s)
          (error s) (isLoadingHistory s) (sessionMessages s) (sessionActions s)
          (sessionMemory s).

Definition clearMemory (s : Store) : Store :=
  mkStore (sessionId s) (messages s) (agentActions s) empty_object (isTyping s)
          (error s) (isLoadingHistory s) (sessionMessages s) (sessionActions s)
          (sessionMemory s).

Definition clearAll (s : Store) : Store :=
  setError JNull (setTyping false (clearMemory (clearActions (clearMessages s)))).

Definition set_sessionId (i : string) (s : Store) : Store :=
  mkStore i (messages s) (agentActions s) (memoryUpdates s) (isTyping s)
          (error s) (isLoadingHistory s) (sessionMessages s) (sessionActions s)
          (sessionMemory s).

(** [uuid] is what [uuidv4()] yields. *)
Definition newSession (uuid : string) (s : Store) : Store :=
  clearAll (set_sessionId uuid s).

Definition welcome_content : string :=
  "Hello! I'm your AI travel agent. I can help you plan flights, hotels, and activities for your trip. Where would you like to go?".

End ChatStoreActions.

(** ** Preferences store: [preferencesCount] and [clearPreference] *)

Module PreferencesGetters.
Import Js PreferencesStore.

(** The filter of [preferencesCount]: neither [undefined] nor [null],
    and not an empty array. *)
Definition is_stored (value : JSValue) : bool :=
  match value with
  | JUndefined | JNull => false
  | JArray items => Nat.ltb 0 (length items)
  | _ => true
  end.

(** [Object.values(preferences.value).filter(...).length] *)
Definition preferencesCount (preferences : Obj) : nat :=
  size (filter (fun kv => is_stored kv.2 = true) (own preferences)).

Definition is_array (v : JSValue) : bool :=
  match v with
  | JArray _ => true
  | _ => false
  end.

(** [Array.isArray(preferences.value[key])].  The value read is the
    property of the object itself or, failing that, the one it inherits.
    A property of [Object.prototype] or [Array.prototype] holds a
    function or a number, and the getter of [__proto__] yields the
    prototype of the object: so an inherited value is an array only as a
    property of the parsed JSON that has become the prototype, or as
    that prototype itself. *)
Definition isArray_at (preferences : Obj) (key : string) : bool :=
  match own preferences !! key with
  | Some v => is_array v
  | None =>
      match proto preferences with
      | Object_value props =>
          match lookup_prop key props with
          | Some v => is_array v
          | None => false
          end
      | Array_value items =>
          match lookup_prop key (own_props (JArray items)) with
          | Some v => is_array v
          | None => String.eqb key "__proto__"
          end
      | Object_prototype | Null_prototype => false
      end
  end.

Definition clearPreference (key : string) (preferences : Obj) : Obj :=
  if isArray_at preferences key
  then set_property preferences key (JArray [])
  else set_property preferences key JUndefined.

End PreferencesGetters.

(** ** Sessions store kept in local storage: the catalog *)

Module LocalCatalog.
Import JsString Types LocalSessions.

Definition set_sessions (l : list ChatSession) (st : Store) : Store :=
  mkStore l (currentSessionId st).

Definition selectSession (sessionId : string) (st : Store) : Store :=
  mkStore (sessions st) sessionId.

(** [new Date(b.lastActivity).getTime() - new Date(a.lastActivity).getTime()] *)
Definition by_activity (a b : ChatSession) : Z := (lastActivity b - lastActivity a)%Z.

(** The getter sorts the array of the store in place and yields it. *)
Definition sortedSessions (st : Store) : list ChatSession * Store :=
  let sorted := JsArray.sort by_activity (sessions st) in
  (sorted, set_sessions sorted st).

Definition currentSession (st : Store) : option ChatSession :=
  List.find (has_id (currentSessionId st)) (sessions st).

Definition hasMultipleSessions (st : Store) : bool :=
  Nat.ltb 1 (length (sessions st)).

(** [uuid] and [now] are what [uuidv4()] and [new Date()] yield. *)
Definition createSession (title : string) (uuid : string) (now : Date)
           (st : Store) : string * Store :=
  let newSession := mkChatSession uuid title EmptyString now 0 in
  (uuid, mkStore (newSession :: sessions st) uuid).

Definition deleteSession (uuid : string) (now : Date) (sessionId : string)
           (st : Store) : Store :=
  (* don't delete if it's the only session *)
  if Nat.leb (length (sessions st)) 1 then st
  else
    let st := set_sessions
                (List.filter (fun s => negb (has_id sessionId s)) (sessions st)) st in
    (* if deleted current session, switch to first available *)
    if String.eqb (currentSessionId st) sessionId then
      match sessions st with
      | first :: _ => selectSession (id first) st
      | [] => (createSession "New Chat" uuid now st).2
      end
    else st.

Definition clearAllSessions (uuid : string) (now : Date) (st : Store) : Store :=
  (createSession "New Chat" uuid now (set_sessions [] st)).2.

Definition initializeSessions (uuid : string) (now : Date) (st : Store) : Store :=
  match sessions st with
  | [] => (createSession "New Chat" uuid now st).2
  | _ => st
  end.

End LocalCatalog.

(** ** Sessions store backed by the server: the catalog *)

Module BackendCatalog.
Import JsString Js Types BackendSessions.

Definition set_isLoading (b : bool) (st : Store) : Store :=
  mkStore (sessions st) (currentSessionId st) b (error st).

Definition set_error (e : option string) (st : Store) : Store :=
  mkStore (sessions st) (currentSessionId st) (isLoading st) e.

Definition by_activity (a b : ChatSession) : Z := (lastActivity b - lastActivity a)%Z.

Definition sortedSessions (st : Store) : list ChatSession * Store :=
  let sorted := JsArray.sort by_activity (sessions st) in
  (sorted, set_sessions sorted st).

Definition currentSession (st : Store) : option ChatSession :=
  List.find (has_id (currentSessionId st)) (sessions st).

Definition hasMultipleSessions (st : Store) : bool :=
  Nat.ltb 1 (length (sessions st)).

(** What the [try] block of [fetchSessions] comes to.  [Listed l]: the
    request succeeded and mapping [data.sessions] to the format of the
    frontend gave the array [l], for an answer whose fields have the
    declared types.  [Failed]: the request was rejected, the status was
    not a success, or the answer could not be read; the assignment to
    [sessions.value] is then not reached. *)
Inductive Listing : Type :=
| Listed (l : list ChatSession)
| Failed.

Definition fetchSessions (answer : Listing) (st : Store) : Store :=
  let st := set_error None (set_isLoading true st) in
  let st :=
    match answer with
    | Listed l =>
        let st := set_sessions l st in
        (* no current session, or the current session doesn't exist *)
        if negb (nonempty (currentSessionId st))
           || negb (existsb (has_id (currentSessionId st)) (sessions st))
        then match sessions st with
             | first :: _ => selectSession (id first) st
             | [] => st
             end
        else st
    | Failed => set_error (Some "Failed to load sessions") st
    end in
  set_isLoading false st.

Definition refreshSessions (answer : Listing) (st : Store) : Store :=
  fetchSessions answer st.

(** The requests of the loop are awaited one by one, each in its own
    [try]; what they come to is logged at most. *)
Definition clearAllSessions (uuid : string) (now : Date) (remote : string -> Remote)
           (st : Store) : Store :=
  let st := fold_left (fun st session =>
                         match remote (id session) with
                         | Answered _ => st
                         | Rejected => st
                         end) (sessions st) st in
  (createSession "New Chat" uuid now (set_sessions [] st)).2.

Definition initialize (answer : Listing) (uuid : string) (now : Date) (st : Store) : Store :=
  let st := fetchSessions answer st in
  (* if no sessions exist, create first one *)
  match sessions st with
  | [] => (createSession "New Chat" uuid now st).2
  | _ => st
  end.

End BackendCatalog.

(** ** Markdown rendering ([useMarkdown]) *)

Module Markdown.
Import JsString.

Fixpoint line_feeds (n : nat) : string :=
  match n with
  | O => EmptyString
  | S n' => String LF (line_feeds n')
  end.

(** How many line feeds a run of [n] leaves: [/\n{3,}/g] turns three or
    more into two. *)
Definition kept (n : nat) : nat := if Nat.leb 3 n then 2 else n.

(** [s.replace(/\n{3,}/g, '\n\n')]; [pending] counts the line feeds of
    the run being read. *)
Fixpoint normalize_from (pending : nat) (s : string) : string :=
  match s with
  | EmptyString => line_feeds (kept pending)
  | String c r =>
      if Ascii.eqb c LF then normalize_from (S pending) r
      else line_feeds (kept pending) +:+ String c (normalize_from 0 r)
  end.

Definition normalize_breaks (s : string) : string := normalize_from 0 s.

(** No run of line feeds in [s] is longer than two; [run] line feeds
    come just before [s]. *)
Fixpoint short_runs_from (run : nat) (s : string) : bool :=
  match s with
  | EmptyString => true
  | String c r =>
      if Ascii.eqb c LF then Nat.ltb run 2 && short_runs_from (S run) r
      else short_runs_from 0 r
  end.

Definition short_runs (s : string) : bool := short_runs_from 0 s.

(** [content.replace(/^\s+|\s+$/g, '')] removes the white space the
    text begins with and the white space it ends with, which is what
    [trim] removes. *)
Definition cleaned (content : string) : string :=
  normalize_breaks (trim content).

Section Render.
(** [marked(text)]; [None] stands for an exception. *)
Variable marked : string -> option string.

Definition renderMarkdown (content : string) : string :=
  match marked (cleaned content) with
  | Some html => html
  | None => content                     (* fallback to plain text *)
  end.
End Render.

End Markdown.

(** ** Functions of the components *)

Module SessionSidebar.
Import JsString Types.

Section Time.
(** [time.toLocaleDateString('en-US', { month: 'short', day: 'numeric' })] *)
Variable toLocaleDateString : Date -> string.

(** [now] is what [new Date()] yields. *)
Definition formatSessionTime (now : Date) (timestamp : Date) : string :=
  let diffMs := (now - timestamp)%Z in
  let diffMins := (diffMs / 60000)%Z in
  let diffHours := (diffMs / 3600000)%Z in
  let diffDays := (diffMs / 86400000)%Z in
  if (diffMins <? 1)%Z then "now"
  else if (diffMins <? 60)%Z then pretty diffMins +:+ "m"
  else if (diffHours <? 24)%Z then pretty diffHours +:+ "h"
  else if (diffDays <? 7)%Z then pretty diffDays +:+ "d"
  else toLocaleDateString timestamp.
End Time.

End SessionSidebar.

Module InspectorPanel.
Import JsString.

(** [s.replace(/_/g, ' ')] *)
Definition spaced (s : string) : string :=
  map_string (fun c => if Ascii.eqb c "_"%char then " "%char else c) s.

(** [s.replace(/\b\w/g, l => l.toUpperCase())]: a word character is
    replaced when no word character precedes it; [after_word] tells
    that the previous unit is a word character.  On word characters
    [toUpperCase] is the ASCII conversion. *)
Fixpoint capitalized_from (after_word : bool) (s : string) : string :=
  match s with
  | EmptyString => EmptyString
  | String c r =>
      String (if is_word c && negb after_word then ascii_upper c else c)
             (capitalized_from (is_word c) r)
  end.

Definition capitalized (s : string) : string := capitalized_from false s.

Definition formatActionType (type : string) : string := capitalized (spaced type).

Definition formatPreferenceKey (key : string) : string := capitalized (spaced key).

End InspectorPanel.

Module ChatInterface.
Import JsString Js Types UseChat.
Local Open Scope js_scope.

(** The classes of a message bubble. *)
Definition getMessageClasses (message : Message) : string :=
  match m_role message with
  | user => "bg-blue-600 text-white"
  | assistant =>
      match m_isError message with
      | Some true => "bg-red-50 text-red-800 border border-red-200"
      | _ => "bg-gray-100 text-gray-900"
      end
  end.

(** The computed [canSend] for the text [inputMessage] of the input. *)
Definition canSend (inputMessage : string) (m : Machine) : bool :=
  Nat.ltb 0 (String.length (trim inputMessage))
  && Nat.leb (String.length inputMessage) 500
  && negb (ChatStore.isTyping (chatStore m)).

Section Runtime.
Variable Array_prototype_keys : list string.
Variable JSON_parse : string -> option JSValue.
Variable uuidv4 : nat -> string.
Variable Date_now : nat -> Date.
Variable toISOString : Date -> string.
Variable toLowerCase : string -> string.

(** The handler of the form.  It yields the text the input holds
    afterwards with the completion of the call. *)
Definition handleSubmit (inputMessage : string) (response : Fetch) (m : Machine)
  : string * Completion unit :=
  let content := trim inputMessage in
  if negb (nonempty content) || negb (canSend inputMessage m)
  then (inputMessage, Normal tt m)
  else
    (* send message *)
    match sendMessage Array_prototype_keys JSON_parse uuidv4 Date_now toISOString toLowerCase
                      (ChatStore.sessionId (chatStore m)) content response m with
    | Normal _ m' => (EmptyString, Normal tt m')       (* clear input *)
    | Returned m' => (EmptyString, Normal tt m')
    | Thrown e m' => (inputMessage, Thrown e m')
    end.

Definition sendQuickSuggestion (suggestion : string) (response : Fetch) : M unit :=
  fun m =>
    if ChatStore.isTyping (chatStore m) then Normal tt m
    else sendMessage Array_prototype_keys JSON_parse uuidv4 Date_now toISOString toLowerCase
                     (ChatStore.sessionId (chatStore m)) suggestion response m.

End Runtime.
End ChatInterface.

(** ** Starting a new chat

    The two handlers that open a new conversation: [startNewChat] of the
    application shell and [createNewChat] of the session sidebar. *)

Module NewChat.
Import JsString Js Types UseChat.
Local Open Scope js_scope.

Section Runtime.
Variable uuidv4 : nat -> string.
Variable Date_now : nat -> Date.

(** [sessionsStore.createSession()] *)
Definition createSession : M string :=
  id <- new_uuid uuidv4 ;;
  now <- new_Date Date_now ;;
  modify (on_sessions (fun st => (BackendSessions.createSession "New Chat" id now st).2)) ;;
  ret id.

(** [chatStore.newSession()] *)
Definition newSession : M unit :=
  id <- new_uuid uuidv4 ;;
  modify (on_chat (ChatStoreActions.newSession id)).

(** [chatStore.initializeWelcome()] *)
Definition initializeWelcome : M unit :=
  id <- new_uuid uuidv4 ;;
  timestamp <- new_Date Date_now ;;
  welcomeMessage <- new_Message
    (mkMessage id assistant (JString ChatStoreActions.welcome_content) timestamp None) ;;
  modify (on_chat (ChatStore.set_messages [welcomeMessage])).

Definition clearAllPreferences : M unit :=
  modify (on_preferences PreferencesStore.clearAllPreferences).

(** [startNewChat] of [App.vue] *)
Definition startNewChat : M unit :=
  (* create new session *)
  newSessionId <- createSession ;;
  (* clear all data *)
  newSession ;;
  clearAllPreferences ;;
  (* set new session id *)
  modify (on_chat (ChatStoreActions.set_sessionId newSessionId)) ;;
  (* initialize new chat *)
  initializeWelcome.

(** [createNewChat] of [SessionSidebar.vue]; the event it emits is only
    logged by its listener. *)
Definition createNewChat : M unit :=
  newSessionId <- createSession ;;
  newSession ;;
  clearAllPreferences ;;
  initializeWelcome.

(** The machine both handlers leave, but for the session id [chatId] of
    the chat: a new session at the head of the catalog, which is the
    current one; the chat store emptied, with the welcome message as its
    only message; the preferences as they are initially.  Three ids
    have been generated, for the session, for the chat and for the
    message, and the clock has been read twice. *)
Definition opened (chatId : string) (m : Machine) : Machine :=
  mkMachine
    (ChatStore.set_messages [length (heap m)]
       (ChatStoreActions.set_sessionId chatId
          (ChatStoreActions.newSession (uuidv4 (S (uuid_calls m))) (chatStore m))))
    PreferencesStore.initial
    (BackendSessions.createSession "New Chat" (uuidv4 (uuid_calls m))
       (Date_now (clock_reads m)) (sessionsStore m)).2
    (heap m ++ [mkMessage (uuidv4 (S (S (uuid_calls m)))) assistant
                          (JString ChatStoreActions.welcome_content)
                          (Date_now (S (clock_reads m))) None])
    (S (S (S (uuid_calls m)))) (S (S (clock_reads m))) (locals m).

End Runtime.
End NewChat.

(** ** What a call leaves alone

    Relations between the stores before and after a call, and
    conditions on the inputs of a call, for stating what it does not
    do. *)

Module Frames.
Import JsString Js Types UseChat.

(** The catalog [st] has the sessions of [st0], in their order and with
    their ids, the same current session, and the same loading flag and
    error; a session of another id than [sid] is as it was. *)
Definition own_entry_only (sid : string) (st0 st : BackendSessions.Store) : Prop :=
  BackendSessions.currentSessionId st = BackendSessions.currentSessionId st0 /\
  BackendSessions.isLoading st = BackendSessions.isLoading st0 /\
  BackendSessions.error st = BackendSessions.error st0 /\
  map BackendSessions.id (BackendSessions.sessions st)
  = map BackendSessions.id (BackendSessions.sessions st0) /\
  forall j s, BackendSessions.sessions st0 !! j = Some s ->
              BackendSessions.has_id sid s = false ->
              BackendSessions.sessions st !! j = Some s.

(** The chat store [s] is for the session of [s0]; it holds at least as
    many messages, and the actions of [s0] followed by further ones. *)
Definition grown (s0 s : ChatStore.Store) : Prop :=
  ChatStore.sessionId s = ChatStore.sessionId s0 /\
  length (ChatStore.messages s0) <= length (ChatStore.messages s) /\
  ChatStore.agentActions s0 `prefix_of` ChatStore.agentActions s.

(** The conversation of [m'] is that of [m]: the message list, the
    objects, the ids generated, and the message in progress of the
    call. *)
Definition same_conversation (m m' : Machine) : Prop :=
  ChatStore.messages (chatStore m') = ChatStore.messages (chatStore m) /\
  heap m' = heap m /\
  uuid_calls m' = uuid_calls m /\
  locals m' = locals m.

(** The request did not produce a body to read: it was rejected, the
    status was not a success, or the response has no body. *)
Definition request_failed (response : Fetch) : bool :=
  match response with
  | NetworkError => true
  | Response ok _ body => negb ok || match body with None => true | Some _ => false end
  end.

(** The types of event the client handles. *)
Definition event_types : list string :=
  ["start"; "action"; "memory"; "response_start"; "token"; "complete"; "error"].

(** Every unit of [s] satisfies [p]. *)
Fixpoint all_units (p : ascii -> bool) (s : string) : bool :=
  match s with
  | EmptyString => true
  | String c r => p c && all_units p r
  end.

(** The line carries none of the events that clear the typing
    indicator or end the call. *)
Definition quiet (JSON_parse : string -> option JSValue) (line : string) : bool :=
  negb (carries JSON_parse "response_start" line)
  && negb (carries JSON_parse "complete" line)
  && negb (carries JSON_parse "error" line).

(** A line of an answer that streams: it carries a token event whose
    content is a string, or no event at all (a blank line, a comment, a
    payload that does not parse). *)
Definition streams (JSON_parse : string -> option JSValue) (line : string) : bool :=
  match event_of JSON_parse line with
  | Some data => match token_text data with Some _ => true | None => false end
  | None => true
  end.

(** The texts of the token events of the lines, in their order. *)
Definition token_texts (JSON_parse : string -> option JSValue) (lines : list string)
  : list string :=
  omap (token_line JSON_parse) lines.

(** How a stream ends after the lines of the answer: with the lines
    [after] and the text [tail].  Either the data end there, but for a
    last line without a line feed, or a [complete] event comes next,
    whatever follows it. *)
Definition ends (JSON_parse : string -> option JSValue) (after : list string)
           (tail : string) (e : ReadEnd) : Prop :=
  (after = [] /\ no_LF tail = true /\ e = EndOfData) \/
  (exists c rest, after = c :: rest /\ carries JSON_parse "complete" c = true).

(** No unit of [s] is white space. *)
Fixpoint no_space (s : string) : bool :=
  match s with
  | EmptyString => true
  | String c r => negb (is_space c) && no_space r
  end.

(** The machine after an error has been shown: the indicator cleared,
    the error [error] recorded, and one more message, of the assistant,
    flagged as an error, with the content [content], a new id and the
    present instant. *)
Definition with_error (uuidv4 : nat -> string) (Date_now : nat -> Date)
           (error content : JSValue) (m : Machine) : Machine :=
  mkMachine
    (ChatStore.addMessage (length (heap m))
       (ChatStore.setError error (ChatStore.setTyping false (chatStore m))))
    (preferences m) (sessionsStore m)
    (heap m ++ [mkMessage (uuidv4 (uuid_calls m)) assistant content
                          (Date_now (clock_reads m)) (Some true)])
    (S (uuid_calls m)) (S (clock_reads m)) (locals m).

End Frames.

(** ** Chat store: loading a conversation and switching sessions *)

Module History.
Import JsString Js Types UseChat.
Local Open Scope js_scope.

(** [try { body } finally { last }]: [last] runs however [body] ends,
    and an abrupt end of [last] replaces the one of [body]. *)
Definition finally {A : Type} (body : M A) (last : M unit) : M A :=
  fun m =>
    match body m with
    | Normal a m' =>
        match last m' with
        | Normal _ m'' => Normal a m''
        | Returned m'' => Returned m''
        | Thrown e m'' => Thrown e m''
        end
    | Returned m' =>
        match last m' with
        | Normal _ m'' | Returned m'' => Returned m''
        | Thrown e m'' => Thrown e m''
        end
    | Thrown e m' =>
        match last m' with
        | Normal _ m'' => Thrown e m''
        | Returned m'' => Returned m''
        | Thrown e' m'' => Thrown e' m''
        end
    end.

(** What the request for the history comes to, for an answer whose
    messages have the declared types: each message of [HistoryMessages]
    stands for the role, the content and the instant
    [new Date(msg.timestamp)] of an element of [historyData.messages],
    and an answer without messages is [HistoryMessages []]. *)
Inductive HistoryAnswer : Type :=
| HistoryNotOk                          (* the status is not a success *)
| HistoryUnreadable                     (* reading the answer throws *)
| HistoryMessages (l : list (Role * JSValue * Date)).

(** What the request for the context comes to; [ContextPreferences p]
    stands for [contextData.preferences], [None] when it is missing or
    falsy. *)
Inductive ContextAnswer : Type :=
| ContextNotOk
| ContextUnreadable
| ContextPreferences (p : option Obj).

(** The two requests are awaited together. *)
Inductive Backend : Type :=
| Unreachable                           (* one of the requests is rejected *)
| Answers (history : HistoryAnswer) (context : ContextAnswer).

Definition set_isLoadingHistory (b : bool) (s : ChatStore.Store) : ChatStore.Store :=
  ChatStore.mkStore (ChatStore.sessionId s) (ChatStore.messages s) (ChatStore.agentActions s)
    (ChatStore.memoryUpdates s) (ChatStore.isTyping s) (ChatStore.error s) b
    (ChatStore.sessionMessages s) (ChatStore.sessionActions s) (ChatStore.sessionMemory s).

Definition set_agentActions (l : list AgentAction) (s : ChatStore.Store) : ChatStore.Store :=
  ChatStore.mkStore (ChatStore.sessionId s) (ChatStore.messages s) l
    (ChatStore.memoryUpdates s) (ChatStore.isTyping s) (ChatStore.error s)
    (ChatStore.isLoadingHistory s)
    (ChatStore.sessionMessages s) (ChatStore.sessionActions s) (ChatStore.sessionMemory s).

Definition set_memoryUpdates (o : Obj) (s : ChatStore.Store) : ChatStore.Store :=
  ChatStore.mkStore (ChatStore.sessionId s) (ChatStore.messages s) (ChatStore.agentActions s)
    o (ChatStore.isTyping s) (ChatStore.error s) (ChatStore.isLoadingHistory s)
    (ChatStore.sessionMessages s) (ChatStore.sessionActions s) (ChatStore.sessionMemory s).

(** [sessionMessages.value[id] = l] *)
Definition cache_messages (id : string) (l : list ref) (s : ChatStore.Store) : ChatStore.Store :=
  ChatStore.mkStore (ChatStore.sessionId s) (ChatStore.messages s) (ChatStore.agentActions s)
    (ChatStore.memoryUpdates s) (ChatStore.isTyping s) (ChatStore.error s)
    (ChatStore.isLoadingHistory s)
    (<[id := l]> (ChatStore.sessionMessages s)) (ChatStore.sessionActions s)
    (ChatStore.sessionMemory s).

(** [sessionMemory.value[id] = o] *)
Definition cache_memory (id : string) (o : Obj) (s : ChatStore.Store) : ChatStore.Store :=
  ChatStore.mkStore (ChatStore.sessionId s) (ChatStore.messages s) (ChatStore.agentActions s)
    (ChatStore.memoryUpdates s) (ChatStore.isTyping s) (ChatStore.error s)
    (ChatStore.isLoadingHistory s)
    (ChatStore.sessionMessages s) (ChatStore.sessionActions s)
    (<[id := o]> (ChatStore.sessionMemory s)).

(** [cachedMessages.map(msg => ({ ...msg, timestamp: new Date(msg.timestamp) }))]:
    a new object for each message, with the same properties. *)
Fixpoint copy_messages (cached : list ref) : M (list ref) :=
  match cached with
  | [] => ret []
  | r :: rest =>
      msg <- gets (fun m => heap m !! r) ;;
      match msg with
      | Some msg =>
          copy <- new_Message (mkMessage (m_id msg) (m_role msg) (m_content msg)
                                         (m_timestamp msg) (m_isError msg)) ;;
          copies <- copy_messages rest ;;
          ret (copy :: copies)
      | None => throw TypeError
      end
  end.

Section Runtime.
Variable uuidv4 : nat -> string.
Variable Date_now : nat -> Date.

(** [historyData.messages.map(msg => ({ id: uuidv4(), role: msg.role,
    content: msg.content, timestamp: new Date(msg.timestamp) }))] *)
Fixpoint backend_messages (l : list (Role * JSValue * Date)) : M (list ref) :=
  match l with
  | [] => ret []
  | (role, content, timestamp) :: rest =>
      id <- new_uuid uuidv4 ;;
      message <- new_Message (mkMessage id role content timestamp None) ;;
      messages <- backend_messages rest ;;
      ret (message :: messages)
  end.

(** The branch that loads from the cache. *)
Definition load_from_cache (cachedMessages : list ref)
           (cachedActions : option (list AgentAction)) (cachedMemory : option Obj) : M unit :=
  copies <- copy_messages cachedMessages ;;
  modify (on_chat (ChatStore.set_messages copies)) ;;
  modify (on_chat (set_agentActions (default [] cachedActions))) ;;
  modify (on_chat (set_memoryUpdates (default empty_object cachedMemory))) ;;
  modify (on_chat (set_isLoadingHistory false)) ;;
  return_.

(** The branch that loads from the backend. *)
Definition load_from_backend (sessionIdToLoad : string) (backend : Backend) : M unit :=
  match backend with
  | Unreachable => throw (Error "Failed to fetch")
  | Answers history context =>
      match history with
      | HistoryNotOk => NewChat.initializeWelcome uuidv4 Date_now
      | HistoryUnreadable => throw SyntaxError
      | HistoryMessages [] => NewChat.initializeWelcome uuidv4 Date_now
      | HistoryMessages l =>
          (* convert backend format to frontend format *)
          backendMessages <- backend_messages l ;;
          modify (on_chat (ChatStore.set_messages backendMessages)) ;;
          (* cache the loaded messages *)
          modify (on_chat (cache_messages sessionIdToLoad backendMessages))
      end ;;
      match context with
      | ContextNotOk => ret tt
      | ContextUnreadable => throw SyntaxError
      | ContextPreferences p =>
          modify (on_chat (set_memoryUpdates (default empty_object p))) ;;
          (* cache the loaded context *)
          modify (on_chat (cache_memory sessionIdToLoad (default empty_object p)))
      end
  end.

(** The [try] block. *)
Definition load_conversation (sessionIdToLoad : string) (backend : Backend) : M unit :=
  (* try to load from cache first *)
  cachedMessages <- gets (fun m => ChatStore.sessionMessages (chatStore m)
                                   !! sessionIdToLoad) ;;
  cachedActions <- gets (fun m => ChatStore.sessionActions (chatStore m)
                                  !! sessionIdToLoad) ;;
  cachedMemory <- gets (fun m => ChatStore.sessionMemory (chatStore m)
                                 !! sessionIdToLoad) ;;
  match cachedMessages with
  | Some cached =>
      if Nat.ltb 1 (length cached)
      then load_from_cache cached cachedActions cachedMemory
      else load_from_backend sessionIdToLoad backend
  | None => load_from_backend sessionIdToLoad backend
  end.

(** The [catch] block. *)
Definition load_failed (err : Exn) : M unit :=
  modify (on_chat (ChatStore.setError (JString "Failed to load conversation history"))) ;;
  NewChat.initializeWelcome uuidv4 Date_now.

Definition loadConversationHistory (sessionIdToLoad : string) (backend : Backend) : M unit :=
  modify (on_chat (set_isLoadingHistory true)) ;;
  modify (on_chat (ChatStore.setError JNull)) ;;
  finally
    (try_catch (load_conversation sessionIdToLoad backend) load_failed)
    (modify (on_chat (set_isLoadingHistory false))).

(** Switch to a different session. *)
Definition switchSession (newSessionId : string) (backend : Backend) : M unit :=
  (* save current session first *)
  count <- gets (fun m => length (ChatStore.messages (chatStore m))) ;;
  (if Nat.ltb 0 count then modify (on_chat ChatStore.saveCurrentSession) else ret tt) ;;
  (* clear current state *)
  modify (on_chat ChatStoreActions.clearAll) ;;
  (* update session id *)
  modify (on_chat (ChatStoreActions.set_sessionId newSessionId)) ;;
  (* load new session *)
  call (loadConversationHistory newSessionId backend).

End Runtime.

(** The conversation of the chat store: the message objects of its
    list. *)
Definition conversation (m : Machine) : list (option Message) :=
  map (fun r => heap m !! r) (ChatStore.messages (chatStore m)).

(** From [m] to [m'] the heap has only grown, the chat is for the same
    session, and the cached conversations of the sessions other than
    [sid] are as they were. *)
Definition cache_kept_but (sid : string) (m m' : Machine) : Prop :=
  heap m `prefix_of` heap m' /\
  ChatStore.sessionId (chatStore m') = ChatStore.sessionId (chatStore m) /\
  forall k, k <> sid ->
    ChatStore.sessionMessages (chatStore m') !! k = ChatStore.sessionMessages (chatStore m) !! k /\
    ChatStore.sessionActions (chatStore m') !! k = ChatStore.sessionActions (chatStore m) !! k /\
    ChatStore.sessionMemory (chatStore m') !! k = ChatStore.sessionMemory (chatStore m) !! k.

(** The requests fail, or an answer cannot be read. *)
Definition load_fails (backend : Backend) : bool :=
  match backend with
  | Unreachable => true
  | Answers HistoryUnreadable _ => true
  | Answers _ ContextUnreadable => true
  | Answers _ _ => false
  end.

End History.

(** ** Further inputs for running the model *)

Module Examples.
Import JsString Js Types.

(** Lines of the wire. *)
Definition error_line : string := Sample.data_line "{'type':'error','message':'No flights'}".
Definition action_line : string :=
  Sample.data_line "{'type':'action','description':'Searching  for flights'}".
Definition comment_line : string := ": keep-alive".
Definition memory_line : string :=
  Sample.data_line "{'type':'memory','updates':{'destination':'Goa'}}".
(** A token event that holds no content. *)
Definition bare_token_line : string := Sample.data_line "{'type':'token'}".

(** A chat in which a first message has been sent and answered. *)
Definition question : Message := mkMessage "q1" user (JString "Hi") 1%Z None.
Definition answer : Message := mkMessage "a1" assistant (JString "Hello") 2%Z None.

Definition answered (sessionId : string) : UseChat.Machine :=
  UseChat.mkMachine
    (ChatStore.set_messages [0; 1; 2] (Sample.empty_chat sessionId))
    PreferencesStore.initial
    (BackendSessions.mkStore
       [BackendSessions.mkChatSession sessionId "Hi" (Some "Hello...") 2%Z 3
                                      JUndefined JUndefined]
       sessionId false None)
    [Sample.welcome; question; answer] 3 3 (UseChat.mkLocals None EmptyString).

(** A catalog of the server-backed store before it is initialized. *)
Definition empty_catalog : BackendSessions.Store :=
  BackendSessions.mkStore [] "s0" false None.

End Examples.

(** * Properties *)

(** ** Lines of text *)

Module StringFacts.
Import JsString.

Lemma append_cons c (a b : string) : String c a +:+ b = String c (a +:+ b).
Proof. reflexivity. Qed.

Lemma append_assoc (a b c : string) : (a +:+ b) +:+ c = a +:+ (b +:+ c).
Proof.
  induction a as [|x a IH]; [reflexivity|].
  rewrite !append_cons. by rewrite IH.
Qed.

Lemma append_nil_r (a : string) : a +:+ EmptyString = a.
Proof.
  induction a as [|x a IH]; [reflexivity|].
  rewrite append_cons. by rewrite IH.
Qed.

Lemma split_lines_not_nil s : split_lines s <> [].
Proof.
  destruct s as [|c r]; simpl; [discriminate|].
  destruct (Ascii.eqb c LF); [discriminate|].
  destruct (split_lines r); discriminate.
Qed.

(** Splitting a text that arrives in two parts: the complete lines of the
    first part, then the lines of what the first part left unfinished
    followed by the second part. *)
Lemma split_lines_append x y :
  split_lines (x +:+ y) =
  removelast (split_lines x) ++ split_lines (List.last (split_lines x) EmptyString +:+ y).
Proof.
  induction x as [|c r IH]; [reflexivity|].
  rewrite append_cons. cbn [split_lines].
  pose proof (split_lines_not_nil r) as Hr.
  destruct (Ascii.eqb c LF) eqn:Hc.
  - rewrite IH. destruct (split_lines r) as [|z zs]; [done|]. reflexivity.
  - rewrite IH. destruct (split_lines r) as [|z zs]; [done|].
    destruct zs as [|z' zs].
    + cbn [removelast List.last app].
      rewrite append_cons. cbn [split_lines]. rewrite Hc. reflexivity.
    + reflexivity.
Qed.

Lemma no_LF_append x y : no_LF x = true -> no_LF y = true -> no_LF (x +:+ y) = true.
Proof.
  intros Hx Hy. induction x as [|c x IH]; [exact Hy|].
  cbn [no_LF] in Hx. apply andb_prop in Hx as [Hc Hx].
  rewrite append_cons. cbn [no_LF]. by rewrite Hc, IH.
Qed.

Lemma split_lines_one_line x : no_LF x = true -> split_lines x = [x].
Proof.
  induction x as [|c r IH]; [reflexivity|].
  cbn [no_LF split_lines]. intros [Hc Hr]%andb_true_iff.
  apply negb_true_iff in Hc. rewrite Hc, (IH Hr). reflexivity.
Qed.

Lemma split_lines_first_line x rest :
  no_LF x = true -> split_lines (x +:+ String LF rest) = x :: split_lines rest.
Proof.
  induction x as [|c r IH].
  - intros _. reflexivity.
  - cbn [no_LF]. intros [Hc Hr]%andb_true_iff. apply negb_true_iff in Hc.
    rewrite append_cons. cbn [split_lines]. rewrite Hc, (IH Hr). reflexivity.
Qed.

Lemma split_lines_unlines ls rest :
  Forall (fun l => no_LF l = true) ls ->
  split_lines (unlines ls +:+ rest) = ls ++ split_lines rest.
Proof.
  induction 1 as [|l ls Hl _ IH]; [reflexivity|].
  cbn [unlines app]. rewrite append_assoc, append_cons.
  rewrite (split_lines_first_line _ _ Hl), IH. reflexivity.
Qed.

Lemma split_lines_are_lines s : Forall (fun l => no_LF l = true) (split_lines s).
Proof.
  induction s as [|c r IH]; [repeat constructor|].
  cbn [split_lines]. destruct (Ascii.eqb c LF) eqn:Hc.
  - constructor; [reflexivity | exact IH].
  - destruct (split_lines r) as [|z zs]; [repeat constructor; cbn; by rewrite Hc|].
    inversion IH as [|? ? Hz Hzs]; subst.
    constructor; [cbn; by rewrite Hc, Hz | exact Hzs].
Qed.

Lemma last_line_no_LF s : no_LF (List.last (split_lines s) EmptyString) = true.
Proof.
  pose proof (split_lines_are_lines s) as H.
  induction H as [|l ls Hl Hls IH]; [reflexivity|].
  destruct ls; [exact Hl | exact IH].
Qed.

Lemma unlines_app l1 l2 : unlines (l1 ++ l2) = unlines l1 +:+ unlines l2.
Proof.
  induction l1 as [|x l1 IH]; [reflexivity|].
  cbn [app unlines]. rewrite IH, append_assoc, append_cons. reflexivity.
Qed.

Lemma removelast_app_not_nil {A} (l1 l2 : list A) :
  l2 <> [] -> removelast (l1 ++ l2) = l1 ++ removelast l2.
Proof. apply removelast_app. Qed.

Lemma last_app_not_nil {A} (l1 l2 : list A) d :
  l2 <> [] -> List.last (l1 ++ l2) d = List.last l2 d.
Proof.
  intros H. induction l1 as [|x l1 IH]; [reflexivity|].
  cbn [app List.last]. destruct (l1 ++ l2) eqn:E; [|exact IH].
  destruct l1, l2; simplify_eq/=.
Qed.

Lemma forallb_Forall {A} (f : A -> bool) (l : list A) :
  forallb f l = true -> Forall (fun x => f x = true) l.
Proof.
  induction l as [|x l IH]; cbn [forallb]; [constructor|].
  intros [Hx Hl]%andb_true_iff. constructor; auto.
Qed.

End StringFacts.

(** ** The stream loop *)

Module StreamFacts.
Import JsString Js Types UseChat StringFacts.

Lemma bind_eq {A B} (c : M A) (k : A -> M B) m :
  bind c k m = match c m with
               | Normal a m' => k a m'
               | Returned m' => Returned m'
               | Thrown e m' => Thrown e m'
               end.
Proof. reflexivity. Qed.

Lemma try_catch_eq {A} (c : M A) h m :
  try_catch c h m = match c m with
                    | Thrown e m' => h e m'
                    | r => r
                    end.
Proof. reflexivity. Qed.

Section Runtime.
Variable Array_prototype_keys : list string.
Variable JSON_parse : string -> option JSValue.
Variable uuidv4 : nat -> string.
Variable Date_now : nat -> Date.
Variable toISOString : Date -> string.
Variable toLowerCase : string -> string.

Local Abbreviation handle_event :=
  (UseChat.handle_event Array_prototype_keys uuidv4 Date_now toISOString toLowerCase).
Local Abbreviation process_line :=
  (UseChat.process_line Array_prototype_keys JSON_parse uuidv4 Date_now toISOString toLowerCase).
Local Abbreviation for_lines :=
  (UseChat.for_lines Array_prototype_keys JSON_parse uuidv4 Date_now toISOString toLowerCase).
Local Abbreviation read_loop :=
  (UseChat.read_loop Array_prototype_keys JSON_parse uuidv4 Date_now toISOString toLowerCase).
Local Abbreviation stream_response :=
  (UseChat.stream_response Array_prototype_keys JSON_parse uuidv4 Date_now toISOString toLowerCase).
Local Abbreviation sendMessage :=
  (UseChat.sendMessage Array_prototype_keys JSON_parse uuidv4 Date_now toISOString toLowerCase).

(** *** Lines *)

(** What [process_line] does, by the event the line carries: the handler
    runs inside [try], and whatever it throws is dropped. *)
Lemma process_line_event sid line m :
  process_line sid line m =
  match event_of JSON_parse line with
  | Some data => try_catch (handle_event sid data) (fun _ => ret tt) m
  | None => Normal tt m
  end.
Proof.
  unfold UseChat.process_line, event_of.
  destruct (startsWith "data: " line); [|reflexivity].
  rewrite try_catch_eq.
  destruct (String.eqb (trim (slice 6 line)) EmptyString); [reflexivity|].
  rewrite bind_eq. destruct (JSON_parse (slice 6 line)); reflexivity.
Qed.

Lemma malformed_no_event line : malformed JSON_parse line -> event_of JSON_parse line = None.
Proof.
  intros [Hp Hj]. unfold event_of. rewrite Hp, Hj.
  destruct (String.eqb _ _); reflexivity.
Qed.

Lemma process_line_malformed sid line m :
  malformed JSON_parse line -> process_line sid line m = Normal tt m.
Proof. intros H. by rewrite process_line_event, (malformed_no_event _ H). Qed.

Lemma process_line_not_thrown sid line m e m' : process_line sid line m <> Thrown e m'.
Proof.
  rewrite process_line_event. destruct (event_of JSON_parse line); [|discriminate].
  rewrite try_catch_eq. destruct (handle_event sid j m); discriminate.
Qed.

Lemma for_lines_not_thrown sid lines m e m' : for_lines sid lines m <> Thrown e m'.
Proof.
  revert m. induction lines as [|l lines IH]; intros m; [discriminate|].
  cbn [UseChat.for_lines]. rewrite bind_eq.
  pose proof (process_line_not_thrown sid l m) as Hl.
  destruct (process_line sid l m) as [[] m1|m1|e1 m1]; [apply IH|discriminate|].
  intros H. by eapply Hl.
Qed.

Lemma for_lines_app sid l1 l2 m :
  for_lines sid (l1 ++ l2) m = bind (for_lines sid l1) (fun _ => for_lines sid l2) m.
Proof.
  revert m. induction l1 as [|l l1 IH]; intros m; [reflexivity|].
  cbn [UseChat.for_lines app]. rewrite !bind_eq.
  destruct (process_line sid l m) as [[] m'| |]; [|reflexivity..].
  rewrite IH. reflexivity.
Qed.

(** A line that changes nothing where it stands can be left out. *)
Lemma for_lines_skip sid pre x post m :
  (forall m1, for_lines sid pre m = Normal tt m1 -> process_line sid x m1 = Normal tt m1) ->
  for_lines sid (pre ++ x :: post) m = for_lines sid (pre ++ post) m.
Proof.
  intros H. rewrite !for_lines_app, !bind_eq.
  destruct (for_lines sid pre m) as [[] m1| |] eqn:E; [|reflexivity..].
  cbn [UseChat.for_lines]. rewrite bind_eq, (H m1 eq_refl). reflexivity.
Qed.

(** *** Reads *)

(** Two consecutive reads feed the handlers the same lines, in the same
    order, as one read of both chunks together. *)
Lemma read_loop_join sid c1 c2 rest e buffer m :
  read_loop sid (c1 :: c2 :: rest) e buffer m =
  read_loop sid ((c1 +:+ c2) :: rest) e buffer m.
Proof.
  cbn [UseChat.read_loop]. unfold pop.
  rewrite <- (append_assoc buffer c1 c2).
  rewrite (split_lines_append (buffer +:+ c1) c2).
  set (L1 := split_lines (buffer +:+ c1)).
  set (L2 := split_lines (List.last L1 EmptyString +:+ c2)).
  assert (L2 <> []) as HL2 by apply split_lines_not_nil.
  rewrite (removelast_app_not_nil _ _ HL2), (last_app_not_nil _ _ _ HL2).
  cbv beta iota. rewrite !bind_eq, for_lines_app, bind_eq.
  destruct (for_lines sid (removelast L1) m) as [[] m'| |]; reflexivity.
Qed.

Lemma read_loop_join_at sid pre c1 c2 rest e buffer m :
  read_loop sid (pre ++ c1 :: c2 :: rest) e buffer m =
  read_loop sid (pre ++ (c1 +:+ c2) :: rest) e buffer m.
Proof.
  revert buffer m. induction pre as [|c pre IH]; intros buffer m.
  - apply read_loop_join.
  - cbn [app UseChat.read_loop]. destruct (pop _) as [lines b'].
    rewrite !bind_eq.
    destruct (for_lines sid lines m) as [[] m'| |]; [apply IH|reflexivity..].
Qed.

(** The loop sees the text, not how the reads cut it. *)
Lemma read_loop_received sid chunks e buffer m :
  no_LF buffer = true ->
  read_loop sid chunks e buffer m = read_loop sid [concat_all chunks] e buffer m.
Proof.
  revert buffer m. induction chunks as [|c chunks IH]; intros buffer m Hb.
  - cbn [concat_all fold_right UseChat.read_loop]. unfold pop.
    rewrite append_nil_r, (split_lines_one_line _ Hb). reflexivity.
  - change (concat_all (c :: chunks)) with (c +:+ concat_all chunks).
    rewrite <- read_loop_join.
    cbn [UseChat.read_loop]. unfold pop. cbv beta iota. rewrite !bind_eq.
    destruct (for_lines sid _ m) as [[] m'| |]; [|reflexivity..].
    rewrite (IH _ m' (last_line_no_LF _)). reflexivity.
Qed.

(** A chunk that starts with complete lines: they are handled in order,
    and the rest of the chunk is read as if it were a chunk of its own. *)
Lemma read_loop_lines sid ls rest e m :
  Forall (fun l => no_LF l = true) ls ->
  read_loop sid [unlines ls +:+ rest] e EmptyString m =
  bind (for_lines sid ls) (fun _ => read_loop sid [rest] e EmptyString) m.
Proof.
  intros Hls. rewrite <- read_loop_join.
  assert (split_lines (unlines ls) = ls ++ [EmptyString]) as E.
  { rewrite <- (append_nil_r (unlines ls)). apply (split_lines_unlines ls EmptyString Hls). }
  cbn [UseChat.read_loop]. unfold pop.
  change (EmptyString +:+ unlines ls) with (unlines ls). rewrite E.
  rewrite removelast_app_not_nil, last_app_not_nil by discriminate.
  cbn [removelast List.last]. rewrite app_nil_r. reflexivity.
Qed.

End Runtime.
End StreamFacts.

(** ** The event handlers *)

Module HandlerFacts.
Import JsString Js Types UseChat StringFacts StreamFacts.

Lemma is_string_inv v name : is_string v name = true -> v = JString name.
Proof.
  destruct v; try discriminate. cbn. intros H%String.eqb_eq. by subst.
Qed.

Lemma has_type_inv data name :
  has_type data name = true -> Get data "type" = inr (JString name).
Proof.
  unfold has_type. destruct (Get data "type") as [e|t]; [discriminate|].
  intros H%is_string_inv. by subst.
Qed.

Section Runtime.
Variable Array_prototype_keys : list string.
Variable JSON_parse : string -> option JSValue.
Variable uuidv4 : nat -> string.
Variable Date_now : nat -> Date.
Variable toISOString : Date -> string.
Variable toLowerCase : string -> string.

Local Abbreviation handle_event :=
  (UseChat.handle_event Array_prototype_keys uuidv4 Date_now toISOString toLowerCase).
Local Abbreviation process_line :=
  (UseChat.process_line Array_prototype_keys JSON_parse uuidv4 Date_now toISOString toLowerCase).
Local Abbreviation for_lines :=
  (UseChat.for_lines Array_prototype_keys JSON_parse uuidv4 Date_now toISOString toLowerCase).
Local Abbreviation on_response_start := (UseChat.on_response_start uuidv4 Date_now).
Local Abbreviation on_complete := (UseChat.on_complete Date_now).
Local Abbreviation on_error := (UseChat.on_error uuidv4 Date_now).
Local Abbreviation on_action := (UseChat.on_action Date_now toISOString toLowerCase).
Local Abbreviation on_memory := (UseChat.on_memory Array_prototype_keys).

(** *** Dispatch on [data.type] *)

Lemma handle_start sid data m :
  has_type data "start" = true -> handle_event sid data m = on_start m.
Proof.
  intros H. unfold UseChat.handle_event.
  rewrite bind_eq, (has_type_inv _ _ H). reflexivity.
Qed.

Lemma handle_action sid data m :
  has_type data "action" = true -> handle_event sid data m = on_action data m.
Proof.
  intros H. unfold UseChat.handle_event.
  rewrite bind_eq, (has_type_inv _ _ H). reflexivity.
Qed.

Lemma handle_memory sid data m :
  has_type data "memory" = true -> handle_event sid data m = on_memory data m.
Proof.
  intros H. unfold UseChat.handle_event.
  rewrite bind_eq, (has_type_inv _ _ H). reflexivity.
Qed.

Lemma handle_response_start sid data m :
  has_type data "response_start" = true -> handle_event sid data m = on_response_start m.
Proof.
  intros H. unfold UseChat.handle_event.
  rewrite bind_eq, (has_type_inv _ _ H). reflexivity.
Qed.

Lemma handle_token sid data m :
  has_type data "token" = true -> handle_event sid data m = on_token data m.
Proof.
  intros H. unfold UseChat.handle_event.
  rewrite bind_eq, (has_type_inv _ _ H). reflexivity.
Qed.

Lemma handle_complete sid data m :
  has_type data "complete" = true -> handle_event sid data m = on_complete sid m.
Proof.
  intros H. unfold UseChat.handle_event.
  rewrite bind_eq, (has_type_inv _ _ H). reflexivity.
Qed.

Lemma handle_error sid data m :
  has_type data "error" = true -> handle_event sid data m = on_error data m.
Proof.
  intros H. unfold UseChat.handle_event.
  rewrite bind_eq, (has_type_inv _ _ H). reflexivity.
Qed.

(** *** Local variables *)

(** Only [response_start] and a [token] after it write the local
    variables of the stream. *)
Lemma handle_event_locals sid data m :
  has_type data "response_start" = false ->
  currentMessage (locals m) = None ->
  locals (machine_of (handle_event sid data m)) = locals m.
Proof.
  intros Hrs Hcur. unfold UseChat.handle_event, has_type in *.
  rewrite bind_eq. destruct (Get data "type") as [e|type]; [reflexivity|].
  cbn [lift ret].
  destruct (is_string type "start"); [reflexivity|].
  destruct (is_string type "action").
  { unfold UseChat.on_action. clear Hrs. run; reflexivity. }
  destruct (is_string type "memory").
  { unfold UseChat.on_memory. clear Hrs. run; reflexivity. }
  rewrite Hrs.
  destruct (is_string type "token").
  { unfold UseChat.on_token. cbn [bind gets]. rewrite Hcur. reflexivity. }
  destruct (is_string type "complete").
  { unfold UseChat.on_complete, updateSession. clear Hrs. run; reflexivity. }
  destruct (is_string type "error").
  { unfold UseChat.on_error. clear Hrs. run; reflexivity. }
  reflexivity.
Qed.

End Runtime.
End HandlerFacts.

(** ** [sendMessage] *)

Module SendFacts.
Import JsString Js Types UseChat StringFacts StreamFacts HandlerFacts.

Section Runtime.
Variable Array_prototype_keys : list string.
Variable JSON_parse : string -> option JSValue.
Variable uuidv4 : nat -> string.
Variable Date_now : nat -> Date.
Variable toISOString : Date -> string.
Variable toLowerCase : string -> string.

Local Abbreviation handle_event :=
  (UseChat.handle_event Array_prototype_keys uuidv4 Date_now toISOString toLowerCase).
Local Abbreviation process_line :=
  (UseChat.process_line Array_prototype_keys JSON_parse uuidv4 Date_now toISOString toLowerCase).
Local Abbreviation for_lines :=
  (UseChat.for_lines Array_prototype_keys JSON_parse uuidv4 Date_now toISOString toLowerCase).
Local Abbreviation read_loop :=
  (UseChat.read_loop Array_prototype_keys JSON_parse uuidv4 Date_now toISOString toLowerCase).
Local Abbreviation stream_response :=
  (UseChat.stream_response Array_prototype_keys JSON_parse uuidv4 Date_now toISOString toLowerCase).
Local Abbreviation add_user_message :=
  (UseChat.add_user_message uuidv4 Date_now).
Local Abbreviation report_failure := (UseChat.report_failure uuidv4 Date_now).
Local Abbreviation sendMessage :=
  (UseChat.sendMessage Array_prototype_keys JSON_parse uuidv4 Date_now toISOString toLowerCase).
Local Abbreviation carries := (UseChat.carries JSON_parse).
Local Abbreviation with_user_message := (UseChat.with_user_message uuidv4 Date_now).

(** The part of [sendMessage] before [try], in a chat that holds at
    least two messages already: it ends normally and leaves one more
    message, the user's, in the chat store and on the heap. *)
Lemma add_user_message_effect sid content m :
  2 <= length (ChatStore.messages (chatStore m)) ->
  exists m', add_user_message sid content m = Normal tt m' /\
    heap m' = heap m ++ [mkMessage (uuidv4 (uuid_calls m)) user (JString (trim content))
                                   (Date_now (clock_reads m)) None] /\
    ChatStore.messages (chatStore m') = ChatStore.messages (chatStore m) ++ [length (heap m)] /\
    uuid_calls m' = S (uuid_calls m) /\
    ChatStore.sessionId (chatStore m') = ChatStore.sessionId (chatStore m) /\
    ChatStore.agentActions (chatStore m') = ChatStore.agentActions (chatStore m) /\
    ChatStore.memoryUpdates (chatStore m') = ChatStore.memoryUpdates (chatStore m) /\
    ChatStore.isTyping (chatStore m') = ChatStore.isTyping (chatStore m) /\
    ChatStore.error (chatStore m') = ChatStore.error (chatStore m) /\
    preferences m' = preferences m.
Proof.
  intros Hlen.
  unfold UseChat.add_user_message, updateSession, bind, new_uuid, new_Date, new_Message,
    addMessage, gets, modify, ret.
  cbn -[Nat.leb]. unfold ChatStore.messageCount. cbn -[Nat.leb].
  rewrite length_app. cbn [length].
  destruct (Nat.leb_spec (length (ChatStore.messages (chatStore m)) + 1) 2) as [H|_]; [lia|].
  repeat match goal with
         | |- context [if ?b then _ else _] => destruct b
         end; eexists; split_and!; reflexivity.
Qed.

(** When the part before [try] ends normally, the chat held two
    messages or more. *)
Lemma add_user_message_inv sid content m m' :
  add_user_message sid content m = Normal tt m' ->
  2 <= length (ChatStore.messages (chatStore m)) /\
  heap m' = heap m ++ [mkMessage (uuidv4 (uuid_calls m)) user (JString (trim content))
                                 (Date_now (clock_reads m)) None] /\
  ChatStore.messages (chatStore m') = ChatStore.messages (chatStore m) ++ [length (heap m)] /\
  uuid_calls m' = S (uuid_calls m).
Proof.
  intros E.
  destruct (Nat.le_gt_cases (length (ChatStore.messages (chatStore m))) 1) as [H|H].
  - unfold UseChat.add_user_message, updateSession, bind, new_uuid, new_Date, new_Message,
      addMessage, gets, modify, ret in E.
    revert E. cbn -[Nat.leb]. unfold ChatStore.messageCount. cbn -[Nat.leb].
    rewrite length_app. cbn [length].
    destruct (Nat.leb_spec (length (ChatStore.messages (chatStore m)) + 1) 2) as [_|H']; [|lia].
    discriminate.
  - split; [lia|].
    destruct (add_user_message_effect sid content m) as (m1 & E1 & Hh & Hm & Hu & _); [lia|].
    rewrite E in E1. by simplify_eq.
Qed.

(** In a chat that holds at most one message, the welcome, the part
    before [try] throws: the sessions store has no
    [updateSessionTitle] to call. *)
Lemma add_user_message_first sid content m :
  length (ChatStore.messages (chatStore m)) <= 1 ->
  add_user_message sid content m = Thrown TypeError (with_user_message content m).
Proof.
  intros Hlen.
  unfold UseChat.add_user_message, updateSession, bind, new_uuid, new_Date, new_Message,
    addMessage, gets, modify, ret.
  cbn -[Nat.leb]. unfold ChatStore.messageCount. cbn -[Nat.leb].
  rewrite length_app. cbn [length].
  destruct (Nat.leb_spec (length (ChatStore.messages (chatStore m)) + 1) 2) as [_|H]; [|lia].
  reflexivity.
Qed.

(** The [catch] block ends normally and clears the typing indicator. *)
Lemma report_failure_normal err m :
  exists m', report_failure err m = Normal tt m' /\
             ChatStore.isTyping (chatStore m') = false.
Proof. eexists. split; reflexivity. Qed.

(** In a chat that holds at least two messages, [sendMessage] does not
    reject. *)
Lemma sendMessage_normal sid content response m :
  2 <= length (ChatStore.messages (chatStore m)) ->
  exists m', sendMessage sid content response m = Normal tt m'.
Proof.
  intros Hlen. unfold UseChat.sendMessage, call.
  destruct (negb (nonempty (trim content))); [eexists; reflexivity|].
  rewrite bind_eq. destruct (add_user_message_effect sid content m Hlen) as (m1 & -> & _).
  rewrite try_catch_eq.
  destruct (stream_response sid response m1) as [[] m2|m2|err m2];
    [eexists; reflexivity..|].
  destruct (report_failure_normal err m2) as [m3 [-> _]]. eexists; reflexivity.
Qed.

(** The first message of a chat: [sendMessage] rejects with the
    [TypeError], outside its [try], before the request is made. *)
Lemma sendMessage_first sid content response m :
  nonempty (trim content) = true ->
  length (ChatStore.messages (chatStore m)) <= 1 ->
  sendMessage sid content response m = Thrown TypeError (with_user_message content m).
Proof.
  intros Hc Hlen. unfold UseChat.sendMessage, call. rewrite Hc. cbn [negb].
  rewrite bind_eq, (add_user_message_first _ _ _ Hlen).
  unfold with_user_message. destruct m as [? ? ? ? ? ? []]. reflexivity.
Qed.

(** The result of [sendMessage] depends on the body of the answer only
    through what the read loop does from the start of the stream. *)
Lemma sendMessage_stream_ext sid content status chunks chunks' e m :
  (forall m1, locals m1 = mkLocals None EmptyString ->
              read_loop sid chunks e EmptyString m1 = read_loop sid chunks' e EmptyString m1) ->
  sendMessage sid content (Response true status (Some (mkBody chunks e))) m =
  sendMessage sid content (Response true status (Some (mkBody chunks' e))) m.
Proof.
  intros H. unfold UseChat.sendMessage, call.
  destruct (negb (nonempty (trim content))); [reflexivity|].
  rewrite !bind_eq. destruct (add_user_message sid content m) as [[] m1|m1|err m1];
    [|reflexivity..].
  rewrite !try_catch_eq. unfold UseChat.stream_response.
  rewrite !bind_eq. unfold setTyping, modify. cbn [negb UseChat.chunks UseChat.ending].
  rewrite !bind_eq. rewrite H by reflexivity. reflexivity.
Qed.

(** A call whose part before [try] ends normally, on a stream that
    holds the lines [ls] and then the text [tail]: the lines are handled
    in their order, from the machine in which the indicator is set and
    no message is in progress, however the reads cut the text. *)
Lemma sendMessage_lines sid content status chunks ls tail e m m0 :
  nonempty (trim content) = true ->
  add_user_message sid content m = Normal tt m0 ->
  forallb no_LF ls = true ->
  concat_all chunks = unlines ls +:+ tail ->
  sendMessage sid content (Response true status (Some (mkBody chunks e))) m
  = call (fun _ =>
            try_catch (bind (for_lines sid ls)
                            (fun _ => read_loop sid [tail] e EmptyString))
                      report_failure
                      (on_locals (fun _ => mkLocals None EmptyString)
                                 (on_chat (ChatStore.setTyping true) m0))) m.
Proof.
  intros Hc E0 Hls Htext. unfold UseChat.sendMessage, call. rewrite Hc. cbn [negb].
  rewrite bind_eq, E0, !try_catch_eq. unfold UseChat.stream_response.
  rewrite bind_eq. unfold setTyping, modify. cbn [negb UseChat.chunks UseChat.ending].
  rewrite bind_eq.
  rewrite (read_loop_received _ _ _ _ _ _ _ chunks) by reflexivity.
  rewrite Htext, read_loop_lines by (by apply forallb_Forall).
  reflexivity.
Qed.

(** The last read of a stream that ends without a line feed leaves the
    text it brings in the buffer: nothing of it is processed. *)
Lemma read_loop_last sid tail m :
  no_LF tail = true ->
  read_loop sid [tail] EndOfData EmptyString m = Normal tt m.
Proof.
  intros H. cbn [UseChat.read_loop].
  change (EmptyString +:+ tail) with tail.
  by rewrite (split_lines_one_line tail H).
Qed.

(** Leaving out a line that changes nothing where it stands, at the
    level of the whole call. *)
Lemma sendMessage_skip_line sid content status chunks chunks' pre x rest e m :
  forallb no_LF pre = true -> no_LF x = true ->
  concat_all chunks = unlines (pre ++ [x]) +:+ rest ->
  concat_all chunks' = unlines pre +:+ rest ->
  (forall m0 m1, locals m0 = mkLocals None EmptyString ->
                 for_lines sid pre m0 = Normal tt m1 -> process_line sid x m1 = Normal tt m1) ->
  sendMessage sid content (Response true status (Some (mkBody chunks e))) m =
  sendMessage sid content (Response true status (Some (mkBody chunks' e))) m.
Proof.
  intros Hpre Hx Hc Hc' Hskip. apply sendMessage_stream_ext. intros m1 Hm1.
  rewrite (read_loop_received _ _ _ _ _ _ _ chunks), (read_loop_received _ _ _ _ _ _ _ chunks')
    by reflexivity.
  rewrite Hc, Hc'.
  apply forallb_Forall in Hpre.
  rewrite !read_loop_lines.
  - rewrite !bind_eq.
    assert (for_lines sid (pre ++ [x]) m1 = for_lines sid pre m1) as ->; [|reflexivity].
    rewrite for_lines_skip; [by rewrite app_nil_r|].
    intros m2. apply Hskip, Hm1.
  - exact Hpre.
  - apply Forall_app. split; [exact Hpre | by repeat constructor].
Qed.

(** C9.  [sendMessage] with content that is empty after trimming returns
    at once: the machine (stores, heap, id and clock counters) is left
    as it was, whatever the network would have answered. *)
Theorem blank_message_is_noop sid content response m :
  trim content = EmptyString ->
  sendMessage sid content response m = Normal tt m.
Proof.
  intros H. unfold UseChat.sendMessage, call. rewrite H. cbn.
  destruct m; reflexivity.
Qed.

End Runtime.
End SendFacts.

(** ** Tokens *)

Module TokenFacts.
Import JsString Js Types UseChat StringFacts StreamFacts HandlerFacts.

Lemma findIndex_first {A} (p : A -> bool) (l : list A) n x :
  l !! n = Some x -> p x = true ->
  exists i y, findIndex p l = Some i /\ i <= n /\ l !! i = Some y /\ p y = true /\
              forall j z, j < i -> l !! j = Some z -> p z = false.
Proof.
  revert n. induction l as [|a l IH]; intros n Hn Hp; [discriminate|].
  cbn [findIndex]. destruct (p a) eqn:Ha.
  - exists 0, a. split_and!; [done | lia | done | done | intros j z Hj; lia].
  - destruct n as [|n]; [cbn in Hn; congruence|].
    destruct (IH n Hn Hp) as (i & y & Hf & Hi & Hy & Hpy & Hmin).
    exists (S i), y. rewrite Hf. split_and!; [done | lia | done | done |].
    intros [|j] z Hj Hz; [cbn in Hz; congruence|].
    apply (Hmin j z); [lia | done].
Qed.

(** Writing the content of an object leaves every id as it is. *)
Lemma id_after_write (h : Heap) r c x :
  m_id <$> alter (with_content c) r h !! x = m_id <$> h !! x.
Proof.
  destruct (decide (x = r)) as [->|Hne].
  - rewrite list_lookup_alter_eq. by destruct (h !! r).
  - by rewrite list_lookup_alter_ne.
Qed.

Lemma last_entry {A} (l : list A) n x :
  length l = S n -> l !! n = Some x -> last l = Some x.
Proof. intros Hlen Hn. by rewrite last_lookup, Hlen. Qed.

Section Runtime.
Variable Array_prototype_keys : list string.
Variable JSON_parse : string -> option JSValue.
Variable uuidv4 : nat -> string.
Variable Date_now : nat -> Date.
Variable toISOString : Date -> string.
Variable toLowerCase : string -> string.

Local Abbreviation handle_event :=
  (UseChat.handle_event Array_prototype_keys uuidv4 Date_now toISOString toLowerCase).
Local Abbreviation process_line :=
  (UseChat.process_line Array_prototype_keys JSON_parse uuidv4 Date_now toISOString toLowerCase).
Local Abbreviation for_lines :=
  (UseChat.for_lines Array_prototype_keys JSON_parse uuidv4 Date_now toISOString toLowerCase).
Local Abbreviation on_response_start := (UseChat.on_response_start uuidv4 Date_now).
Local Abbreviation carries := (UseChat.carries JSON_parse).
Local Abbreviation token_line := (UseChat.token_line JSON_parse).

(** [response_start] appends one message, empty and with a new id, and
    makes it the current one. *)
Lemma on_response_start_streaming m :
  well_formed m ->
  exists m', on_response_start m = Normal tt m' /\
             streaming (uuidv4 (uuid_calls m)) (ChatStore.messages (chatStore m)) (heap m)
                       (S (uuid_calls m)) EmptyString m'.
Proof.
  intros Hwf. eexists. split; [reflexivity|].
  set (msg0 := mkMessage _ _ _ _ _).
  exists (length (heap m)), msg0, (length (heap m)), msg0.
  cbn. split_and!; try done.
  - by apply list_lookup_middle.
  - rewrite length_app. cbn. lia.
  - by apply list_lookup_middle.
  - by apply list_lookup_middle.
  - by left.
  - unfold well_formed in *. cbn. rewrite length_app. cbn.
    apply Forall_app. split; [|repeat constructor; lia].
    eapply Forall_impl; [exact Hwf|]. cbn. lia.
  - intros _. split; [by rewrite take_app_length|].
    intros r Hr. by apply lookup_app_l.
Qed.

(** A token whose content [v] converts to the string [c] extends the
    text of the current message and of the entry that shows it. *)
Lemma on_token_streaming data v c u old base k acc m :
  streaming u old base k acc m ->
  Get data "content" = inr v ->
  ToString v = inr c ->
  exists m', on_token data m = Normal tt m' /\ streaming u old base k (acc +:+ c) m'.
Proof.
  intros (current & msg & shown & msg' & Hcur & Hacc & Hmsg & Hid & Hrole & Hcont &
          Hlen & Hshown & Hmsg' & Hid' & Hrole' & Hcont' & Halias & Hwf & Htyping & Hk &
          Hbase & Hold & Hkept) Hget Htext.
  set (n := length old) in *.
  unfold UseChat.on_token, bind, gets, lift, modify, ret, new_Message.
  rewrite Hcur, Hget, Htext. cbn [locals on_locals messageContent set_messageContent].
  rewrite Hacc.
  set (acc' := acc +:+ c).
  set (m1 := on_heap _ _).
  set (msg1 := with_content (JString acc') msg).
  assert (heap m1 = alter (with_content (JString acc')) current (heap m)) as Hheap1
    by reflexivity.
  assert (ChatStore.messages (chatStore m1) = ChatStore.messages (chatStore m)) as Hmsgs1
    by reflexivity.
  assert (heap m1 !! current = Some msg1) as Hcur1.
  { by rewrite Hheap1, list_lookup_alter_eq, Hmsg. }
  assert (forall x, m_id <$> heap m1 !! x = m_id <$> heap m !! x) as Hids.
  { intros x. rewrite Hheap1. apply id_after_write. }
  assert (length (heap m1) = length (heap m)) as Hlen1.
  { by rewrite Hheap1, length_alter. }
  assert (forall r, r < length base -> heap m1 !! r = heap m !! r) as Hbase1.
  { intros r Hr. rewrite Hheap1, list_lookup_alter_ne; [done | lia]. }
  pose proof (lookup_lt_Some _ _ _ Hcur1) as Hcur_lt.
  pose proof (lookup_lt_Some _ _ _ Hshown) as Hn_lt.
  destruct (findIndex_first
              (fun r => bool_decide (m_id <$> heap m1 !! r = m_id <$> heap m1 !! current))
              (ChatStore.messages (chatStore m1)) n shown)
    as (i & y & Hf & Hi & Hy & Hpy & Hmin).
  { by rewrite Hmsgs1. }
  { apply bool_decide_eq_true. rewrite !Hids, Hmsg', Hmsg. cbn. congruence. }
  unfold index_of_current. rewrite Hf, Hcur1.
  eexists. split; [reflexivity|].
  apply bool_decide_eq_true in Hpy. rewrite Hcur1 in Hpy. cbn [fmap option_fmap option_map] in Hpy.
  change (m_id msg1) with (m_id msg) in Hpy. rewrite Hid in Hpy.
  destruct (decide (i = n)) as [->|Hne].
  - exists current, msg1, (length (heap m1)), msg1.
    cbn [locals on_chat on_heap on_locals heap chatStore ChatStore.messages
         ChatStore.set_messages currentMessage messageContent set_messageContent
         ChatStore.isTyping uuid_calls].
    split_and!; try done; try (by unfold m1; cbn; rewrite ?Hacc).
    + by apply lookup_app_l_Some.
    + by rewrite length_insert.
    + by apply list_lookup_insert_eq.
    + by apply list_lookup_middle.
    + right. intros j r Hj Hr. rewrite list_lookup_insert_ne in Hr by lia.
      rewrite Hmsgs1 in Hmin. specialize (Hmin j r Hj Hr).
      apply bool_decide_eq_false in Hmin. rewrite Hcur1 in Hmin.
      cbn [fmap option_fmap option_map] in Hmin.
      change (m_id msg1) with (m_id msg) in Hmin. rewrite Hid in Hmin.
      assert (r < length (heap m1)) as Hr_lt.
      { rewrite Hlen1. unfold well_formed in Hwf.
        rewrite Forall_lookup in Hwf. by apply (Hwf j). }
      by rewrite lookup_app_l.
    + unfold well_formed in *. cbn. rewrite !length_app, !length_alter. cbn.
      apply Forall_insert; [|lia].
      eapply Forall_impl; [exact Hwf|]. cbn. lia.
    + intros Hfresh. destruct (Hkept Hfresh) as [Htake Hsame]. split.
      * rewrite Hmsgs1. by rewrite take_insert_ge.
      * intros r Hr. rewrite lookup_app_l by lia. rewrite Hbase1 by done. by apply Hsame.
  - assert (shown = current) as ->.
    { destruct Halias as [->|Hfirst]; [done|]. exfalso.
      rewrite Hmsgs1 in Hy. apply (Hfirst i y); [lia | done |].
      by rewrite <- Hids. }
    exists current, msg1, current, msg1.
    cbn [locals on_chat on_heap on_locals heap chatStore ChatStore.messages
         ChatStore.set_messages currentMessage messageContent set_messageContent
         ChatStore.isTyping uuid_calls].
    split_and!; try done; try (by unfold m1; cbn; rewrite ?Hacc).
    + by apply lookup_app_l_Some.
    + by rewrite length_insert.
    + by rewrite list_lookup_insert_ne.
    + by apply lookup_app_l_Some.
    + by left.
    + unfold well_formed in *. cbn. rewrite !length_app, !length_alter. cbn.
      apply Forall_insert; [|lia].
      eapply Forall_impl; [exact Hwf|]. cbn. lia.
    + (* an earlier entry has the id: it is not a new one *)
      intros Hfresh. exfalso. destruct (Hkept Hfresh) as [Htake Hsame].
      rewrite Hmsgs1 in Hy.
      assert (y ∈ old) as Hyold.
      { rewrite <- Htake. apply list_elem_of_lookup. exists i.
        rewrite lookup_take_lt by lia. done. }
      assert (y < length base) as Hylt.
      { rewrite Forall_forall in Hold. by apply Hold. }
      rewrite Hbase1, Hsame in Hpy by done.
      destruct (base !! y) as [msgy|] eqn:Ey; [|discriminate].
      apply (Hfresh y msgy Hyold Ey). by simplify_eq/=.
Qed.

Lemma token_line_inv l c :
  token_line l = Some c ->
  exists data, event_of JSON_parse l = Some data /\ has_type data "token" = true /\
               Get data "content" = inr (JString c).
Proof.
  unfold UseChat.token_line, token_text.
  destruct (event_of JSON_parse l) as [data|]; [|discriminate].
  destruct (has_type data "token") eqn:Ht; [|discriminate].
  destruct (Get data "content") as [|[]] eqn:Hc; try discriminate.
  intros [= ->]. by exists data.
Qed.

Lemma process_token_line sid l c u old base k acc m :
  streaming u old base k acc m -> token_line l = Some c ->
  exists m', process_line sid l m = Normal tt m' /\ streaming u old base k (acc +:+ c) m'.
Proof.
  intros Hs (data & He & Ht & Hc)%token_line_inv.
  rewrite process_line_event, He, try_catch_eq, (handle_token _ _ _ _ _ _ _ _ Ht).
  destruct (on_token_streaming data (JString c) c u old base k acc m Hs Hc eq_refl)
    as (m' & -> & Hs').
  by exists m'.
Qed.

Lemma for_lines_tokens sid toks cs u old base k acc m :
  Forall2 (fun l c => token_line l = Some c) toks cs ->
  streaming u old base k acc m ->
  exists m', for_lines sid toks m = Normal tt m' /\
             streaming u old base k (acc +:+ concat_all cs) m'.
Proof.
  intros H. revert acc m. induction H as [|l c toks cs Hl _ IH]; intros acc m Hs.
  - exists m. split; [reflexivity|]. cbn. by rewrite append_nil_r.
  - destruct (process_token_line sid l c u old base k acc m Hs Hl) as (m1 & Hm1 & Hs1).
    destruct (IH _ _ Hs1) as (m2 & Hm2 & Hs2).
    exists m2. cbn [UseChat.for_lines]. rewrite bind_eq, Hm1, Hm2. split; [done|].
    change (concat_all (c :: cs)) with (c +:+ concat_all cs).
    by rewrite <- append_assoc.
Qed.

Lemma response_start_line sid l m :
  carries "response_start" l = true ->
  process_line sid l m = on_response_start m.
Proof.
  unfold UseChat.carries. intros H.
  destruct (event_of JSON_parse l) as [data|] eqn:He; [|discriminate].
  rewrite process_line_event, He, try_catch_eq, (handle_response_start _ _ _ _ _ _ _ _ H).
  reflexivity.
Qed.

(** The lines of one answer: [response_start], then tokens. *)
Lemma for_lines_answer sid rs toks cs m :
  well_formed m ->
  carries "response_start" rs = true ->
  Forall2 (fun l c => token_line l = Some c) toks cs ->
  exists m', for_lines sid (rs :: toks) m = Normal tt m' /\
             streaming (uuidv4 (uuid_calls m)) (ChatStore.messages (chatStore m)) (heap m)
                       (S (uuid_calls m)) (concat_all cs) m'.
Proof.
  intros Hwf Hrs Htoks.
  destruct (on_response_start_streaming m Hwf) as (m1 & Hm1 & Hs1).
  destruct (for_lines_tokens sid toks cs _ _ _ _ _ m1 Htoks Hs1) as (m2 & Hm2 & Hs2).
  exists m2. cbn [UseChat.for_lines].
  rewrite bind_eq, (response_start_line _ _ _ Hrs), Hm1, Hm2. done.
Qed.

(** With a new id, the list shows what it showed at [response_start],
    and the answer after it. *)
Lemma shown_streaming u old base k acc m :
  streaming u old base k acc m ->
  fresh_id u old base ->
  shown m = map (fun r => (fun msg => (m_role msg, m_content msg)) <$> base !! r) old
            ++ [Some (assistant, JString acc)].
Proof.
  intros (current & msg & entry & msg' & _ & _ & _ & _ & _ & _ &
          Hlen & Hentry & Hmsg' & _ & Hrole' & Hcont' & _ & _ & _ & _ &
          _ & Hold & Hkept) Hfresh.
  destruct (Hkept Hfresh) as [Htake Hsame].
  assert (ChatStore.messages (chatStore m) = old ++ [entry]) as Hmsgs.
  { rewrite <- (take_drop (length old) (ChatStore.messages (chatStore m))), Htake.
    f_equal. apply list_eq. intros [|j].
    - rewrite lookup_drop, Nat.add_0_r. done.
    - rewrite lookup_drop. cbn. apply lookup_ge_None. lia. }
  unfold shown. rewrite Hmsgs, map_app. cbn [map]. rewrite Hmsg'. cbn.
  rewrite Hrole', Hcont'. f_equal.
  apply map_ext_in. intros r Hr. rewrite Hsame; [done|].
  rewrite Forall_forall in Hold. apply Hold. by apply list_elem_of_In.
Qed.

Lemma concat_all_app (a b : list string) :
  concat_all (a ++ b) = concat_all a +:+ concat_all b.
Proof.
  induction a as [|x a IH]; [reflexivity|].
  change (concat_all ((x :: a) ++ b)) with (x +:+ concat_all (a ++ b)).
  change (concat_all (x :: a)) with (x +:+ concat_all a).
  by rewrite IH, append_assoc.
Qed.

Lemma token_texts_cons l lines :
  Frames.token_texts JSON_parse (l :: lines)
  = Frames.token_texts JSON_parse [l] ++ Frames.token_texts JSON_parse lines.
Proof.
  unfold Frames.token_texts. cbn [omap list_omap].
  by destruct (UseChat.token_line JSON_parse l).
Qed.

(** A line of the answer, while it streams: the text of its token, if it
    carries one, extends the message. *)
Lemma process_stream_line sid l u old base k acc m :
  Frames.streams JSON_parse l = true ->
  streaming u old base k acc m ->
  exists m', process_line sid l m = Normal tt m' /\
             streaming u old base k
                       (acc +:+ concat_all (Frames.token_texts JSON_parse [l])) m'.
Proof.
  unfold Frames.streams, Frames.token_texts. cbn [omap list_omap].
  intros Hl Hs. unfold UseChat.token_line.
  destruct (event_of JSON_parse l) as [data|] eqn:He.
  - destruct (token_text data) as [c|] eqn:Hc; [|discriminate].
    destruct (process_token_line sid l c u old base k acc m Hs) as (m' & E & Hs').
    { unfold UseChat.token_line. by rewrite He. }
    exists m'. split; [exact E|]. cbn. by rewrite append_nil_r.
  - exists m. rewrite process_line_event, He. split; [reflexivity|].
    cbn. by rewrite append_nil_r.
Qed.

Lemma for_lines_streams sid lines u old base k acc m :
  forallb (Frames.streams JSON_parse) lines = true ->
  streaming u old base k acc m ->
  exists m', for_lines sid lines m = Normal tt m' /\
             streaming u old base k
                       (acc +:+ concat_all (Frames.token_texts JSON_parse lines)) m'.
Proof.
  revert acc m. induction lines as [|l lines IH]; intros acc m Hl Hs.
  - exists m. split; [reflexivity|]. cbn. by rewrite append_nil_r.
  - cbn [forallb] in Hl. apply andb_prop in Hl as [Hl Hls].
    destruct (process_stream_line sid l u old base k acc m Hl Hs) as (m1 & E1 & Hs1).
    destruct (IH _ _ Hls Hs1) as (m2 & E2 & Hs2).
    exists m2. cbn [UseChat.for_lines]. rewrite bind_eq, E1, E2. split; [done|].
    by rewrite token_texts_cons, concat_all_app, <- append_assoc.
Qed.

End Runtime.
End TokenFacts.

(** ** Completion of an answer *)

Module CompleteFacts.
Import JsString Js Types UseChat StringFacts StreamFacts HandlerFacts SendFacts.


Lemma existsb_find {A} (p : A -> bool) (l : list A) x :
  List.find p l = Some x -> existsb p l = true.
Proof.
  induction l as [|a l IH]; [discriminate|].
  cbn [List.find existsb]. destruct (p a); [done | exact IH].
Qed.

Section Runtime.
Variable Array_prototype_keys : list string.
Variable JSON_parse : string -> option JSValue.
Variable uuidv4 : nat -> string.
Variable Date_now : nat -> Date.
Variable toISOString : Date -> string.
Variable toLowerCase : string -> string.

Local Abbreviation process_line :=
  (UseChat.process_line Array_prototype_keys JSON_parse uuidv4 Date_now toISOString toLowerCase).
Local Abbreviation for_lines :=
  (UseChat.for_lines Array_prototype_keys JSON_parse uuidv4 Date_now toISOString toLowerCase).
Local Abbreviation on_complete := (UseChat.on_complete Date_now).
Local Abbreviation carries := (UseChat.carries JSON_parse).
Local Abbreviation completed := (UseChat.completed Date_now).

Lemma complete_line sid l m :
  carries "complete" l = true -> process_line sid l m = try_catch (on_complete sid) (fun _ => ret tt) m.
Proof.
  unfold UseChat.carries. intros H.
  destruct (event_of JSON_parse l) as [data|] eqn:He; [|discriminate].
  rewrite process_line_event, He, !try_catch_eq, (handle_complete _ _ _ _ _ _ _ _ H).
  reflexivity.
Qed.

Lemma on_complete_run sid m msg text session :
  final_message m = Some msg -> m_content msg = JString text ->
  List.find (BackendSessions.has_id sid) (BackendSessions.sessions (sessionsStore m)) = Some session ->
  on_complete sid m = Returned (completed sid text m).
Proof.
  intros Hfinal Htext Hfound.
  unfold UseChat.on_complete, updateSession, setTyping.
  unfold bind, modify, gets, ret, return_, new_Date.
  change (final_message (on_chat ChatStore.saveCurrentSession
                           (on_chat (ChatStore.setTyping false) m)))
    with (final_message m).
  rewrite Hfinal, Htext.
  cbn [sessionsStore on_chat].
  rewrite (existsb_find _ _ _ Hfound). reflexivity.
Qed.


(** Whatever the catalog holds, a [complete] event ends the loop when
    the final message holds a text, and it leaves the messages as they
    are. *)
Lemma on_complete_returns sid m :
  text_final m ->
  exists m', on_complete sid m = Returned m' /\
    ChatStore.messages (chatStore m') = ChatStore.messages (chatStore m) /\
    heap m' = heap m /\
    uuid_calls m' = uuid_calls m /\
    ChatStore.isTyping (chatStore m') = false /\
    locals m' = locals m.
Proof.
  intros (msg & text & Hfinal & Htext).
  unfold UseChat.on_complete, updateSession, setTyping.
  unfold bind, modify, gets, ret, return_, new_Date.
  change (final_message (on_chat ChatStore.saveCurrentSession
                           (on_chat (ChatStore.setTyping false) m)))
    with (final_message m).
  rewrite Hfinal, Htext.
  cbn [sessionsStore on_chat].
  destruct (existsb _ _); eexists; split_and!; reflexivity.
Qed.


(** *** The final message while a call streams

    The hypothesis of [complete_event] on the final message holds
    whenever a line is handled inside [sendMessage]: the call appends
    the user's message, a text, before it reads, and no event that lets
    the loop go on puts anything but a text at the end of the list. *)

Lemma text_final_same m m' :
  ChatStore.messages (chatStore m') = ChatStore.messages (chatStore m) ->
  heap m' = heap m ->
  text_final m -> text_final m'.
Proof.
  intros Hm Hh (msg & text & Hf & Ht). exists msg, text. split; [|done].
  unfold final_message in *. by rewrite Hm, Hh.
Qed.

Lemma text_final_write m current x :
  text_final m ->
  text_final (on_heap (alter (with_content (JString x)) current) m).
Proof.
  intros (msg & text & Hf & Ht). unfold text_final, final_message in *.
  cbn [chatStore on_heap heap].
  destruct (last (ChatStore.messages (chatStore m))) as [r|]; [|discriminate].
  destruct (decide (current = r)) as [->|Hne].
  - rewrite list_lookup_alter_eq, Hf. by eexists _, _.
  - rewrite list_lookup_alter_ne by done. by eexists _, _.
Qed.

Lemma text_final_copy m i msgc x :
  text_final m -> m_content msgc = JString x ->
  text_final (on_chat (fun s => ChatStore.set_messages
                                  (<[i := length (heap m)]> (ChatStore.messages s)) s)
                      (on_heap (fun h => h ++ [msgc]) m)).
Proof.
  intros (msg & text & Hf & Ht) Hc. unfold text_final, final_message in *.
  cbn [chatStore on_chat on_heap heap ChatStore.messages ChatStore.set_messages].
  rewrite last_lookup in *. rewrite length_insert, list_lookup_insert.
  case_decide as Hi.
  - exists msgc, x. split; [|done]. by apply list_lookup_middle.
  - destruct (ChatStore.messages (chatStore m) !! pred _) as [r|]; [|discriminate].
    exists msg, text. split; [|done]. by apply lookup_app_l_Some.
Qed.

Lemma handle_event_text_final sid data m :
  text_final m ->
  match UseChat.handle_event Array_prototype_keys uuidv4 Date_now toISOString toLowerCase
                             sid data m with
  | Returned _ => True
  | Normal _ m' | Thrown _ m' => text_final m'
  end.
Proof.
  intros H. unfold UseChat.handle_event.
  rewrite bind_eq. destruct (Get data "type") as [e|type]; [exact H|].
  cbn [lift ret].
  destruct (is_string type "start"); [exact H|].
  destruct (is_string type "action").
  { unfold UseChat.on_action. run; exact H. }
  destruct (is_string type "memory").
  { unfold UseChat.on_memory. run; exact H. }
  destruct (is_string type "response_start").
  { unfold UseChat.on_response_start, text_final, final_message. cbn.
    rewrite last_snoc. eexists _, _. split; [by apply list_lookup_middle | reflexivity]. }
  destruct (is_string type "token").
  { unfold UseChat.on_token, bind, gets, lift, modify, ret, throw, new_Message.
    destruct (currentMessage (locals m)) as [current|]; [|exact H].
    destruct (Get data "content") as [e|content]; [exact H|].
    destruct (ToString content) as [e|text]; [exact H|].
    set (m0 := on_locals _ m).
    set (x := messageContent (locals m0)).
    assert (text_final m0) as H0 by exact H.
    pose proof (text_final_write m0 current x H0) as H1.
    set (m1 := on_heap _ m0) in *.
    destruct (index_of_current current m1) as [i|]; [|exact H1].
    destruct (heap m1 !! current) as [msgc|] eqn:Hc; [|exact H1].
    apply (text_final_copy m1 i msgc x H1).
    unfold m1 in Hc. cbn [heap on_heap] in Hc. rewrite list_lookup_alter_eq in Hc.
    destruct (heap m0 !! current); [|discriminate]. by simplify_eq/=. }
  destruct (is_string type "complete").
  { unfold UseChat.on_complete, updateSession. run; first [exact I | exact H]. }
  destruct (is_string type "error").
  { unfold UseChat.on_error. run; first [exact I | exact H]. }
  exact H.
Qed.

Lemma process_line_text_final sid l m m' :
  text_final m -> process_line sid l m = Normal tt m' -> text_final m'.
Proof.
  intros H. rewrite process_line_event.
  destruct (event_of JSON_parse l) as [data|]; [|by intros [= <-]].
  rewrite try_catch_eq. pose proof (handle_event_text_final sid data m H) as Hd.
  destruct (UseChat.handle_event _ _ _ _ _ sid data m) as [[] m1|m1|e m1];
    [by intros [= <-] | discriminate | by intros [= <-]].
Qed.

Lemma for_lines_text_final sid lines m m' :
  text_final m -> for_lines sid lines m = Normal tt m' -> text_final m'.
Proof.
  revert m. induction lines as [|l lines IH]; intros m H; [by intros [= <-]|].
  cbn [UseChat.for_lines]. rewrite bind_eq.
  destruct (process_line sid l m) as [[] m1| |] eqn:E; [|discriminate..].
  apply IH. by eapply process_line_text_final.
Qed.

(** The machine in which [sendMessage] starts to read the stream. *)
Lemma stream_starts_with_text sid content m m0 :
  UseChat.add_user_message uuidv4 Date_now sid content m = Normal tt m0 ->
  text_final (on_locals (fun _ => mkLocals None EmptyString)
                        (on_chat (ChatStore.setTyping true) m0)).
Proof.
  intros Hadd.
  destruct (SendFacts.add_user_message_inv uuidv4 Date_now sid content m m0 Hadd)
    as (_ & Hheap & Hmsgs & _).
  unfold text_final, final_message. cbn [chatStore on_locals on_chat heap
    ChatStore.messages ChatStore.setTyping].
  rewrite Hmsgs, Hheap, last_snoc. eexists _, _.
  split; [by apply list_lookup_middle | reflexivity].
Qed.

(** The same inside a call.  When the lines [pre] of the stream did not
    end the loop and a [complete] line follows them, the call ends there:
    what the stream holds after that line, and how it ends, does not
    matter, and the machine the call leaves is the one the event leaves,
    with the summary of the session taken from the final message. *)
Lemma sendMessage_complete
      sid content status chunks pre line rest e m m0 m1 session :
  nonempty (trim content) = true ->
  forallb no_LF (pre ++ [line]) = true ->
  carries "complete" line = true ->
  concat_all chunks = unlines (pre ++ [line]) +:+ rest ->
  UseChat.add_user_message uuidv4 Date_now sid content m = Normal tt m0 ->
  for_lines sid pre (on_locals (fun _ => mkLocals None EmptyString)
                               (on_chat (ChatStore.setTyping true) m0)) = Normal tt m1 ->
  List.find (BackendSessions.has_id sid) (BackendSessions.sessions (sessionsStore m1)) = Some session ->
  exists msg text,
    final_message m1 = Some msg /\ m_content msg = JString text /\
    UseChat.sendMessage Array_prototype_keys JSON_parse uuidv4 Date_now toISOString toLowerCase
      sid content (Response true status (Some (mkBody chunks e))) m
    = Normal tt (on_locals (fun _ => locals m) (completed sid text m1)).
Proof.
  intros Hcontent Hlines Hline Htext Hadd Hpre Hfound.
  pose proof (stream_starts_with_text sid content m m0 Hadd) as Hstart.
  destruct (for_lines_text_final sid pre _ m1 Hstart Hpre) as (msg & text & Hfinal & Hmsg).
  exists msg, text. split_and!; [done..|].
  unfold UseChat.sendMessage, call. rewrite Hcontent. cbn [negb].
  rewrite bind_eq, Hadd, try_catch_eq. unfold UseChat.stream_response.
  rewrite bind_eq. unfold setTyping, modify. cbn [negb UseChat.chunks UseChat.ending].
  rewrite bind_eq.
  rewrite read_loop_received by reflexivity.
  rewrite Htext, read_loop_lines by (by apply forallb_Forall).
  rewrite bind_eq, for_lines_app, bind_eq, Hpre.
  cbn [UseChat.for_lines]. rewrite bind_eq, (complete_line _ _ _ Hline), try_catch_eq.
  rewrite (on_complete_run _ _ _ _ _ Hfinal Hmsg Hfound). reflexivity.
Qed.

End Runtime.
End CompleteFacts.

(** ** Tokens without an answer in progress *)

Module EarlyTokenFacts.
Import JsString Js Types UseChat StringFacts StreamFacts HandlerFacts SendFacts.

Section Runtime.
Variable Array_prototype_keys : list string.
Variable JSON_parse : string -> option JSValue.
Variable uuidv4 : nat -> string.
Variable Date_now : nat -> Date.
Variable toISOString : Date -> string.
Variable toLowerCase : string -> string.

Local Abbreviation handle_event :=
  (UseChat.handle_event Array_prototype_keys uuidv4 Date_now toISOString toLowerCase).
Local Abbreviation process_line :=
  (UseChat.process_line Array_prototype_keys JSON_parse uuidv4 Date_now toISOString toLowerCase).
Local Abbreviation for_lines :=
  (UseChat.for_lines Array_prototype_keys JSON_parse uuidv4 Date_now toISOString toLowerCase).
Local Abbreviation sendMessage :=
  (UseChat.sendMessage Array_prototype_keys JSON_parse uuidv4 Date_now toISOString toLowerCase).
Local Abbreviation carries := (UseChat.carries JSON_parse).

Lemma on_token_no_current data m :
  currentMessage (locals m) = None -> on_token data m = Normal tt m.
Proof. intros H. unfold on_token, bind, gets. by rewrite H. Qed.

(** A line that does not start an answer leaves [currentMessage] null. *)
Lemma process_line_no_current sid l m m1 :
  currentMessage (locals m) = None ->
  carries "response_start" l = false ->
  process_line sid l m = Normal tt m1 ->
  currentMessage (locals m1) = None.
Proof.
  intros Hcur Hl. rewrite process_line_event. unfold UseChat.carries in Hl.
  destruct (event_of JSON_parse l) as [data|]; [|by intros [= <-]].
  pose proof (handle_event_locals Array_prototype_keys uuidv4 Date_now toISOString toLowerCase sid data m Hl Hcur)
    as Hlocals.
  rewrite try_catch_eq.
  destruct (handle_event sid data m) as [[] m2|m2|e m2]; cbn [machine_of] in Hlocals;
    [intros [= <-] | discriminate | intros [= <-]]; by rewrite Hlocals.
Qed.

Lemma for_lines_no_current sid pre m m1 :
  currentMessage (locals m) = None ->
  forallb (fun l => negb (carries "response_start" l)) pre = true ->
  for_lines sid pre m = Normal tt m1 ->
  currentMessage (locals m1) = None.
Proof.
  revert m. induction pre as [|l pre IH]; intros m Hcur Hpre; [by intros [= <-]|].
  cbn [forallb] in Hpre. apply andb_true_iff in Hpre as [Hl Hpre].
  apply negb_true_iff in Hl.
  cbn [UseChat.for_lines]. rewrite bind_eq.
  destruct (process_line sid l m) as [[] m2| |] eqn:E; [|discriminate..].
  apply IH; [|done]. by eapply process_line_no_current.
Qed.

(** A [token] line handled while no message is in progress. *)
Lemma process_early_token sid pre tok m m1 :
  currentMessage (locals m) = None ->
  forallb (fun l => negb (carries "response_start" l)) pre = true ->
  carries "token" tok = true ->
  for_lines sid pre m = Normal tt m1 ->
  process_line sid tok m1 = Normal tt m1.
Proof.
  intros Hcur Hpre Htok Hrun.
  pose proof (for_lines_no_current sid pre m m1 Hcur Hpre Hrun) as Hcur1.
  unfold UseChat.carries in Htok.
  destruct (event_of JSON_parse tok) as [data|] eqn:He; [|discriminate].
  rewrite process_line_event, He, try_catch_eq,
    (handle_token _ _ _ _ _ _ _ _ Htok), (on_token_no_current _ _ Hcur1).
  reflexivity.
Qed.

(** C10.  In a stream that has not yet delivered a [response_start]
    event (the lines [pre] handled so far carry none, and no message was
    in progress before them), a [token] event changes nothing: the machine
    after the line is the machine before it, and the line ends normally.
    For the whole call: the answer to a stream with such a token is the
    answer to the stream without it. *)
Theorem early_token_is_ignored sid pre tok :
  forallb (fun l => negb (carries "response_start" l)) pre = true ->
  carries "token" tok = true ->
  (forall m m1,
      currentMessage (locals m) = None ->
      for_lines sid pre m = Normal tt m1 ->
      process_line sid tok m1 = Normal tt m1) /\
  (forall content status chunks chunks' rest e m,
      forallb no_LF pre = true -> no_LF tok = true ->
      concat_all chunks = unlines (pre ++ [tok]) +:+ rest ->
      concat_all chunks' = unlines pre +:+ rest ->
      sendMessage sid content (Response true status (Some (mkBody chunks e))) m =
      sendMessage sid content (Response true status (Some (mkBody chunks' e))) m).
Proof.
  intros Hnone Htok. split.
  - intros m m1 Hcur Hrun. by eapply process_early_token.
  - intros content status chunks chunks' rest e m Hpre Hline Hc Hc'.
    eapply sendMessage_skip_line; eauto.
    intros m0 m1 Hm0 Hrun. eapply process_early_token; eauto. by rewrite Hm0.
Qed.

End Runtime.
End EarlyTokenFacts.

(** ** The sessions store *)

Module SessionFacts.
Import JsString Js Types BackendSessions.

Lemma update_found_lookup {A} (p : A -> bool) (f : A -> A) (l : list A) j x :
  l !! j = Some x ->
  LocalSessions.update_found p f l !! j = Some x \/
  (p x = true /\ LocalSessions.update_found p f l !! j = Some (f x)).
Proof.
  revert j. induction l as [|a l IH]; intros j Hj; [discriminate|].
  cbn [LocalSessions.update_found]. destruct (p a) eqn:Ha.
  - destruct j as [|j]; [|by left]. cbn in Hj. simplify_eq. right. by split.
  - destruct j as [|j]; [by left|]. apply (IH j Hj).
Qed.

(** One call and the title of one session: it stays, or it was the
    default, the message is not blank, and it becomes the derived one. *)
Lemma title_after_update sid msg now st j s :
  sessions st !! j = Some s ->
  exists s',
    sessions (updateSessionFromMessage sid msg now st) !! j = Some s' /\
    (title s' = title s \/
     (title s = "New Chat" /\ nonempty (trim msg) = true /\ has_id sid s = true /\
      title s' = derive_title msg)).
Proof.
  intros Hj. unfold updateSessionFromMessage. cbn [sessions set_sessions].
  destruct (update_found_lookup (has_id sid)
              (fun session =>
                 let session := touch msg now session in
                 if String.eqb (title session) "New Chat" && nonempty (trim msg)
                 then set_title (derive_title msg) session else session)
              (sessions st) j s Hj) as [H|[Hid H]].
  - exists s. split; [exact H | by left].
  - eexists. split; [exact H|]. cbn zeta.
    change (title (touch msg now s)) with (title s).
    destruct (String.eqb (title s) "New Chat") eqn:Ht; [|by left].
    destruct (nonempty (trim msg)) eqn:Hm; [|by left].
    right. apply String.eqb_eq in Ht. by split_and!.
Qed.

Lemma title_at_step c st j :
  title_at j (step c st) = title_at j st \/
  (title_at j st = Some "New Chat" /\ title_at j (step c st) <> None).
Proof.
  unfold title_at, step.
  destruct (sessions st !! j) as [s|] eqn:Hj.
  - destruct (title_after_update (c_sessionId c) (c_message c) (c_now c) st j s Hj)
      as (s' & -> & [Ht|(Ht & _)]); cbn.
    + left. by rewrite Ht.
    + right. by rewrite Ht.
  - left. cbn. unfold updateSessionFromMessage. cbn [sessions set_sessions].
    assert (forall (l : list ChatSession) f, l !! j = None ->
              LocalSessions.update_found (has_id (c_sessionId c)) f l !! j = None) as Hnone.
    { clear. intros l f. revert j. induction l as [|a l IH]; intros j Hj; [done|].
      cbn [LocalSessions.update_found]. destruct j as [|j]; [discriminate|].
      destruct (has_id _ a); [exact Hj | apply (IH j Hj)]. }
    by rewrite Hnone.
Qed.

Lemma history_head calls st : exists rest, history calls st = st :: rest.
Proof. destruct calls; cbn; eauto. Qed.

(** A title that is not the default never changes again. *)
Lemma settled_title_stays calls st j :
  title_at j st <> Some "New Chat" ->
  count_changes (map (title_at j) (history calls st)) = 0.
Proof.
  revert st. induction calls as [|c calls IH]; intros st Hst; [reflexivity|].
  cbn [history]. destruct (title_at_step c st j) as [Heq|[Hdef _]]; [|done].
  specialize (IH (step c st)). rewrite Heq in IH. specialize (IH Hst).
  destruct (history_head calls (step c st)) as [rest Hh]. rewrite Hh in *.
  cbn [map count_changes] in *. rewrite Heq in IH |- *.
  rewrite decide_True by done. exact IH.
Qed.

Lemma changes_at_most_once calls st j :
  count_changes (map (title_at j) (history calls st)) <= 1.
Proof.
  revert st. induction calls as [|c calls IH]; intros st; [cbn; lia|].
  cbn [history].
  pose proof (IH (step c st)) as IH1.
  pose proof (settled_title_stays calls (step c st) j) as Hsettled.
  destruct (history_head calls (step c st)) as [rest Hh]. rewrite Hh in *.
  cbn [map count_changes] in *.
  case_decide as Ht; [lia|].
  destruct (title_at_step c st j) as [Heq|[Hdef Hsome]]; [congruence|].
  rewrite Hsettled; [lia|].
  intros Hnew. apply Ht. by rewrite Hdef, Hnew.
Qed.

(** C3.  [updateSessionFromMessage] changes the title of a session only
    when that title is still ["New Chat"] and the message is not blank; a
    title that is not ["New Chat"] is left as it is; and along any
    sequence of calls the title of a session changes at most once. *)
Theorem title_changes_at_most_once :
  (forall sid msg now st j s,
      sessions st !! j = Some s ->
      exists s',
        sessions (updateSessionFromMessage sid msg now st) !! j = Some s' /\
        (title s' <> title s -> title s = "New Chat" /\ nonempty (trim msg) = true) /\
        (title s <> "New Chat" -> title s' = title s)) /\
  (forall calls st j, count_changes (map (title_at j) (history calls st)) <= 1).
Proof.
  split; [|apply changes_at_most_once].
  intros sid msg now st j s Hj.
  destruct (title_after_update sid msg now st j s Hj) as (s' & Hs' & Ht).
  exists s'. split_and!; [done | |]; destruct Ht as [Ht|(Ht & Hm & _)]; done.
Qed.

(** The store kept in local storage guards its title rule,
    [updateSessionTitle], in the same way: a session whose title is not
    the default is left as it is. *)
Lemma updateSessionTitle_keeps_settled_title toUpperCase sid firstMessage st j s :
  LocalSessions.sessions st !! j = Some s ->
  LocalSessions.title s <> "New Chat" ->
  LocalSessions.sessions (LocalSessions.updateSessionTitle toUpperCase sid firstMessage st) !! j
  = Some s.
Proof.
  intros Hj Ht. unfold LocalSessions.updateSessionTitle. cbn [LocalSessions.sessions].
  destruct (update_found_lookup (LocalSessions.has_id sid)
              (fun session =>
                 if String.eqb (LocalSessions.title session) "New Chat"
                 then LocalSessions.set_title
                        (LocalSessions.derive_title toUpperCase firstMessage) session
                 else session)
              (LocalSessions.sessions st) j s Hj) as [H|[_ H]]; [exact H|].
  rewrite H. apply String.eqb_neq in Ht. by rewrite Ht.
Qed.

(** *** Deleting a session *)

(** C7.  With a single session in the catalog [deleteSession] changes
    nothing and answers [false].  With two or more it answers [true] and
    removes the session whatever the remote request did: the result does
    not depend on it, every other session stays, and no session with the
    deleted id is left (the id generator yielding a new id). *)
Theorem delete_session_local_first :
  (forall uuid now remote sid st,
      length (sessions st) = 1 ->
      deleteSession uuid now remote sid st = (false, st)) /\
  (forall uuid now remote sid st,
      2 <= length (sessions st) ->
      exists st',
        deleteSession uuid now remote sid st = (true, st') /\
        deleteSession uuid now Rejected sid st = deleteSession uuid now (Answered true) sid st /\
        (forall s, s ∈ sessions st -> has_id sid s = false -> s ∈ sessions st') /\
        (uuid <> sid -> forall s, s ∈ sessions st' -> has_id sid s = false)).
Proof.
  split.
  - intros uuid now remote sid st Hlen. unfold deleteSession. by rewrite Hlen.
  - intros uuid now remote sid st Hlen. unfold deleteSession.
    destruct (Nat.leb (length (sessions st)) 1) eqn:Hle;
      [apply Nat.leb_le in Hle; lia|].
    eexists. split; [reflexivity|]. split; [reflexivity|].
    assert (match remote with Answered _ => st | Rejected => st end = st) as ->
      by (by destruct remote).
    set (kept := List.filter (fun s => negb (has_id sid s)) (sessions st)).
    cbn [sessions set_sessions currentSessionId].
    assert (forall s, s ∈ kept <-> s ∈ sessions st /\ has_id sid s = false) as Hkept.
    { intros s. unfold kept. rewrite !list_elem_of_In, filter_In, negb_true_iff. done. }
    split.
    + intros s Hs Hid. assert (s ∈ kept) as Hk by (by apply Hkept).
      destruct (String.eqb (currentSessionId st) sid); [|exact Hk].
      fold kept. destruct kept as [|first ?] eqn:E; [by apply elem_of_nil in Hk|].
      cbn. exact Hk.
    + intros Hne s Hs.
      destruct (String.eqb (currentSessionId st) sid); [|by apply Hkept].
      fold kept in Hs. destruct kept as [|first ?] eqn:E.
      * cbn in Hs. apply list_elem_of_singleton in Hs. subst s.
        unfold has_id. cbn. by apply String.eqb_neq.
      * cbn in Hs. by apply Hkept.
Qed.

End SessionFacts.

(** ** Memory updates *)

Module MemoryFacts.
Import JsString Js Types.

Lemma lookup_prop_None k (props : list (string * JSValue)) :
  lookup_prop k props = None <-> k ∉ props.*1.
Proof.
  induction props as [|[k' v] props IH]; cbn [lookup_prop fmap list_fmap].
  - split; [intros _; apply not_elem_of_nil | done].
  - rewrite not_elem_of_cons, <- IH.
    destruct (lookup_prop k props); [split; [done | intros [_ ?]; done]|].
    destruct (String.eqb k k') eqn:E.
    + apply String.eqb_eq in E. split; [done | intros [? _]; done].
    + apply String.eqb_neq in E. done.
Qed.

Lemma lookup_prop_Some k v (props : list (string * JSValue)) :
  lookup_prop k props = Some v -> k ∈ props.*1.
Proof.
  intros H. destruct (decide (k ∈ props.*1)) as [|Hn]; [done|].
  apply lookup_prop_None in Hn. congruence.
Qed.

(** *** Writes *)

Lemma set_prototype_own (o : Obj) v : own (set_prototype o v) = own o.
Proof. by destruct v. Qed.

Lemma set_property_other (o : Obj) k k' v :
  k <> k' -> own (set_property o k' v) !! k = own o !! k.
Proof.
  intros Hne. unfold set_property. destruct (_ && _).
  - by rewrite set_prototype_own.
  - cbn. by rewrite lookup_insert_ne.
Qed.

(** A write to a key other than [__proto__] makes or changes a property
    of the object itself. *)
Lemma set_property_same (o : Obj) k v :
  k <> "__proto__" -> set_property o k v = set_own o k v.
Proof.
  intros Hne. unfold set_property. apply String.eqb_neq in Hne. by rewrite Hne.
Qed.



Section Engine.
Variable Array_prototype_keys : list string.

Local Abbreviation has_property := (Js.has_property Array_prototype_keys).
Local Abbreviation setFromMemoryUpdates :=
  (PreferencesStore.setFromMemoryUpdates Array_prototype_keys).


(** A write to another key than [__proto__] and than [k] leaves [k in o]
    as it is. *)
Lemma has_property_set_other (o : Obj) k k' v :
  k' <> "__proto__" -> k' <> k ->
  has_property (set_property o k' v) k = has_property o k.
Proof.
  intros Hp Hne. rewrite set_property_same by done.
  unfold Js.has_property, set_own. cbn. by rewrite lookup_insert_ne.
Qed.

Section Fold.
Variable updates : list (string * JSValue).

Local Abbreviation assign_key :=
  (PreferencesStore.assign_key Array_prototype_keys updates).

Lemma assign_keys_other keys (p : Obj) k :
  k ∉ keys -> own (fold_left assign_key keys p) !! k = own p !! k.
Proof.
  revert p. induction keys as [|key keys IH]; intros p Hk; [done|].
  apply not_elem_of_cons in Hk as [Hne Hk]. cbn [fold_left].
  rewrite (IH _ Hk). unfold PreferencesStore.assign_key, PreferencesStore.updatePreference.
  destruct (has_property p key); [by apply set_property_other | done].
Qed.




End Fold.

Lemma has_property_false (o : Obj) k : has_property o k = false -> own o !! k = None.
Proof. unfold Js.has_property. by destruct (own o !! k). Qed.

Lemma Object_assign_other (updates : list (string * JSValue)) (o : Obj) k :
  lookup_prop k updates = None -> own (Object_assign o updates) !! k = own o !! k.
Proof.
  unfold Object_assign. revert o.
  induction updates as [|[k' v] updates IH]; intros o Hk; [done|].
  cbn [lookup_prop] in Hk. destruct (lookup_prop k updates) eqn:E; [discriminate|].
  destruct (String.eqb k k') eqn:Ek; [discriminate|]. apply String.eqb_neq in Ek.
  cbn [fold_left]. rewrite (IH _ eq_refl). by apply set_property_other.
Qed.

Lemma Object_assign_same (updates : list (string * JSValue)) (o : Obj) k v :
  lookup_prop k updates = Some v -> k <> "__proto__" ->
  own (Object_assign o updates) !! k = Some v.
Proof.
  intros Hk Hne. revert o Hk.
  induction updates as [|[k' v'] updates IH]; intros o Hk; [discriminate|].
  cbn [lookup_prop] in Hk.
  change (Object_assign o ((k', v') :: updates))
    with (Object_assign (set_property o k' v') updates).
  destruct (lookup_prop k updates) eqn:E.
  - apply IH. by simplify_eq.
  - destruct (String.eqb k k') eqn:Ek; [|discriminate].
    apply String.eqb_eq in Ek. simplify_eq.
    rewrite (Object_assign_other _ _ _ E), set_property_same by done.
    cbn. apply lookup_insert_eq.
Qed.


End Engine.


End MemoryFacts.

(** ** The typing indicator at the end of a call *)

Module TypingFacts.
Import JsString Js Types UseChat StringFacts StreamFacts HandlerFacts SendFacts.

Section Runtime.
Variable Array_prototype_keys : list string.
Variable JSON_parse : string -> option JSValue.
Variable uuidv4 : nat -> string.
Variable Date_now : nat -> Date.
Variable toISOString : Date -> string.
Variable toLowerCase : string -> string.

Local Abbreviation stream_response :=
  (UseChat.stream_response Array_prototype_keys JSON_parse uuidv4 Date_now toISOString toLowerCase).
Local Abbreviation sendMessage :=
  (UseChat.sendMessage Array_prototype_keys JSON_parse uuidv4 Date_now toISOString toLowerCase).
Local Abbreviation on_error := (UseChat.on_error uuidv4 Date_now).

(** C2 (where the code departs from it).  In a chat that holds two
    messages or more, when the answer is accepted and its body signals
    the end of the data at the first read, the call ends normally with
    the typing indicator still set: this path sets it before the request
    and has nothing that clears it. *)
Theorem end_of_data_leaves_typing sid content status m :
  2 <= length (ChatStore.messages (chatStore m)) ->
  nonempty (trim content) = true ->
  exists m',
    sendMessage sid content (Response true status (Some (mkBody [] EndOfData))) m
      = Normal tt m' /\
    ChatStore.isTyping (chatStore m') = true.
Proof.
  intros Hlen Hcontent. unfold UseChat.sendMessage, call. rewrite Hcontent. cbn [negb].
  rewrite bind_eq.
  destruct (add_user_message_effect uuidv4 Date_now sid content m Hlen) as (m0 & -> & _).
  eexists. split; reflexivity.
Qed.

(** The sibling paths do clear it.  A request that fails, is refused, or
    has no body goes through the [catch] block. *)
Lemma failed_request_clears_typing sid content response m :
  2 <= length (ChatStore.messages (chatStore m)) ->
  nonempty (trim content) = true ->
  (response = NetworkError \/
   (exists status body, response = Response false status body) \/
   (exists status, response = Response true status None)) ->
  exists m', sendMessage sid content response m = Normal tt m' /\
             ChatStore.isTyping (chatStore m') = false.
Proof.
  intros Hlen Hcontent Hresp. unfold UseChat.sendMessage, call. rewrite Hcontent. cbn [negb].
  rewrite bind_eq.
  destruct (add_user_message_effect uuidv4 Date_now sid content m Hlen) as (m0 & -> & _).
  destruct Hresp as [->|[(status & body & ->)|(status & ->)]];
    eexists; split; reflexivity.
Qed.

(** A read that fails before any event ended the loop, as well. *)
Lemma failed_read_clears_typing sid content status m :
  2 <= length (ChatStore.messages (chatStore m)) ->
  nonempty (trim content) = true ->
  exists m',
    sendMessage sid content (Response true status (Some (mkBody [] ReadError))) m
      = Normal tt m' /\
    ChatStore.isTyping (chatStore m') = false.
Proof.
  intros Hlen Hcontent. unfold UseChat.sendMessage, call. rewrite Hcontent. cbn [negb].
  rewrite bind_eq.
  destruct (add_user_message_effect uuidv4 Date_now sid content m Hlen) as (m0 & -> & _).
  eexists. split; reflexivity.
Qed.

(** An [error] event clears it and ends the loop. *)
Lemma error_event_clears_typing data m :
  exists c, on_error data m = c /\
            match c with
            | Returned m' => ChatStore.isTyping (chatStore m') = false
            | Thrown _ m' => m' = m
            | Normal _ _ => False
            end.
Proof.
  eexists. split; [reflexivity|].
  unfold UseChat.on_error, bind, lift. destruct (Get data "message"); reflexivity.
Qed.

End Runtime.
End TypingFacts.

(** * Further properties of the embedding *)

(** ** Text *)

Module TextFacts.
Import JsString StringFacts.

Lemma trimStart_idem s : trimStart (trimStart s) = trimStart s.
Proof.
  induction s as [|c r IH]; [done|]. cbn.
  destruct (is_space c) eqn:E; [done|]. cbn. by rewrite E.
Qed.

Lemma trimEnd_nil_inv c r :
  trimEnd (String c r) = EmptyString -> is_space c = true /\ trimEnd r = EmptyString.
Proof.
  cbn. destruct (trimEnd r); [|discriminate]. by destruct (is_space c).
Qed.

Lemma trimEnd_cons c r c' r' :
  trimEnd r = String c' r' -> trimEnd (String c r) = String c (String c' r').
Proof. intros E. cbn. by rewrite E. Qed.

Lemma trimEnd_idem s : trimEnd (trimEnd s) = trimEnd s.
Proof.
  induction s as [|c r IH]; [done|].
  destruct (trimEnd r) as [|c' r'] eqn:E.
  - cbn. rewrite E. destruct (is_space c) eqn:Ec; [done|]. cbn. by rewrite Ec.
  - rewrite (trimEnd_cons c r c' r' E). by apply trimEnd_cons.
Qed.

Lemma trimStart_trimEnd s : trimStart (trimEnd s) = trimEnd (trimStart s).
Proof.
  induction s as [|c r IH]; [done|].
  cbn [trimStart]. destruct (is_space c) eqn:Ec.
  - rewrite <- IH. cbn [trimEnd]. destruct (trimEnd r) as [|c' r'] eqn:E.
    + by rewrite Ec.
    + cbn [trimStart]. by rewrite Ec.
  - cbn [trimEnd]. destruct (trimEnd r) as [|c' r'] eqn:E.
    + rewrite Ec. cbn. by rewrite Ec.
    + cbn [trimStart]. by rewrite Ec.
Qed.

Lemma trim_idem s : trim (trim s) = trim s.
Proof.
  unfold trim. by rewrite trimStart_trimEnd, trimEnd_idem, trimStart_idem.
Qed.

(** The text [trim] yields neither begins nor ends with white space. *)
Lemma trimStart_head s c r : trimStart s = String c r -> is_space c = false.
Proof.
  induction s as [|c' r' IH]; [done|]. cbn.
  destruct (is_space c') eqn:E; [done|]. by intros [= <- _].
Qed.

Lemma length_append (a b : string) :
  String.length (a +:+ b) = String.length a + String.length b.
Proof. induction a as [|c a IH]; [done|]. rewrite append_cons. cbn. by rewrite IH. Qed.

Lemma length_substring0 n s : String.length (substring0 n s) = Nat.min n (String.length s).
Proof.
  unfold substring0. revert n. induction s as [|c s IH]; intros [|n]; cbn; try done.
  by rewrite IH.
Qed.

Lemma length_map_string f s : String.length (map_string f s) = String.length s.
Proof. induction s as [|c s IH]; [done|]. cbn. by rewrite IH. Qed.

End TextFacts.

(** ** What [sendMessage] keeps, whatever the stream holds *)

Module FrameFacts.
Import JsString Js Types UseChat StringFacts StreamFacts HandlerFacts SendFacts Frames.

Section Runtime.
Variable Array_prototype_keys : list string.
Variable JSON_parse : string -> option JSValue.
Variable uuidv4 : nat -> string.
Variable Date_now : nat -> Date.
Variable toISOString : Date -> string.
Variable toLowerCase : string -> string.

Local Abbreviation handle_event :=
  (UseChat.handle_event Array_prototype_keys uuidv4 Date_now toISOString toLowerCase).
Local Abbreviation process_line :=
  (UseChat.process_line Array_prototype_keys JSON_parse uuidv4 Date_now toISOString toLowerCase).
Local Abbreviation for_lines :=
  (UseChat.for_lines Array_prototype_keys JSON_parse uuidv4 Date_now toISOString toLowerCase).
Local Abbreviation read_loop :=
  (UseChat.read_loop Array_prototype_keys JSON_parse uuidv4 Date_now toISOString toLowerCase).
Local Abbreviation stream_response :=
  (UseChat.stream_response Array_prototype_keys JSON_parse uuidv4 Date_now toISOString toLowerCase).
Local Abbreviation add_user_message :=
  (UseChat.add_user_message uuidv4 Date_now).
Local Abbreviation report_failure := (UseChat.report_failure uuidv4 Date_now).
Local Abbreviation sendMessage :=
  (UseChat.sendMessage Array_prototype_keys JSON_parse uuidv4 Date_now toISOString toLowerCase).

(** A property of the machine that every handler keeps is kept by the
    loop over the lines, by the loop over the reads, and by the call. *)
Section Kept.
Variable P : Machine -> Prop.
Variable sid : string.
Hypothesis kept_by_locals : forall f m, P m -> P (on_locals f m).
Hypothesis kept_by_typing : forall b m, P m -> P (on_chat (ChatStore.setTyping b) m).
Hypothesis kept_by_event : forall data m, P m -> P (machine_of (handle_event sid data m)).
Hypothesis kept_by_failure : forall e m, P m -> P (machine_of (report_failure e m)).

Lemma process_line_keeps line m : P m -> P (machine_of (process_line sid line m)).
Proof.
  intros H. rewrite process_line_event.
  destruct (event_of JSON_parse line) as [data|]; [|exact H].
  rewrite try_catch_eq. pose proof (kept_by_event data m H) as Hd.
  by destruct (UseChat.handle_event _ _ _ _ _ sid data m).
Qed.

Lemma for_lines_keeps lines m : P m -> P (machine_of (for_lines sid lines m)).
Proof.
  revert m. induction lines as [|l lines IH]; intros m H; [exact H|].
  cbn [UseChat.for_lines]. rewrite bind_eq.
  pose proof (process_line_keeps l m H) as Hl.
  destruct (process_line sid l m) as [[] m1|m1|e m1]; [by apply IH|exact Hl..].
Qed.

Lemma read_loop_keeps chunks e buffer m :
  P m -> P (machine_of (read_loop sid chunks e buffer m)).
Proof.
  revert buffer m. induction chunks as [|c chunks IH]; intros buffer m H.
  - cbn. by destruct e.
  - cbn [UseChat.read_loop]. unfold pop. rewrite bind_eq.
    pose proof (for_lines_keeps (removelast (split_lines (buffer +:+ c))) m H) as Hl.
    destruct (for_lines sid _ m) as [[] m1|m1|e1 m1]; [by apply IH|exact Hl..].
Qed.

Lemma stream_keeps response m :
  P m -> P (machine_of (try_catch (stream_response sid response) report_failure m)).
Proof.
  intros H. rewrite try_catch_eq. unfold UseChat.stream_response.
  rewrite bind_eq. unfold setTyping, modify.
  pose proof (kept_by_typing true m H) as H1.
  destruct response as [|ok status body].
  { unfold throw. cbv beta iota. by apply kept_by_failure. }
  destruct ok; cbn [negb]; [|unfold throw; cbv beta iota; by apply kept_by_failure].
  destruct body as [reader|]; [|unfold throw; cbv beta iota; by apply kept_by_failure].
  cbv beta iota. rewrite bind_eq.
  pose proof (read_loop_keeps (chunks reader) (ending reader) EmptyString _
                (kept_by_locals (fun _ => mkLocals None EmptyString) _ H1)) as H2.
  destruct (read_loop sid _ _ _ _) as [[] m1|m1|e1 m1]; [exact H2..|].
  by apply kept_by_failure.
Qed.

Lemma sendMessage_keeps content response m :
  P m ->
  (nonempty (trim content) = true -> P (machine_of (add_user_message sid content m))) ->
  P (machine_of (sendMessage sid content response m)).
Proof.
  intros H Hadd. unfold UseChat.sendMessage, call.
  destruct (nonempty (trim content)); cbn [negb].
  - rewrite bind_eq. specialize (Hadd eq_refl).
    destruct (add_user_message sid content m) as [[] m0|m0|e0 m0]; cbn in Hadd.
    + pose proof (stream_keeps response m0 Hadd) as Hs.
      destruct (try_catch _ _ m0) as [[] m1|m1|e1 m1]; cbn; by apply kept_by_locals.
    + cbn. by apply kept_by_locals.
    + cbn. by apply kept_by_locals.
  - cbn. by apply kept_by_locals.
Qed.
End Kept.

(** *** The catalog *)

(** An event changes the catalog by at most one [updateSession] that
    carries a summary and a count, and no title. *)
Lemma handle_event_catalog sid data m :
  sessionsStore (machine_of (handle_event sid data m)) = sessionsStore m \/
  exists p c now,
    sessionsStore (machine_of (handle_event sid data m))
    = BackendSessions.updateSession sid (summary p c) now (sessionsStore m).
Proof.
  unfold UseChat.handle_event. rewrite bind_eq.
  destruct (Get data "type") as [e|type]; [by left|]. cbn [lift ret].
  destruct (is_string type "start"); [by left|].
  destruct (is_string type "action").
  { unfold UseChat.on_action. run; by left. }
  destruct (is_string type "memory").
  { unfold UseChat.on_memory. run; by left. }
  destruct (is_string type "response_start"); [by left|].
  destruct (is_string type "token").
  { unfold UseChat.on_token. run; by left. }
  destruct (is_string type "complete").
  { unfold UseChat.on_complete, updateSession. run;
      first [by left | right; eexists _, _, _; reflexivity]. }
  destruct (is_string type "error").
  { unfold UseChat.on_error. run; by left. }
  by left.
Qed.

Lemma report_failure_catalog e m :
  sessionsStore (machine_of (report_failure e m)) = sessionsStore m.
Proof. reflexivity. Qed.

(** The part before [try] changes the catalog by at most one
    [updateSession] of the same kind. *)
Lemma add_user_message_catalog sid content m :
  sessionsStore (machine_of (add_user_message sid content m)) = sessionsStore m \/
  exists p c now,
    sessionsStore (machine_of (add_user_message sid content m))
    = BackendSessions.updateSession sid (summary p c) now (sessionsStore m).
Proof.
  unfold UseChat.add_user_message, updateSession.
  unfold addMessage, bind, modify, gets, new_uuid, new_Date, new_Message, ret, throw.
  cbn -[Nat.leb]. unfold ChatStore.messageCount. cbn -[Nat.leb].
  destruct (Nat.leb _ 2); [by left|].
  cbn. destruct (existsb _ _); cbn; [right; eexists _, _, _; reflexivity | by left].
Qed.

Lemma update_found_ids {A B} (p : A -> bool) (f : A -> A) (g : A -> B) (l : list A) :
  (forall x, g (f x) = g x) ->
  map g (LocalSessions.update_found p f l) = map g l.
Proof.
  intros Hf. induction l as [|x l IH]; [done|]. cbn.
  destruct (p x); cbn; by rewrite ?Hf, ?IH.
Qed.

Lemma update_found_others {A} (p : A -> bool) (f : A -> A) (l : list A) j x :
  l !! j = Some x -> p x = false -> LocalSessions.update_found p f l !! j = Some x.
Proof.
  intros Hl Hp.
  destruct (SessionFacts.update_found_lookup p f l j x Hl) as [H|[H _]]; [done|congruence].
Qed.

Lemma own_entry_only_refl sid st : own_entry_only sid st st.
Proof. by split_and!. Qed.

Lemma own_entry_only_updateSession sid st0 st p c now :
  own_entry_only sid st0 st ->
  own_entry_only sid st0 (BackendSessions.updateSession sid (summary p c) now st).
Proof.
  intros (Hc & Hl & He & Hids & Hothers). split_and!; cbn.
  - done.
  - done.
  - done.
  - by rewrite update_found_ids.
  - intros j s Hj Hs. apply update_found_others; [by apply Hothers|done].
Qed.

(** Whatever the response is, the call leaves the catalog with the
    sessions it had: the call, with the machine it ends in. *)
Lemma sendMessage_catalog sid content response m :
  own_entry_only sid (sessionsStore m)
                 (sessionsStore (machine_of (sendMessage sid content response m))).
Proof.
  apply (sendMessage_keeps (fun m' => own_entry_only sid (sessionsStore m) (sessionsStore m'))).
  - done.
  - done.
  - intros data m1 H.
    destruct (handle_event_catalog sid data m1) as [->|(p & c & now & ->)];
      [done|by apply own_entry_only_updateSession].
  - done.
  - apply own_entry_only_refl.
  - intros _.
    destruct (add_user_message_catalog sid content m) as [->|(p & c & now & ->)];
      [apply own_entry_only_refl|apply own_entry_only_updateSession, own_entry_only_refl].
Qed.

Lemma sendMessage_keeps_sent (P : Machine -> Prop) sid content response m :
  (forall f m, P m -> P (on_locals f m)) ->
  (forall b m, P m -> P (on_chat (ChatStore.setTyping b) m)) ->
  (forall data m, P m -> P (machine_of (handle_event sid data m))) ->
  (forall e m, P m -> P (machine_of (report_failure e m))) ->
  nonempty (trim content) = true ->
  P (machine_of (add_user_message sid content m)) ->
  P (machine_of (sendMessage sid content response m)).
Proof.
  intros Hl Ht He Hf Hc Hadd. unfold UseChat.sendMessage, call. rewrite Hc. cbn [negb].
  rewrite bind_eq.
  destruct (add_user_message sid content m) as [[] m0|m0|e0 m0]; cbn in Hadd.
  - pose proof (stream_keeps P sid Hl Ht He Hf response m0 Hadd) as Hs.
    destruct (try_catch _ _ m0) as [[] m1|m1|e1 m1]; cbn; by apply Hl.
  - cbn. by apply Hl.
  - cbn. by apply Hl.
Qed.

Lemma same_sessions (st st' : BackendSessions.Store) sid :
  own_entry_only sid st st' ->
  existsb (BackendSessions.has_id sid) (BackendSessions.sessions st) = false ->
  st' = st.
Proof.
  intros (Hc & Hl & He & Hids & Hothers) Hnone.
  assert (BackendSessions.sessions st' = BackendSessions.sessions st) as Hs.
  { apply list_eq. intros j.
    destruct (BackendSessions.sessions st !! j) as [s|] eqn:Hj.
    - apply Hothers; [done|].
      destruct (BackendSessions.has_id sid s) eqn:Hs; [|done].
      assert (existsb (BackendSessions.has_id sid) (BackendSessions.sessions st) = true) as Hex.
      { apply existsb_exists. exists s. split; [|done].
        apply list_elem_of_In. by eapply list_elem_of_lookup_2. }
      congruence.
    - apply lookup_ge_None in Hj. apply lookup_ge_None.
      apply (f_equal length) in Hids. rewrite !length_map in Hids. lia. }
  destruct st, st'. cbn in *. congruence.
Qed.

(** X1.  Whatever the response is, and whether the call of
    [sendMessage] returns or rejects, it leaves the catalog with the same
    sessions in the same order, the same ids, the same current session,
    loading flag and error; only a session with the id of the call can
    have changed.
    When no session has that id, the catalog is exactly as it was. *)
Theorem sendMessage_touches_its_session_only sid content response m :
  own_entry_only sid (sessionsStore m)
                 (sessionsStore (machine_of (sendMessage sid content response m))) /\
  (existsb (BackendSessions.has_id sid) (BackendSessions.sessions (sessionsStore m)) = false ->
   sessionsStore (machine_of (sendMessage sid content response m)) = sessionsStore m).
Proof.
  pose proof (sendMessage_catalog sid content response m) as H.
  split; [exact H|].
  intros Hnone. by eapply same_sessions.
Qed.

(** *** Titles *)

Lemma updateSession_titles sid p c now st :
  map BackendSessions.title
      (BackendSessions.sessions (BackendSessions.updateSession sid (summary p c) now st))
  = map BackendSessions.title (BackendSessions.sessions st).
Proof. unfold BackendSessions.updateSession. cbn. by apply update_found_ids. Qed.

(** X2.  Later messages leave the titles alone: when the chat already
    holds two messages or more, a call of [sendMessage] returns and
    leaves every title of the catalog as it was, whatever the content
    and the response are. *)
Theorem later_messages_keep_the_title sid content response m :
  2 <= length (ChatStore.messages (chatStore m)) ->
  exists m',
    sendMessage sid content response m = Normal tt m' /\
    map BackendSessions.title (BackendSessions.sessions (sessionsStore m'))
    = map BackendSessions.title (BackendSessions.sessions (sessionsStore m)).
Proof.
  intros Hlen.
  destruct (sendMessage_normal Array_prototype_keys JSON_parse uuidv4 Date_now toISOString toLowerCase
              sid content response m Hlen) as [m' E].
  exists m'. split; [done|].
  pose proof (sendMessage_keeps
                (fun m' => map BackendSessions.title (BackendSessions.sessions (sessionsStore m'))
                           = map BackendSessions.title (BackendSessions.sessions (sessionsStore m)))
                sid) as H.
  rewrite <- (f_equal machine_of E : machine_of (sendMessage sid content response m) = m').
  apply H; clear H; try done.
  - intros data m1 H1.
    destruct (handle_event_catalog sid data m1) as [->|(p & c & now & ->)]; [done|].
    by rewrite updateSession_titles.
  - intros _.
    destruct (add_user_message_catalog sid content m) as [->|(p & c & now & ->)];
      [done|by rewrite updateSession_titles].
Qed.

(** *** The chat store *)

Lemma grown_refl s : grown s s.
Proof. by split_and!. Qed.

Lemma grown_trans s0 s1 s2 : grown s0 s1 -> grown s1 s2 -> grown s0 s2.
Proof.
  intros (? & ? & ?) (? & ? & ?). split_and!; [congruence|lia|by etrans].
Qed.

Ltac grown_step :=
  first [ apply grown_refl
        | split_and!; cbn; rewrite ?length_app, ?length_insert; cbn;
          first [ done | lia | by apply prefix_app_r ] ].

Lemma handle_event_grown sid data m :
  grown (chatStore m) (chatStore (machine_of (handle_event sid data m))).
Proof.
  unfold UseChat.handle_event. rewrite bind_eq.
  destruct (Get data "type") as [e|type]; [apply grown_refl|]. cbn [lift ret].
  destruct (is_string type "start"); [grown_step|].
  destruct (is_string type "action").
  { unfold UseChat.on_action. run; grown_step. }
  destruct (is_string type "memory").
  { unfold UseChat.on_memory. run; grown_step. }
  destruct (is_string type "response_start"); [grown_step|].
  destruct (is_string type "token").
  { unfold UseChat.on_token. run; grown_step. }
  destruct (is_string type "complete").
  { unfold UseChat.on_complete, updateSession. run; grown_step. }
  destruct (is_string type "error").
  { unfold UseChat.on_error. run; grown_step. }
  apply grown_refl.
Qed.

Lemma report_failure_grown e m :
  grown (chatStore m) (chatStore (machine_of (report_failure e m))).
Proof. split_and!; cbn; [done| |done]. rewrite length_app. lia. Qed.

(** The part before [try] adds the user's message, also when it
    throws. *)
Lemma add_user_message_grown sid content m :
  grown (chatStore m) (chatStore (machine_of (add_user_message sid content m))) /\
  length (ChatStore.messages (chatStore m))
  < length (ChatStore.messages (chatStore (machine_of (add_user_message sid content m)))).
Proof.
  destruct (Nat.le_gt_cases (length (ChatStore.messages (chatStore m))) 1) as [H|H].
  - rewrite (add_user_message_first uuidv4 Date_now sid content m H). cbn.
    split; [|rewrite length_app; cbn; lia]. grown_step.
  - destruct (add_user_message_effect uuidv4 Date_now sid content m)
      as (m0 & E0 & _ & Hmsgs & _ & Hsid & Hacts & _); [lia|].
    rewrite E0. cbn. unfold grown. rewrite Hmsgs, Hsid, Hacts, length_app. cbn.
    split_and!; [done|lia|done|lia].
Qed.

Lemma sendMessage_adds_a_message sid content response m :
  nonempty (trim content) = true ->
  length (ChatStore.messages (chatStore m))
  < length (ChatStore.messages (chatStore (machine_of (sendMessage sid content response m)))).
Proof.
  intros Hc.
  apply (sendMessage_keeps_sent
           (fun m' => length (ChatStore.messages (chatStore m))
                      < length (ChatStore.messages (chatStore m'))) sid).
  - intros f m1 H1. exact H1.
  - intros b m1 H1. exact H1.
  - intros data m1 H1. destruct (handle_event_grown sid data m1) as (_ & ? & _). lia.
  - intros e m1 H1. destruct (report_failure_grown e m1) as (_ & ? & _). lia.
  - exact Hc.
  - apply add_user_message_grown.
Qed.

(** X3.  Whatever the response is, and whether the call of
    [sendMessage] returns or rejects, it removes no message and no
    action, and it keeps the session id of the chat: afterwards the chat
    holds at least the messages it held, and the actions it held
    followed by the new ones.  A content that is not blank adds at least
    one message. *)
Theorem sendMessage_only_adds sid content response m :
  grown (chatStore m) (chatStore (machine_of (sendMessage sid content response m))) /\
  (nonempty (trim content) = true ->
   length (ChatStore.messages (chatStore m))
   < length (ChatStore.messages (chatStore (machine_of (sendMessage sid content response m))))).
Proof.
  split; [|apply sendMessage_adds_a_message].
  apply (sendMessage_keeps (fun m' => grown (chatStore m) (chatStore m')) sid).
  - intros f m1 H1. exact H1.
  - intros b m1 H1. eapply grown_trans; [exact H1|grown_step].
  - intros data m1 H1. eapply grown_trans; [exact H1|apply handle_event_grown].
  - intros e m1 H1. eapply grown_trans; [exact H1|apply report_failure_grown].
  - apply grown_refl.
  - intros _. apply add_user_message_grown.
Qed.

End Runtime.
End FrameFacts.

(** ** Lines and events of the stream *)

Module LineFacts.
Import JsString Js Types UseChat StringFacts StreamFacts HandlerFacts SendFacts Frames.

Section Runtime.
Variable Array_prototype_keys : list string.
Variable JSON_parse : string -> option JSValue.
Variable uuidv4 : nat -> string.
Variable Date_now : nat -> Date.
Variable toISOString : Date -> string.
Variable toLowerCase : string -> string.

Local Abbreviation handle_event :=
  (UseChat.handle_event Array_prototype_keys uuidv4 Date_now toISOString toLowerCase).
Local Abbreviation process_line :=
  (UseChat.process_line Array_prototype_keys JSON_parse uuidv4 Date_now toISOString toLowerCase).
Local Abbreviation for_lines :=
  (UseChat.for_lines Array_prototype_keys JSON_parse uuidv4 Date_now toISOString toLowerCase).
Local Abbreviation read_loop :=
  (UseChat.read_loop Array_prototype_keys JSON_parse uuidv4 Date_now toISOString toLowerCase).
Local Abbreviation add_user_message :=
  (UseChat.add_user_message uuidv4 Date_now).
Local Abbreviation report_failure := (UseChat.report_failure uuidv4 Date_now).
Local Abbreviation sendMessage :=
  (UseChat.sendMessage Array_prototype_keys JSON_parse uuidv4 Date_now toISOString toLowerCase).
Local Abbreviation carries := (UseChat.carries JSON_parse).
Local Abbreviation event_of := (UseChat.event_of JSON_parse).

(** The read that brings the text [tail], without a line feed, as the
    last one: nothing is processed, and the text is left in the buffer. *)
Lemma read_loop_tail sid tail e m :
  no_LF tail = true ->
  read_loop sid [tail] e EmptyString m = read_loop sid [] e EmptyString m.
Proof.
  intros H. cbn [UseChat.read_loop].
  change (EmptyString +:+ tail) with tail.
  rewrite (split_lines_one_line tail H). cbn. by destruct e.
Qed.

(** X4.  The text a stream holds after its last line feed is never
    processed: a stream that ends with an unterminated line leaves what
    the stream without that line leaves, whatever the line is. *)
Theorem unterminated_line_is_dropped sid content status chunks ls tail e m :
  forallb no_LF ls = true -> no_LF tail = true ->
  concat_all chunks = unlines ls +:+ tail ->
  sendMessage sid content (Response true status (Some (mkBody chunks e))) m =
  sendMessage sid content (Response true status (Some (mkBody [unlines ls] e))) m.
Proof.
  intros Hls Htail Htext. apply sendMessage_stream_ext. intros m1 _.
  rewrite read_loop_received by reflexivity. rewrite Htext.
  rewrite <- (append_nil_r (unlines ls)) at 2.
  rewrite !read_loop_lines by (by apply forallb_Forall).
  rewrite !bind_eq. destruct (for_lines sid ls m1) as [[] m2|m2|e2 m2]; [|done..].
  rewrite (read_loop_tail sid tail e m2 Htail).
  by rewrite (read_loop_tail sid EmptyString e m2 eq_refl).
Qed.

(** A line that carries none of the events the client handles leaves
    the machine as it is. *)
Lemma process_other_line sid x m :
  forallb (fun name => negb (carries name x)) event_types = true ->
  process_line sid x m = Normal tt m.
Proof.
  intros H. rewrite process_line_event. unfold UseChat.carries in H.
  destruct (UseChat.event_of JSON_parse x) as [data|]; [|done].
  cbn in H. unfold has_type in H. rewrite try_catch_eq.
  unfold UseChat.handle_event. rewrite bind_eq.
  destruct (Get data "type") as [err|type]; [done|]. cbn [lift ret].
  repeat (apply andb_prop in H as [?%negb_true_iff H]).
  by repeat match goal with E : is_string type _ = false |- _ => rewrite E; clear E end.
Qed.

(** X5.  A line that carries none of the seven events is skipped: a
    comment, a field other than [data], the blank line between two
    events, a [data] line whose payload is blank or does not parse, an
    event without a type or of another type.  The stream with the line
    leaves what the stream without it leaves. *)
Theorem other_lines_are_skipped sid content status chunks chunks' pre x rest e m :
  forallb no_LF pre = true -> no_LF x = true ->
  forallb (fun name => negb (carries name x)) event_types = true ->
  concat_all chunks = unlines (pre ++ [x]) +:+ rest ->
  concat_all chunks' = unlines pre +:+ rest ->
  sendMessage sid content (Response true status (Some (mkBody chunks e))) m =
  sendMessage sid content (Response true status (Some (mkBody chunks' e))) m.
Proof.
  intros Hpre Hx Hother Htext Htext'.
  eapply sendMessage_skip_line; [exact Hpre|exact Hx|exact Htext|exact Htext'|].
  intros m0 m1 _ _. by apply process_other_line.
Qed.

(** *** Failures *)

Local Abbreviation with_error := (Frames.with_error uuidv4 Date_now).

Lemma report_failure_effect err m :
  report_failure err m
  = Normal tt (with_error (JString "Failed to send message. Please try again.")
       (JString "Sorry, I encountered an error sending your message. Please try again.") m).
Proof. reflexivity. Qed.

(** What the list shows after an error has been shown. *)
Lemma shown_with_error error content m :
  well_formed m ->
  shown (with_error error content m) = shown m ++ [Some (assistant, content)].
Proof.
  intros Hwf. unfold shown, Frames.with_error. cbn.
  rewrite map_app. cbn. rewrite list_lookup_middle by done. cbn. f_equal.
  apply map_ext_in. intros r Hr. rewrite lookup_app_l; [done|].
  unfold well_formed in Hwf. rewrite Forall_forall in Hwf.
  apply Hwf. by apply list_elem_of_In.
Qed.

Lemma add_user_message_shown sid content m m0 :
  well_formed m ->
  add_user_message sid content m = Normal tt m0 ->
  well_formed m0 /\
  shown m0 = shown m ++ [Some (user, JString (trim content))].
Proof.
  intros Hwf E.
  destruct (add_user_message_inv uuidv4 Date_now sid content m m0 E)
    as (_ & Hheap & Hmsgs & _).
  unfold well_formed in *. rewrite Forall_forall in Hwf. split.
  - rewrite Hmsgs, Hheap. apply Forall_app. split.
    + apply Forall_forall. intros r Hr. rewrite length_app. apply Hwf in Hr. lia.
    + apply Forall_singleton. rewrite length_app. cbn. lia.
  - unfold shown. rewrite Hmsgs, Hheap, map_app. cbn.
    rewrite list_lookup_middle by done. cbn. f_equal.
    apply map_ext_in. intros r Hr. rewrite lookup_app_l; [done|].
    apply Hwf. by apply list_elem_of_In.
Qed.

(** X6.  In a chat that holds two messages or more, when the request
    is rejected, answered with a status that is not a success, or
    answered without a body, the call returns normally.  It leaves the
    user's message followed by one message of the assistant, flagged as
    an error, with the fixed apology; the error of the store is the
    fixed failure text, and the indicator is cleared. *)
Theorem failed_request_is_reported sid content response m :
  well_formed m ->
  2 <= length (ChatStore.messages (chatStore m)) ->
  nonempty (trim content) = true ->
  request_failed response = true ->
  exists m0 m',
    add_user_message sid content m = Normal tt m0 /\
    sendMessage sid content response m = Normal tt m' /\
    m' = on_locals (fun _ => locals m)
           (with_error (JString "Failed to send message. Please try again.")
              (JString "Sorry, I encountered an error sending your message. Please try again.")
              (on_chat (ChatStore.setTyping true) m0)) /\
    shown m' = shown m ++
      [Some (user, JString (trim content));
       Some (assistant,
             JString "Sorry, I encountered an error sending your message. Please try again.")] /\
    ChatStore.error (chatStore m') = JString "Failed to send message. Please try again." /\
    ChatStore.isTyping (chatStore m') = false.
Proof.
  intros Hwf Hlen Hc Hfail.
  destruct (add_user_message_effect uuidv4 Date_now sid content m Hlen) as (m0 & E0 & _).
  destruct (add_user_message_shown sid content m m0 Hwf E0) as [Hwf0 Hshown0].
  eexists m0, _. split; [exact E0|].
  assert (sendMessage sid content response m
          = Normal tt (on_locals (fun _ => locals m)
              (with_error (JString "Failed to send message. Please try again.")
                 (JString "Sorry, I encountered an error sending your message. Please try again.")
                 (on_chat (ChatStore.setTyping true) m0)))) as E.
  { unfold UseChat.sendMessage, call. rewrite Hc. cbn [negb].
    rewrite bind_eq, E0, try_catch_eq. unfold UseChat.stream_response.
    rewrite bind_eq. unfold setTyping, modify.
    destruct response as [|ok status body]; [reflexivity|].
    destruct ok; [|reflexivity]. destruct body; [discriminate|reflexivity]. }
  split; [exact E|]. split; [reflexivity|]. split_and!; [|reflexivity..].
  change (shown (on_locals ?f ?x)) with (shown x).
  rewrite shown_with_error by exact Hwf0.
  change (shown (on_chat (ChatStore.setTyping true) m0)) with (shown m0).
  rewrite Hshown0, <- app_assoc. reflexivity.
Qed.

(** An error line ends the loop, with the error shown. *)
Lemma process_error_line sid line m :
  carries "error" line = true ->
  exists data message,
    event_of line = Some data /\
    Get data "message" = inr message /\
    process_line sid line m
    = Returned (with_error message
                  (or_else message
                     (JString "Sorry, I encountered an error. Please try again.")) m).
Proof.
  intros H. unfold UseChat.carries in H. rewrite process_line_event.
  destruct (UseChat.event_of JSON_parse line) as [data|]; [|done].
  exists data. rewrite try_catch_eq, (handle_error Array_prototype_keys uuidv4 Date_now toISOString toLowerCase sid data m H).
  unfold has_type in H. destruct data; try done.
  eexists. split; [done|]. split; reflexivity.
Qed.

(** X7.  An [error] event ends the call.  The line that carries it
    leaves the indicator cleared, the error of the store set to the
    message of the event, and one more message of the assistant, flagged
    as an error, whose content is that message, or the fixed apology
    when the event has no message or an empty one.  What the stream
    holds after the line, and how it ends, does not matter. *)
Theorem error_event_ends_the_call sid line :
  carries "error" line = true ->
  (forall m, exists data message,
      event_of line = Some data /\
      Get data "message" = inr message /\
      process_line sid line m
      = Returned (with_error message
                    (or_else message
                       (JString "Sorry, I encountered an error. Please try again.")) m)) /\
  (forall content status chunks chunks' pre rest rest' e e' m,
      forallb no_LF (pre ++ [line]) = true ->
      concat_all chunks = unlines (pre ++ [line]) +:+ rest ->
      concat_all chunks' = unlines (pre ++ [line]) +:+ rest' ->
      sendMessage sid content (Response true status (Some (mkBody chunks e))) m =
      sendMessage sid content (Response true status (Some (mkBody chunks' e'))) m).
Proof.
  intros H. split; [intros m; by apply process_error_line|].
  intros content status chunks chunks' pre rest rest' e e' m Hlines Htext Htext'.
  unfold UseChat.sendMessage, call.
  destruct (negb (nonempty (trim content))); [reflexivity|].
  rewrite !bind_eq. destruct (add_user_message sid content m) as [[] m0|m0|e0 m0]; [|done..].
  rewrite !try_catch_eq. unfold UseChat.stream_response.
  rewrite !bind_eq. unfold setTyping, modify. cbn [negb UseChat.chunks UseChat.ending].
  rewrite !bind_eq.
  rewrite (read_loop_received Array_prototype_keys JSON_parse uuidv4 Date_now toISOString toLowerCase
             sid chunks e) by reflexivity.
  rewrite (read_loop_received Array_prototype_keys JSON_parse uuidv4 Date_now toISOString toLowerCase
             sid chunks' e') by reflexivity.
  rewrite Htext, Htext'.
  rewrite !read_loop_lines by (by apply forallb_Forall).
  rewrite !bind_eq, !for_lines_app, !bind_eq.
  destruct (for_lines sid pre _) as [[] m1|m1|e1 m1]; [|done..].
  cbn [UseChat.for_lines]. rewrite !bind_eq.
  destruct (process_error_line sid line m1 H) as (data & message & _ & _ & ->).
  reflexivity.
Qed.

(** *** Actions *)

Lemma replace_spaces_from_no_space b s : no_space (replace_spaces_from b s) = true.
Proof.
  revert b. induction s as [|c s IH]; intros b; [done|]. cbn.
  destruct (is_space c) eqn:E.
  - destruct b; [apply IH|]. cbn. apply IH.
  - cbn. by rewrite E, IH.
Qed.

(** X8.  An [action] event whose description is a string adds one
    action to the inspector: its description is that string, its time
    the present instant, and its type the description in lower case
    with every run of white space replaced by one underscore, so that
    the type holds no white space.  An [action] event whose description
    is missing or is not a string is skipped like a line that does not
    parse. *)
Theorem action_event sid line :
  carries "action" line = true ->
  forall m, exists data description,
    event_of line = Some data /\
    Get data "description" = inr description /\
    match description with
    | JString d =>
        process_line sid line m
        = Normal tt
            (on_chat (ChatStore.addAgentAction
                        (mkAgentAction (replace_spaces (toLowerCase d)) d
                                       (toISOString (Date_now (clock_reads m))) []))
               (mkMachine (chatStore m) (preferences m) (sessionsStore m) (heap m)
                          (uuid_calls m) (S (clock_reads m)) (locals m))) /\
        no_space (replace_spaces (toLowerCase d)) = true
    | _ => process_line sid line m = Normal tt m
    end.
Proof.
  intros H m. unfold UseChat.carries in H. rewrite process_line_event.
  destruct (UseChat.event_of JSON_parse line) as [data|]; [|done].
  exists data. rewrite try_catch_eq, (handle_action Array_prototype_keys uuidv4 Date_now toISOString toLowerCase sid data m H).
  unfold has_type in H. destruct data; try done.
  eexists. split; [done|]. split; [reflexivity|].
  unfold UseChat.on_action. rewrite bind_eq. cbn [Get lift ret].
  destruct (default JUndefined (lookup_prop "description" props)); try reflexivity.
  split; [reflexivity|apply replace_spaces_from_no_space].
Qed.

End Runtime.
End LineFacts.

(** ** Sorting *)

Module SortFacts.
Import JsArray.

Section Sort.
Context {A : Type}.
Variable cmp : A -> A -> Z.

Lemma insert_sorted_Permutation x l : insert_sorted cmp x l ≡ₚ x :: l.
Proof.
  induction l as [|y l IH]; [done|]. cbn.
  destruct (cmp x y <=? 0)%Z; [done|]. rewrite IH. apply Permutation_swap.
Qed.

Lemma sort_Permutation l : sort cmp l ≡ₚ l.
Proof.
  induction l as [|x l IH]; [done|]. cbn.
  by rewrite insert_sorted_Permutation, IH.
Qed.

(** An element that the comparator puts after [x] is skipped by the
    insertion of [x]; so a filter that keeps [x] and none of those sees
    [x] first. *)
Lemma filter_insert_sorted (p : A -> bool) x l :
  (forall y, p x = true -> (0 < cmp x y)%Z -> p y = false) ->
  List.filter p (insert_sorted cmp x l) = List.filter p (x :: l).
Proof.
  intros H. induction l as [|y l IH]; [done|]. cbn.
  destruct (cmp x y <=? 0)%Z eqn:E; [done|]. cbn in *. rewrite IH.
  destruct (p x) eqn:Hx; [|done].
  rewrite (H y eq_refl); [done|]. apply Z.leb_gt in E. lia.
Qed.
End Sort.

(** Sorting by a key, greatest first. *)
Section Key.
Context {A : Type}.
Variable key : A -> Z.
Local Abbreviation latest_first := (fun a b : A => (key b - key a)%Z).

Lemma insert_sorted_by_key x l :
  StronglySorted (fun a b => (key b <= key a)%Z) l ->
  StronglySorted (fun a b => (key b <= key a)%Z) (insert_sorted latest_first x l).
Proof.
  induction 1 as [|y l Hl IH Hy]; cbn.
  - repeat constructor.
  - destruct (key y - key x <=? 0)%Z eqn:E.
    + apply Z.leb_le in E. constructor; [by constructor|].
      constructor; [lia|]. eapply Forall_impl; [exact Hy|]. cbn. intros z ?. lia.
    + apply Z.leb_gt in E. constructor; [exact IH|].
      rewrite (insert_sorted_Permutation latest_first x l).
      constructor; [lia|exact Hy].
Qed.

Lemma sort_by_key l :
  StronglySorted (fun a b => (key b <= key a)%Z) (sort latest_first l).
Proof.
  induction l as [|x l IH]; cbn; [constructor|]. by apply insert_sorted_by_key.
Qed.

Lemma sort_stable t l :
  List.filter (fun a => bool_decide (key a = t)) (sort latest_first l)
  = List.filter (fun a => bool_decide (key a = t)) l.
Proof.
  induction l as [|x l IH]; [done|]. cbn [sort foldr].
  rewrite filter_insert_sorted.
  - cbn. fold (sort latest_first l). by rewrite IH.
  - intros y Hx Hy. apply bool_decide_eq_true in Hx. apply bool_decide_eq_false. lia.
Qed.
End Key.

(** X9.  The getter [sortedSessions] yields the sessions of the catalog,
    each one once, ordered by their last activity, the latest first;
    sessions of the same instant keep the order they had.  The array of
    the store itself is put in that order.  This holds for the store
    backed by the server and for the one kept in local storage. *)
Theorem sortedSessions_latest_first :
  (forall st : BackendSessions.Store,
      let (sorted, st') := BackendCatalog.sortedSessions st in
      sorted ≡ₚ BackendSessions.sessions st /\
      StronglySorted (fun a b => (BackendSessions.lastActivity b
                                  <= BackendSessions.lastActivity a)%Z) sorted /\
      (forall t, List.filter (fun s => bool_decide (BackendSessions.lastActivity s = t)) sorted
                 = List.filter (fun s => bool_decide (BackendSessions.lastActivity s = t))
                               (BackendSessions.sessions st)) /\
      BackendSessions.sessions st' = sorted /\
      BackendSessions.currentSessionId st' = BackendSessions.currentSessionId st) /\
  (forall st : LocalSessions.Store,
      let (sorted, st') := LocalCatalog.sortedSessions st in
      sorted ≡ₚ LocalSessions.sessions st /\
      StronglySorted (fun a b => (LocalSessions.lastActivity b
                                  <= LocalSessions.lastActivity a)%Z) sorted /\
      (forall t, List.filter (fun s => bool_decide (LocalSessions.lastActivity s = t)) sorted
                 = List.filter (fun s => bool_decide (LocalSessions.lastActivity s = t))
                               (LocalSessions.sessions st)) /\
      LocalSessions.sessions st' = sorted /\
      LocalSessions.currentSessionId st' = LocalSessions.currentSessionId st).
Proof.
  split; intros st; cbn; split_and!; try done.
  - apply sort_Permutation.
  - apply (sort_by_key BackendSessions.lastActivity).
  - intros t. apply (sort_stable BackendSessions.lastActivity).
  - apply sort_Permutation.
  - apply (sort_by_key LocalSessions.lastActivity).
  - intros t. apply (sort_stable LocalSessions.lastActivity).
Qed.

End SortFacts.

(** ** The catalog of sessions *)

Module CatalogFacts.
Import JsString Js Types StringFacts TextFacts.

Lemma find_is_Some {A} (p : A -> bool) (l : list A) :
  is_Some (List.find p l) <-> existsb p l = true.
Proof.
  induction l as [|x l IH]; cbn.
  - split; [by intros [? ?]|done].
  - destruct (p x); [by split|exact IH].
Qed.

Lemma existsb_filter {A} (p q : A -> bool) (l : list A) x :
  x ∈ l -> p x = true -> q x = true -> existsb p (List.filter q l) = true.
Proof.
  intros Hx Hp Hq. apply existsb_exists. exists x. split; [|done].
  apply filter_In. split; [by apply list_elem_of_In|done].
Qed.

Lemma existsb_update_found {A} (p q : A -> bool) (f : A -> A) (l : list A) :
  (forall x, p (f x) = p x) ->
  existsb p (LocalSessions.update_found q f l) = existsb p l.
Proof.
  intros Hf. induction l as [|x l IH]; [done|]. cbn.
  destruct (q x); cbn; by rewrite ?Hf, ?IH.
Qed.

Lemma find_update_found_same {A} (p : A -> bool) (f : A -> A) (l : list A) s :
  (forall x, p (f x) = p x) ->
  List.find p l = Some s ->
  List.find p (LocalSessions.update_found p f l) = Some (f s).
Proof.
  intros Hf. induction l as [|x l IH]; [done|]. cbn.
  destruct (p x) eqn:E.
  - intros [= ->]. cbn. by rewrite Hf, E.
  - intros H. cbn. rewrite E. by apply IH.
Qed.

Lemma update_found_none {A} (p : A -> bool) (f : A -> A) (l : list A) :
  List.find p l = None -> LocalSessions.update_found p f l = l.
Proof.
  induction l as [|x l IH]; [done|]. cbn.
  destruct (p x); [done|]. intros H. by rewrite IH.
Qed.

Section Backend.
Import BackendSessions BackendCatalog.

Lemma createSession_current title uuid now st :
  is_Some (currentSession (createSession title uuid now st).2).
Proof.
  unfold currentSession. cbn. unfold has_id at 1. cbn. by rewrite String.eqb_refl.
Qed.

Lemma first_is_current (first : ChatSession) rest st :
  sessions st = first :: rest ->
  is_Some (currentSession (selectSession (id first) st)).
Proof.
  intros E. unfold currentSession. cbn. rewrite E. cbn.
  unfold has_id at 1. by rewrite String.eqb_refl.
Qed.

Lemma deleteSession_current uuid now remote sid st :
  is_Some (currentSession st) ->
  is_Some (currentSession (deleteSession uuid now remote sid st).2) /\
  sessions (deleteSession uuid now remote sid st).2 <> [].
Proof.
  intros H. unfold deleteSession.
  destruct (Nat.leb (length (sessions st)) 1) eqn:Hlen.
  { cbn. split; [done|]. intros E. unfold currentSession in H.
    apply find_is_Some in H. by rewrite E in H. }
  assert (forall s0 : Store, match remote with Answered _ => s0 | Rejected => s0 end = s0)
    as Hremote by (by destruct remote).
  rewrite Hremote. cbn [snd].
  cbn [currentSessionId set_sessions sessions].
  destruct (String.eqb (currentSessionId st) sid) eqn:Hcur.
  - destruct (List.filter _ (sessions st)) as [|first rest] eqn:Hf.
    + split; [apply createSession_current|done].
    + split; [|done].
      by apply (first_is_current first rest).
  - apply find_is_Some in H. unfold currentSession in H.
    apply existsb_exists in H as (s & Hs & Hid).
    assert (has_id sid s = false) as Hother.
    { unfold has_id in *. apply String.eqb_eq in Hid. rewrite Hid. exact Hcur. }
    assert (existsb (has_id (currentSessionId st))
                    (List.filter (fun s => negb (has_id sid s)) (sessions st)) = true) as Hex.
    { apply (existsb_filter _ _ _ s); [by apply list_elem_of_In|done|by rewrite Hother]. }
    split.
    + apply find_is_Some. exact Hex.
    + cbn. intros E. by rewrite E in Hex.
Qed.

(** X10.  The current session stays a session of the catalog.
    [createSession] and [clearAllSessions] make the session they create
    the current one.  When the current session is in the catalog,
    [updateSessionFromMessage] and [updateSession] (with no new id)
    leave it there, and so does [deleteSession], whatever session it
    deletes and whatever the server answers; after [deleteSession] the
    catalog is not empty. *)
Theorem current_session_stays :
  (forall title uuid now st, is_Some (currentSession (createSession title uuid now st).2)) /\
  (forall uuid now remote st, is_Some (currentSession (clearAllSessions uuid now remote st))) /\
  (forall sid message now st,
      is_Some (currentSession st) ->
      is_Some (currentSession (updateSessionFromMessage sid message now st))) /\
  (forall sid updates now st,
      p_id updates = None ->
      is_Some (currentSession st) ->
      is_Some (currentSession (updateSession sid updates now st))) /\
  (forall uuid now remote sid st,
      is_Some (currentSession st) ->
      is_Some (currentSession (deleteSession uuid now remote sid st).2) /\
      sessions (deleteSession uuid now remote sid st).2 <> []).
Proof.
  split_and!.
  - apply createSession_current.
  - intros. apply createSession_current.
  - intros sid message now st H. apply find_is_Some. apply find_is_Some in H.
    unfold currentSession in *. cbn. rewrite existsb_update_found; [done|].
    intros s. unfold has_id. by destruct (_ && _).
  - intros sid updates now st Hid H. apply find_is_Some. apply find_is_Some in H.
    unfold currentSession in *. cbn. rewrite existsb_update_found; [done|].
    intros s. unfold has_id, assign. cbn. by rewrite Hid.
  - apply deleteSession_current.
Qed.

(** X11.  Starting from an empty catalog, [initialize] always ends with
    a catalog that is not empty and whose current session is one of its
    sessions, loading finished: when the server lists sessions, the
    current one is kept if it is listed and the first one is taken
    otherwise; when it lists none or the request fails, a new session is
    created.  The failure is recorded in that case only. *)
Theorem initialize_gives_a_session answer uuid now st :
  sessions st = [] ->
  let st' := initialize answer uuid now st in
  sessions st' <> [] /\
  is_Some (currentSession st') /\
  isLoading st' = false /\
  (error st' = match answer with
               | Listed _ => None
               | Failed => Some "Failed to load sessions"
               end) /\
  match answer with
  | Listed (first :: rest) =>
      sessions st' = first :: rest /\
      currentSessionId st' =
        (if nonempty (currentSessionId st)
            && existsb (has_id (currentSessionId st)) (first :: rest)
         then currentSessionId st else id first)
  | _ => sessions st' = [mkChatSession uuid "New Chat" None now 0 JUndefined JUndefined] /\
         currentSessionId st' = uuid
  end.
Proof.
  intros Hempty. unfold initialize, fetchSessions.
  destruct answer as [[|first rest]|]; cbn.
  - destruct (negb _ || _); cbn; split_and!; try done;
      unfold currentSession; cbn; unfold has_id; cbn; by rewrite String.eqb_refl.
  - destruct (nonempty (currentSessionId st)) eqn:Hn; cbn.
    + destruct (has_id (currentSessionId st) first) eqn:Hf; cbn.
      * split_and!; try done. unfold currentSession. cbn. by rewrite Hf.
      * destruct (existsb (has_id (currentSessionId st)) rest) eqn:Hr; cbn.
        -- split_and!; try done. unfold currentSession. cbn. rewrite Hf.
           exact (proj2 (find_is_Some (has_id (currentSessionId st)) rest) Hr).
        -- split_and!; try done. unfold currentSession. cbn. unfold has_id at 1.
           by rewrite String.eqb_refl.
    + split_and!; try done. unfold currentSession. cbn. unfold has_id at 1.
      by rewrite String.eqb_refl.
  - rewrite Hempty. cbn. split_and!; try done.
    unfold currentSession; cbn; unfold has_id; cbn; by rewrite String.eqb_refl.
Qed.

(** X12.  [updateSessionFromMessage] counts every message.  When no
    session has the id, the store is left as it is.  Otherwise the first
    session with the id, and only that one, is updated: its count grows
    by one, its last message is the message, whole, and its last
    activity the present instant; its id is kept, so that it stays the
    session found for that id. *)
Theorem updateSessionFromMessage_counts sid message now st :
  match List.find (has_id sid) (sessions st) with
  | None => updateSessionFromMessage sid message now st = st
  | Some s =>
      exists s',
        List.find (has_id sid) (sessions (updateSessionFromMessage sid message now st))
        = Some s' /\
        id s' = id s /\
        messageCount s' = messageCount s + 1 /\
        lastMessage s' = Some message /\
        lastActivity s' = now /\
        destination s' = destination s /\ budget s' = budget s /\
        length (sessions (updateSessionFromMessage sid message now st))
        = length (sessions st) /\
        forall j other, sessions st !! j = Some other -> has_id sid other = false ->
                        sessions (updateSessionFromMessage sid message now st) !! j
                        = Some other
  end.
Proof.
  destruct (List.find (has_id sid) (sessions st)) as [s|] eqn:E.
  - unfold updateSessionFromMessage. cbn [sessions set_sessions].
    eexists. split.
    { apply find_update_found_same; [|exact E].
      intros x. unfold has_id. by destruct (_ && _). }
    split_and!; try (by destruct (_ && _)).
    + rewrite <- (length_map id), FrameFacts.update_found_ids, length_map; [done|].
      intros x. by destruct (_ && _).
    + intros j other Hj Hother. by apply FrameFacts.update_found_others.
  - unfold updateSessionFromMessage. rewrite update_found_none by exact E. by destruct st.
Qed.

End Backend.

Section Local.
Import LocalSessions LocalCatalog.

Lemma local_createSession_current title uuid now st :
  is_Some (currentSession (createSession title uuid now st).2).
Proof.
  unfold currentSession. cbn. unfold has_id at 1. cbn. by rewrite String.eqb_refl.
Qed.

(** X13.  In the store kept in local storage too the current session
    stays a session of the catalog: [createSession], [clearAllSessions]
    and [initializeSessions] on an empty catalog make the session they
    create the current one, and [deleteSession] leaves a current session
    that is in the catalog, and a catalog that is not empty, whenever
    the current session was in the catalog before.  With one session or
    none, [deleteSession] does nothing. *)
Theorem local_current_session_stays :
  (forall title uuid now st, is_Some (currentSession (createSession title uuid now st).2)) /\
  (forall uuid now st, is_Some (currentSession (clearAllSessions uuid now st))) /\
  (forall uuid now st,
      sessions (initializeSessions uuid now st) <> [] /\
      (sessions st <> [] -> initializeSessions uuid now st = st) /\
      (sessions st = [] -> is_Some (currentSession (initializeSessions uuid now st)))) /\
  (forall uuid now sid st,
      length (sessions st) <= 1 -> deleteSession uuid now sid st = st) /\
  (forall uuid now sid st,
      is_Some (currentSession st) ->
      is_Some (currentSession (deleteSession uuid now sid st)) /\
      sessions (deleteSession uuid now sid st) <> []).
Proof.
  split_and!.
  - apply local_createSession_current.
  - intros. apply local_createSession_current.
  - intros uuid now st. unfold initializeSessions.
    destruct (sessions st) eqn:E; cbn; split_and!; try done.
    + intros _. apply local_createSession_current.
    + by rewrite E.
  - intros uuid now sid st Hlen. unfold deleteSession.
    by rewrite (proj2 (Nat.leb_le _ _) Hlen).
  - intros uuid now sid st H. unfold deleteSession.
    destruct (Nat.leb (length (sessions st)) 1) eqn:Hlen.
    { split; [done|]. intros E. unfold currentSession in H.
      apply find_is_Some in H. by rewrite E in H. }
    cbn [currentSessionId set_sessions sessions].
    destruct (String.eqb (currentSessionId st) sid) eqn:Hcur.
    + destruct (List.filter _ (sessions st)) as [|first rest] eqn:Hf.
      * split; [apply local_createSession_current|done].
      * split; [|done]. unfold currentSession. cbn. unfold has_id at 1.
        by rewrite String.eqb_refl.
    + unfold currentSession in H. apply find_is_Some in H.
      apply existsb_exists in H as (s & Hs & Hid).
      assert (has_id sid s = false) as Hother.
      { unfold has_id in *. apply String.eqb_eq in Hid. rewrite Hid. exact Hcur. }
      assert (existsb (has_id (currentSessionId st))
                      (List.filter (fun s => negb (has_id sid s)) (sessions st)) = true) as Hex.
      { apply (existsb_filter _ _ _ s); [by apply list_elem_of_In|done|by rewrite Hother]. }
      split.
      * apply find_is_Some. exact Hex.
      * cbn. intros E. by rewrite E in Hex.
Qed.

End Local.

(** *** Titles *)

(** X14.  A derived title is short.  The title [updateSessionTitle]
    derives from a message is never empty and never longer than 33
    units, whatever the message is: 30 units of the message and an
    ellipsis at most, and the fixed title when nothing is left of the
    message.  The title [updateSessionFromMessage] derives from a
    message in which it finds no destination is the trimmed message when
    that has 30 units or less, and is never longer than 33 units. *)
Theorem derived_titles_are_short :
  (forall toUpperCase firstMessage,
      LocalSessions.derive_title toUpperCase firstMessage <> EmptyString /\
      String.length (LocalSessions.derive_title toUpperCase firstMessage) <= 33) /\
  (forall message,
      Regex.exec BackendSessions.travel (trim message) = None ->
      String.length (BackendSessions.derive_title message) <= 33 /\
      (String.length (trim message) <= 30 ->
       BackendSessions.derive_title message = trim message)).
Proof.
  split.
  - intros toUpperCase firstMessage. unfold LocalSessions.derive_title.
    set (t := toUpperCase _ +:+ _).
    destruct (Nat.ltb 30 (String.length t)) eqn:E.
    + apply Nat.ltb_lt in E.
      assert (String.length (substring0 30 t +:+ "...") = 33) as Hlen.
      { rewrite length_append, length_substring0.
        change (String.length "...") with 3. lia. }
      destruct (substring0 30 t +:+ "...") eqn:Et; [discriminate|].
      cbn [nonempty]. split; [done|]. rewrite Hlen. lia.
    + apply Nat.ltb_ge in E. destruct t; cbn [nonempty]; [split; [done|cbn; lia]|].
      split; [done|]. etrans; [exact E|]. repeat constructor.
  - intros message Hnone. unfold BackendSessions.derive_title. rewrite Hnone.
    destruct (Nat.ltb 30 (String.length (trim message))) eqn:E.
    + apply Nat.ltb_lt in E. split; [|lia].
      rewrite length_append, length_substring0.
      change (String.length "...") with 3. lia.
    + apply Nat.ltb_ge in E. split; [lia|done].
Qed.

End CatalogFacts.

(** ** Preferences *)

Module PreferencesFacts.
Import JsString Js Types PreferencesStore PreferencesGetters MemoryFacts.

Lemma lookup_prop_filter (q : string -> bool) k (props : list (string * JSValue)) :
  lookup_prop k (List.filter (fun kv => q kv.1) props)
  = if q k then lookup_prop k props else None.
Proof.
  induction props as [|[k' v] props IH]; cbn [List.filter lookup_prop fst].
  - by destruct (q k).
  - destruct (q k') eqn:Hq'; cbn [lookup_prop]; rewrite IH.
    + destruct (q k) eqn:Hq; [done|].
      destruct (String.eqb k k') eqn:E; [|done].
      apply String.eqb_eq in E. congruence.
    + destruct (q k) eqn:Hq; [|done].
      destruct (lookup_prop k props); [done|].
      destruct (String.eqb k k') eqn:E; [|done].
      apply String.eqb_eq in E. congruence.
Qed.

Lemma Obj_eq (o o' : Obj) : own o = own o' -> proto o = proto o' -> o = o'.
Proof. destruct o, o'. cbn. by intros -> ->. Qed.

(** Without a write to [__proto__] the prototype stays. *)
Lemma Object_assign_proto (source : list (string * JSValue)) (o : Obj) :
  lookup_prop "__proto__" source = None ->
  proto (Object_assign o source) = proto o.
Proof.
  unfold Object_assign. revert o.
  induction source as [|[k v] source IH]; intros o Hp; [done|].
  cbn [lookup_prop] in Hp. destruct (lookup_prop "__proto__" source) eqn:E; [discriminate|].
  destruct (String.eqb "__proto__" k) eqn:Ek; [discriminate|].
  apply String.eqb_neq in Ek.
  cbn [fold_left]. rewrite (IH _ eq_refl). cbn [fst snd].
  by rewrite set_property_same by done.
Qed.

Section Engine.
Variable Array_prototype_keys : list string.

Local Abbreviation has_property := (Js.has_property Array_prototype_keys).
Local Abbreviation setFromMemoryUpdates :=
  (PreferencesStore.setFromMemoryUpdates Array_prototype_keys).

Section Fold.
Variable updates : list (string * JSValue).
Local Abbreviation assign_key :=
  (PreferencesStore.assign_key Array_prototype_keys updates).

Lemma assign_key_has_eq (p : Obj) key k :
  key <> "__proto__" ->
  has_property (assign_key p key) k = has_property p k.
Proof.
  intros Hne. unfold PreferencesStore.assign_key, updatePreference.
  destruct (has_property p key) eqn:Hkey; [|done].
  destruct (decide (key = k)) as [->|Hk].
  - rewrite Hkey, set_property_same by done.
    unfold Js.has_property, set_own. cbn. by rewrite lookup_insert_eq.
  - by apply has_property_set_other.
Qed.

Lemma assign_keys_has_eq keys (p : Obj) k :
  "__proto__" ∉ keys ->
  has_property (fold_left assign_key keys p) k = has_property p k.
Proof.
  revert p. induction keys as [|key keys IH]; intros p Hp; [done|].
  apply not_elem_of_cons in Hp as [Hne Hp]. cbn [fold_left].
  rewrite IH by done. by apply assign_key_has_eq.
Qed.

Lemma assign_keys_proto keys (p : Obj) :
  "__proto__" ∉ keys -> proto (fold_left assign_key keys p) = proto p.
Proof.
  revert p. induction keys as [|key keys IH]; intros p Hp; [done|].
  apply not_elem_of_cons in Hp as [Hne Hp]. cbn [fold_left].
  rewrite IH by done. unfold PreferencesStore.assign_key, updatePreference.
  destruct (has_property p key); [|done]. by rewrite set_property_same by done.
Qed.

(** A key of the update that is a property of the preferences, their
    own or inherited, becomes a property of their own with the value of
    the update. *)
Lemma assign_keys_written keys (p : Obj) k v :
  "__proto__" ∉ keys ->
  k ∈ keys -> lookup_prop k updates = Some v ->
  has_property p k = true ->
  own (fold_left assign_key keys p) !! k = Some v.
Proof.
  intros Hp Hin Hv. revert p Hp. induction keys as [|key keys IH]; intros p Hp Hhas.
  - by apply elem_of_nil in Hin.
  - apply not_elem_of_cons in Hp as [Hne Hp]. cbn [fold_left].
    destruct (decide (k ∈ keys)) as [Hk|Hk].
    + apply IH; [done..|]. by rewrite assign_key_has_eq.
    + apply elem_of_cons in Hin as [->|]; [|done].
      rewrite (assign_keys_other _ _ _ _ _ Hk).
      unfold PreferencesStore.assign_key, updatePreference.
      rewrite Hhas, Hv, set_property_same by done.
      cbn. apply lookup_insert_eq.
Qed.

End Fold.

(** X15.  For an update without the key [__proto__],
    [setFromMemoryUpdates] is [updatePreferences] restricted to the keys
    the preferences have: it leaves the object [Object.assign] leaves
    when given the update without the entries of other keys.  It adds no
    key and removes none: [key in preferences] holds afterwards exactly
    when it held before.  The key [__proto__] is different: written to
    an object that inherits the accessor of [Object.prototype], it
    stores nothing and replaces the prototype of the preferences. *)
Theorem setFromMemoryUpdates_is_restricted_assign updates (preferences : Obj) :
  lookup_prop "__proto__" updates = None ->
  setFromMemoryUpdates updates preferences
  = updatePreferences
      (List.filter (fun kv => has_property preferences kv.1) updates) preferences /\
  (forall k, has_property (setFromMemoryUpdates updates preferences) k
             = has_property preferences k) /\
  (forall v, reaches_setter preferences = true ->
             proto preferences = Object_prototype ->
             setFromMemoryUpdates [("__proto__", v)] preferences
             = set_prototype preferences v).
Proof.
  intros Hproto.
  assert ("__proto__" ∉ updates.*1) as Hkeys by (by apply lookup_prop_None).
  split_and!.
  - apply Obj_eq.
    + apply map_eq. intros k. unfold PreferencesStore.setFromMemoryUpdates, updatePreferences.
      destruct (lookup_prop k updates) as [v|] eqn:E.
      * assert (k <> "__proto__") as Hne by (intros ->; congruence).
        destruct (has_property preferences k) eqn:Hk.
        { rewrite (assign_keys_written updates _ preferences k v);
            [|done|by eapply lookup_prop_Some|done..].
          rewrite (Object_assign_same _ preferences k v); [done| |done].
          by rewrite (lookup_prop_filter (has_property preferences)), Hk. }
        rewrite (has_property_false Array_prototype_keys (fold_left _ _ _) k)
          by (by rewrite assign_keys_has_eq).
        rewrite Object_assign_other.
        { symmetry. by eapply has_property_false. }
        by rewrite (lookup_prop_filter (has_property preferences)), Hk.
      * rewrite assign_keys_other by (by apply lookup_prop_None).
        rewrite Object_assign_other; [done|].
        rewrite (lookup_prop_filter (has_property preferences)), E.
        by destruct (has_property preferences k).
    + unfold PreferencesStore.setFromMemoryUpdates, updatePreferences.
      rewrite assign_keys_proto by done.
      rewrite Object_assign_proto; [done|].
      rewrite (lookup_prop_filter (has_property preferences)), Hproto.
      by destruct (has_property preferences "__proto__").
  - intros k. by apply assign_keys_has_eq.
  - intros v Hs Hp. unfold PreferencesStore.setFromMemoryUpdates.
    cbn [map fst fold_left]. unfold PreferencesStore.assign_key, updatePreference.
    assert (has_property preferences "__proto__" = true) as ->.
    { unfold Js.has_property, reaches_setter in *.
      destruct (own preferences !! "__proto__"); [done|]. by rewrite Hp. }
    cbn [lookup_prop]. unfold set_property. by rewrite Hs.
Qed.

End Engine.

Lemma clearPreference_insert key (p : Obj) :
  key <> "__proto__" ->
  clearPreference key p
  = set_own p key (if isArray_at p key then JArray [] else JUndefined).
Proof.
  intros Hne. unfold clearPreference.
  destruct (isArray_at p key); by rewrite set_property_same.
Qed.

Lemma preferencesCount_insert_cleared key v (p : Obj) :
  is_stored v = false ->
  preferencesCount (set_own p key v)
  = match own p !! key with
    | Some old => if is_stored old then pred (preferencesCount p) else preferencesCount p
    | None => preferencesCount p
    end.
Proof.
  intros Hv. unfold preferencesCount, set_own. cbn [own].
  rewrite map_filter_insert_False by (cbn; congruence).
  rewrite map_filter_delete, map_size_delete.
  destruct (own p !! key) as [old|] eqn:Hold.
  - destruct (is_stored old) eqn:Hs.
    + by rewrite (map_lookup_filter_Some_2 _ _ key old Hold Hs).
    + rewrite (proj2 (map_lookup_filter_None _ _ key)); [done|].
      right. intros x Hx. cbn. congruence.
  - rewrite (proj2 (map_lookup_filter_None _ _ key)); [done|]. by left.
Qed.

(** X16.  [clearPreference] sets the preference to an empty array when
    it holds an array and to [undefined] otherwise, and leaves the other
    preferences alone.  Clearing twice is clearing once.  The number of
    stored preferences never grows, and it goes down by exactly one when
    the preference was counted. *)
Theorem clearPreference_clears key (preferences : Obj) :
  key <> "__proto__" ->
  own (clearPreference key preferences) !! key
  = Some (if isArray_at preferences key then JArray [] else JUndefined) /\
  (forall k, k <> key ->
             own (clearPreference key preferences) !! k = own preferences !! k) /\
  clearPreference key (clearPreference key preferences) = clearPreference key preferences /\
  preferencesCount (clearPreference key preferences) <= preferencesCount preferences /\
  (forall v, own preferences !! key = Some v -> is_stored v = true ->
             preferencesCount (clearPreference key preferences) + 1
             = preferencesCount preferences).
Proof.
  intros Hne. pose proof (clearPreference_insert key preferences Hne) as E.
  set (v0 := if isArray_at preferences key then JArray [] else JUndefined) in *.
  assert (is_stored v0 = false) as Hv0 by (unfold v0; by destruct (isArray_at _ _)).
  split_and!.
  - rewrite E. cbn. by rewrite lookup_insert_eq.
  - intros k Hk. rewrite E. cbn. by rewrite lookup_insert_ne.
  - rewrite (clearPreference_insert key (clearPreference key preferences) Hne).
    assert (isArray_at (clearPreference key preferences) key = is_array v0) as ->.
    { rewrite E. unfold isArray_at, set_own. cbn. by rewrite lookup_insert_eq. }
    rewrite E. unfold set_own. cbn. rewrite insert_insert_eq.
    unfold v0. by destruct (isArray_at preferences key).
  - rewrite E, preferencesCount_insert_cleared by done.
    destruct (own preferences !! key) as [old|]; [|done]. destruct (is_stored old); lia.
  - intros v Hv Hs. rewrite E, preferencesCount_insert_cleared by done.
    rewrite Hv, Hs.
    assert (0 < preferencesCount preferences); [|lia].
    unfold preferencesCount.
    assert (filter (fun kv : string * JSValue => is_stored kv.2 = true) (own preferences)
              !! key = Some v) as Hin by (by apply map_lookup_filter_Some_2).
    destruct (decide (size (filter (fun kv : string * JSValue => is_stored kv.2 = true)
                              (own preferences)) = 0)) as [Hz|]; [|lia].
    apply map_size_empty_inv in Hz. rewrite Hz in Hin. by rewrite lookup_empty in Hin.
Qed.

End PreferencesFacts.

(** ** The chat form *)

Module FormFacts.
Import JsString Js Types UseChat StringFacts TextFacts StreamFacts HandlerFacts SendFacts.
Import Frames ChatInterface.

Section Runtime.
Variable Array_prototype_keys : list string.
Variable JSON_parse : string -> option JSValue.
Variable uuidv4 : nat -> string.
Variable Date_now : nat -> Date.
Variable toISOString : Date -> string.
Variable toLowerCase : string -> string.

Local Abbreviation handle_event :=
  (UseChat.handle_event Array_prototype_keys uuidv4 Date_now toISOString toLowerCase).
Local Abbreviation process_line :=
  (UseChat.process_line Array_prototype_keys JSON_parse uuidv4 Date_now toISOString toLowerCase).
Local Abbreviation for_lines :=
  (UseChat.for_lines Array_prototype_keys JSON_parse uuidv4 Date_now toISOString toLowerCase).
Local Abbreviation read_loop :=
  (UseChat.read_loop Array_prototype_keys JSON_parse uuidv4 Date_now toISOString toLowerCase).
Local Abbreviation add_user_message :=
  (UseChat.add_user_message uuidv4 Date_now).
Local Abbreviation sendMessage :=
  (UseChat.sendMessage Array_prototype_keys JSON_parse uuidv4 Date_now toISOString toLowerCase).
Local Abbreviation with_user_message := (UseChat.with_user_message uuidv4 Date_now).
Local Abbreviation handleSubmit :=
  (ChatInterface.handleSubmit Array_prototype_keys JSON_parse uuidv4 Date_now toISOString toLowerCase).
Local Abbreviation sendQuickSuggestion :=
  (ChatInterface.sendQuickSuggestion Array_prototype_keys JSON_parse uuidv4 Date_now toISOString
                                     toLowerCase).

Lemma nonempty_length s : nonempty s = Nat.ltb 0 (String.length s).
Proof. by destruct s. Qed.

(** X17.  The form sends nothing when the text is blank, when it is
    longer than 500 units, or while the assistant is typing: the stores
    and the text of the input are left as they are.  Otherwise it sends
    the trimmed text to the session of the chat.  In a chat that holds
    two messages or more the call returns, whatever the response is,
    also when the request fails, and the input is cleared; the chat has
    gained at least one message.  In a chat that holds at most the
    welcome message the call rejects before the request is made: the
    user's message has been added, and the text stays in the input. *)
Theorem handleSubmit_guards inputMessage response m :
  (trim inputMessage = EmptyString \/ 500 < String.length inputMessage \/
   ChatStore.isTyping (chatStore m) = true ->
   handleSubmit inputMessage response m = (inputMessage, Normal tt m)) /\
  (trim inputMessage <> EmptyString -> String.length inputMessage <= 500 ->
   ChatStore.isTyping (chatStore m) = false ->
   2 <= length (ChatStore.messages (chatStore m)) ->
   exists m',
     handleSubmit inputMessage response m = (EmptyString, Normal tt m') /\
     sendMessage (ChatStore.sessionId (chatStore m)) (trim inputMessage) response m
     = Normal tt m' /\
     length (ChatStore.messages (chatStore m)) < length (ChatStore.messages (chatStore m'))) /\
  (trim inputMessage <> EmptyString -> String.length inputMessage <= 500 ->
   ChatStore.isTyping (chatStore m) = false ->
   length (ChatStore.messages (chatStore m)) <= 1 ->
   handleSubmit inputMessage response m
   = (inputMessage, Thrown TypeError (with_user_message (trim inputMessage) m))).
Proof.
  split_and!.
  - intros H. unfold ChatInterface.handleSubmit, canSend.
    rewrite <- nonempty_length.
    destruct H as [H|[H|H]].
    + by rewrite H.
    + apply Nat.leb_gt in H. rewrite H. by destruct (nonempty _).
    + rewrite H. by destruct (nonempty _), (Nat.leb _ _).
  - intros Hne Hlen Htyping Hcount. unfold ChatInterface.handleSubmit, canSend.
    rewrite <- nonempty_length.
    assert (nonempty (trim inputMessage) = true) as Hn by (by destruct (trim inputMessage)).
    rewrite Hn, (proj2 (Nat.leb_le _ _) Hlen), Htyping. cbn [negb orb andb].
    destruct (sendMessage_normal Array_prototype_keys JSON_parse uuidv4 Date_now toISOString
                toLowerCase (ChatStore.sessionId (chatStore m)) (trim inputMessage) response m
                Hcount)
      as (m' & E).
    pose proof (FrameFacts.sendMessage_adds_a_message Array_prototype_keys JSON_parse uuidv4
                  Date_now toISOString toLowerCase (ChatStore.sessionId (chatStore m))
                  (trim inputMessage) response m) as Hgrow.
    rewrite E in Hgrow |- *. exists m'. split_and!; [done..|].
    apply Hgrow. by rewrite trim_idem.
  - intros Hne Hlen Htyping Hcount. unfold ChatInterface.handleSubmit, canSend.
    rewrite <- nonempty_length.
    assert (nonempty (trim inputMessage) = true) as Hn by (by destruct (trim inputMessage)).
    rewrite Hn, (proj2 (Nat.leb_le _ _) Hlen), Htyping. cbn [negb orb andb].
    rewrite (sendMessage_first Array_prototype_keys JSON_parse uuidv4 Date_now toISOString
               toLowerCase (ChatStore.sessionId (chatStore m)) (trim inputMessage) response m);
      [|by rewrite trim_idem|done].
    reflexivity.
Qed.

(** *** A stream that ends before the answer starts *)

Lemma handle_quiet_event sid data m :
  has_type data "response_start" = false ->
  has_type data "complete" = false ->
  has_type data "error" = false ->
  ChatStore.isTyping (chatStore m) = true ->
  match handle_event sid data m with
  | Normal _ m' | Thrown _ m' => ChatStore.isTyping (chatStore m') = true
  | Returned _ => False
  end.
Proof.
  unfold has_type, UseChat.handle_event. intros Hrs Hc He Ht. rewrite bind_eq.
  destruct (Get data "type") as [e|type]; [exact Ht|]. cbn [lift ret].
  destruct (is_string type "start"); [reflexivity|].
  destruct (is_string type "action").
  { unfold UseChat.on_action. clear Hrs Hc He. run; exact Ht. }
  destruct (is_string type "memory").
  { unfold UseChat.on_memory. clear Hrs Hc He. run; exact Ht. }
  rewrite Hrs.
  destruct (is_string type "token").
  { unfold UseChat.on_token. clear Hrs Hc He. run; exact Ht. }
  rewrite Hc, He. exact Ht.
Qed.

Lemma process_quiet_line sid line m :
  quiet JSON_parse line = true ->
  ChatStore.isTyping (chatStore m) = true ->
  exists m', process_line sid line m = Normal tt m' /\
             ChatStore.isTyping (chatStore m') = true.
Proof.
  unfold quiet, carries. intros Hq Ht. rewrite process_line_event.
  destruct (event_of JSON_parse line) as [data|]; [|by exists m].
  apply andb_prop in Hq as [Hq He]. apply andb_prop in Hq as [Hrs Hc].
  apply negb_true_iff in Hrs, Hc, He.
  rewrite try_catch_eq.
  pose proof (handle_quiet_event sid data m Hrs Hc He Ht) as H.
  destruct (UseChat.handle_event _ _ _ _ _ sid data m) as [[] m'|m'|e m'];
    [by exists m'|done|by exists m'].
Qed.

Lemma for_quiet_lines sid lines m :
  forallb (quiet JSON_parse) lines = true ->
  ChatStore.isTyping (chatStore m) = true ->
  exists m', for_lines sid lines m = Normal tt m' /\
             ChatStore.isTyping (chatStore m') = true.
Proof.
  revert m. induction lines as [|l lines IH]; intros m Hq Ht; [by exists m|].
  cbn in Hq. apply andb_prop in Hq as [Hl Hq].
  destruct (process_quiet_line sid l m Hl Ht) as (m1 & E1 & Ht1).
  cbn [UseChat.for_lines]. rewrite bind_eq, E1. by apply IH.
Qed.

(** X18.  A stream that ends before the answer starts locks the input.
    In a chat that holds two messages or more, when the stream holds no
    [response_start], [complete] or [error] event before it signals the
    end of the data, the call returns with the typing indicator still
    on; after that the form sends nothing, whatever its text is, and
    neither does a quick suggestion. *)
Theorem stream_without_answer_locks_the_input sid content status chunks ls tail m :
  2 <= length (ChatStore.messages (chatStore m)) ->
  nonempty (trim content) = true ->
  forallb no_LF ls = true -> no_LF tail = true ->
  forallb (quiet JSON_parse) ls = true ->
  concat_all chunks = unlines ls +:+ tail ->
  exists m',
    sendMessage sid content (Response true status (Some (mkBody chunks EndOfData))) m
    = Normal tt m' /\
    ChatStore.isTyping (chatStore m') = true /\
    (forall inputMessage response,
        handleSubmit inputMessage response m' = (inputMessage, Normal tt m')) /\
    (forall suggestion response,
        sendQuickSuggestion suggestion response m' = Normal tt m').
Proof.
  intros Hlen Hc Hls Htail Hq Htext.
  destruct (add_user_message_effect uuidv4 Date_now sid content m Hlen) as (m0 & E0 & _).
  destruct (for_quiet_lines sid ls
              (on_locals (fun _ => mkLocals None EmptyString)
                         (on_chat (ChatStore.setTyping true) m0)) Hq eq_refl)
    as (m1 & E1 & Ht1).
  exists (on_locals (fun _ => locals m) m1).
  assert (ChatStore.isTyping (chatStore (on_locals (fun _ => locals m) m1)) = true)
    as Ht by exact Ht1.
  split_and!.
  - rewrite (sendMessage_lines Array_prototype_keys JSON_parse uuidv4 Date_now toISOString
               toLowerCase sid content status chunks ls tail EndOfData m m0 Hc E0 Hls Htext).
    unfold call. rewrite try_catch_eq, bind_eq, E1.
    by rewrite (read_loop_last Array_prototype_keys JSON_parse uuidv4 Date_now toISOString
                  toLowerCase sid tail m1 Htail).
  - exact Ht.
  - intros inputMessage response. unfold ChatInterface.handleSubmit, canSend.
    rewrite Ht. cbn [negb]. rewrite !andb_false_r, orb_true_r. reflexivity.
  - intros suggestion response. unfold ChatInterface.sendQuickSuggestion. by rewrite Ht.
Qed.

End Runtime.
End FormFacts.

(** ** Opening a new chat *)

Module NewChatFacts.
Import JsString Js Types UseChat StringFacts StreamFacts HandlerFacts SendFacts.
Import Frames NewChat.

Section Runtime.
Variable Array_prototype_keys : list string.
Variable JSON_parse : string -> option JSValue.
Variable uuidv4 : nat -> string.
Variable Date_now : nat -> Date.
Variable toISOString : Date -> string.
Variable toLowerCase : string -> string.

Local Abbreviation sendMessage :=
  (UseChat.sendMessage Array_prototype_keys JSON_parse uuidv4 Date_now toISOString toLowerCase).
Local Abbreviation add_user_message :=
  (UseChat.add_user_message uuidv4 Date_now).
Local Abbreviation startNewChat := (NewChat.startNewChat uuidv4 Date_now).
Local Abbreviation createNewChat := (NewChat.createNewChat uuidv4 Date_now).

Local Abbreviation opened := (NewChat.opened uuidv4 Date_now).
Local Abbreviation with_user_message := (UseChat.with_user_message uuidv4 Date_now).

Lemma startNewChat_run m :
  startNewChat m = Normal tt (opened (uuidv4 (uuid_calls m)) m).
Proof. reflexivity. Qed.

Lemma createNewChat_run m :
  createNewChat m = Normal tt (opened (uuidv4 (S (uuid_calls m))) m).
Proof. reflexivity. Qed.

(** The session [createSession] puts at the head of the catalog. *)
Lemma opened_sessions chatId m :
  BackendSessions.sessions (sessionsStore (opened chatId m))
  = BackendSessions.mkChatSession (uuidv4 (uuid_calls m)) "New Chat" None
                                  (Date_now (clock_reads m)) 0 JUndefined JUndefined
    :: BackendSessions.sessions (sessionsStore m).
Proof. reflexivity. Qed.

Lemma opened_shown chatId m :
  shown (opened chatId m) = [Some (assistant, JString ChatStoreActions.welcome_content)].
Proof. unfold shown. cbn. by rewrite list_lookup_middle. Qed.

(** The first message of a chat that was just opened: the call rejects
    once the message is added. *)
Lemma opened_first_message chatId content response m :
  nonempty (trim content) = true ->
  sendMessage chatId content response (opened chatId m)
  = Thrown TypeError (with_user_message content (opened chatId m)) /\
  sessionsStore (with_user_message content (opened chatId m))
  = sessionsStore (opened chatId m) /\
  shown (with_user_message content (opened chatId m))
  = [Some (assistant, JString ChatStoreActions.welcome_content);
     Some (user, JString (trim content))].
Proof.
  intros Hc. split_and!.
  - apply (sendMessage_first Array_prototype_keys JSON_parse uuidv4 Date_now toISOString
             toLowerCase chatId content response (opened chatId m) Hc).
    cbn. lia.
  - reflexivity.
  - unfold shown. cbn.
    rewrite (list_lookup_middle (heap m ++ [_]) [] _ _ eq_refl).
    rewrite <- app_assoc. cbn [app].
    by rewrite (list_lookup_middle (heap m) _ _ _ eq_refl).
Qed.

(** X19.  [startNewChat] binds the chat to the session it creates.  It
    always returns, leaving the new session at the head of the catalog
    and current, with the title [New Chat], no last message and the
    count 0, the chat store emptied but for the welcome message, the
    preferences as initially, and the session id of the chat equal to
    the id of the new session.  The first message sent from that chat,
    when it is not blank, is added to the chat, and then the call
    rejects with a [TypeError], whatever the response is: the sessions
    store of the call has no [updateSessionTitle].  The catalog stays as
    [startNewChat] left it. *)
Theorem startNewChat_binds_the_chat m :
  startNewChat m = Normal tt (opened (uuidv4 (uuid_calls m)) m) /\
  ChatStore.sessionId (chatStore (opened (uuidv4 (uuid_calls m)) m))
  = BackendSessions.currentSessionId (sessionsStore (opened (uuidv4 (uuid_calls m)) m)) /\
  BackendSessions.sessions (sessionsStore (opened (uuidv4 (uuid_calls m)) m))
  = BackendSessions.mkChatSession (uuidv4 (uuid_calls m)) "New Chat" None
                                  (Date_now (clock_reads m)) 0 JUndefined JUndefined
    :: BackendSessions.sessions (sessionsStore m) /\
  preferences (opened (uuidv4 (uuid_calls m)) m) = PreferencesStore.initial /\
  shown (opened (uuidv4 (uuid_calls m)) m)
  = [Some (assistant, JString ChatStoreActions.welcome_content)] /\
  forall content response,
    nonempty (trim content) = true ->
    sendMessage (ChatStore.sessionId (chatStore (opened (uuidv4 (uuid_calls m)) m)))
                content response (opened (uuidv4 (uuid_calls m)) m)
    = Thrown TypeError (with_user_message content (opened (uuidv4 (uuid_calls m)) m)) /\
    sessionsStore (with_user_message content (opened (uuidv4 (uuid_calls m)) m))
    = sessionsStore (opened (uuidv4 (uuid_calls m)) m) /\
    shown (with_user_message content (opened (uuidv4 (uuid_calls m)) m))
    = [Some (assistant, JString ChatStoreActions.welcome_content);
       Some (user, JString (trim content))].
Proof.
  split; [apply startNewChat_run|]. split; [reflexivity|].
  split; [apply opened_sessions|]. split; [reflexivity|].
  split; [apply opened_shown|].
  intros content response Hc.
  exact (opened_first_message (uuidv4 (uuid_calls m)) content response m Hc).
Qed.

(** X20.  [createNewChat] leaves the chat unbound.  It always returns,
    leaving what [startNewChat] leaves except that the session id of the
    chat is the id [newSession] generated, the one after the id of the
    new session, while the current session of the catalog is the new
    session.  When the two ids differ and the id of the chat is not the
    id of a session, the messages sent from that chat leave the catalog
    exactly as it is, whatever the responses are: the first one, not
    blank, is added and the call rejects with a [TypeError]; whatever is
    sent after it, the new session keeps the default title, no last
    message and the count 0. *)
Theorem createNewChat_leaves_the_chat_unbound m :
  createNewChat m = Normal tt (opened (uuidv4 (S (uuid_calls m))) m) /\
  ChatStore.sessionId (chatStore (opened (uuidv4 (S (uuid_calls m))) m))
  = uuidv4 (S (uuid_calls m)) /\
  BackendSessions.currentSessionId (sessionsStore (opened (uuidv4 (S (uuid_calls m))) m))
  = uuidv4 (uuid_calls m) /\
  (uuidv4 (S (uuid_calls m)) <> uuidv4 (uuid_calls m) ->
   existsb (BackendSessions.has_id (uuidv4 (S (uuid_calls m))))
           (BackendSessions.sessions (sessionsStore m)) = false ->
   forall content response,
     nonempty (trim content) = true ->
     sendMessage (uuidv4 (S (uuid_calls m))) content response
                 (opened (uuidv4 (S (uuid_calls m))) m)
     = Thrown TypeError (with_user_message content (opened (uuidv4 (S (uuid_calls m))) m)) /\
     forall content' response',
       sessionsStore
         (machine_of (sendMessage (uuidv4 (S (uuid_calls m))) content' response'
                        (with_user_message content (opened (uuidv4 (S (uuid_calls m))) m))))
       = BackendSessions.mkStore
           (BackendSessions.mkChatSession (uuidv4 (uuid_calls m)) "New Chat" None
                                          (Date_now (clock_reads m)) 0 JUndefined JUndefined
            :: BackendSessions.sessions (sessionsStore m))
           (uuidv4 (uuid_calls m))
           (BackendSessions.isLoading (sessionsStore m))
           (BackendSessions.error (sessionsStore m))).
Proof.
  split; [apply createNewChat_run|]. split; [reflexivity|]. split; [reflexivity|].
  intros Hne Hold content response Hc.
  set (m1 := opened (uuidv4 (S (uuid_calls m))) m).
  split; [exact (proj1 (opened_first_message (uuidv4 (S (uuid_calls m))) content response m Hc))|].
  intros content' response'.
  pose proof (FrameFacts.sendMessage_catalog Array_prototype_keys JSON_parse uuidv4 Date_now
                toISOString toLowerCase (uuidv4 (S (uuid_calls m))) content' response'
                (with_user_message content m1)) as H.
  apply FrameFacts.same_sessions in H; [exact H|].
  cbn. unfold BackendSessions.has_id at 1. cbn.
  apply String.eqb_neq in Hne. rewrite String.eqb_sym in Hne. rewrite Hne. exact Hold.
Qed.

End Runtime.
End NewChatFacts.

(** ** Functions of the components *)

Module ComponentFacts.
Import JsString StringFacts TextFacts Frames.

(** X21.  [formatSessionTime] labels a session by the age of its last
    activity: [now] below one minute, also for an instant in the future;
    the whole minutes, from 1 to 59, below one hour; the whole hours,
    from 1 to 23, below one day; the whole days, from 1 to 6, below one
    week; and the date from then on. *)
Theorem formatSessionTime_ranges toLocaleDateString now timestamp :
  let age := (now - timestamp)%Z in
  let label := SessionSidebar.formatSessionTime toLocaleDateString now timestamp in
  ((age < 60000)%Z -> label = "now") /\
  ((60000 <= age < 3600000)%Z ->
   label = pretty (age / 60000)%Z +:+ "m" /\ (1 <= age / 60000 <= 59)%Z) /\
  ((3600000 <= age < 86400000)%Z ->
   label = pretty (age / 3600000)%Z +:+ "h" /\ (1 <= age / 3600000 <= 23)%Z) /\
  ((86400000 <= age < 604800000)%Z ->
   label = pretty (age / 86400000)%Z +:+ "d" /\ (1 <= age / 86400000 <= 6)%Z) /\
  ((604800000 <= age)%Z -> label = toLocaleDateString timestamp).
Proof.
  intros age label. subst label. unfold SessionSidebar.formatSessionTime.
  cbv zeta. fold age.
  assert (forall d lo hi : Z, (0 < d -> lo * d <= age < hi * d -> lo <= age / d < hi)%Z) as Hdiv.
  { intros d lo hi Hd [Hlo Hhi]. split.
    - apply Z.div_le_lower_bound; lia.
    - apply Z.div_lt_upper_bound; lia. }
  split_and!.
  - intros H. destruct (Z.ltb_spec (age / 60000) 1) as [|Hge]; [done|].
    assert (age / 60000 < 1)%Z; [|lia]. apply Z.div_lt_upper_bound; lia.
  - intros H. pose proof (Hdiv 60000 1 60 ltac:(lia) ltac:(lia))%Z as Hm.
    destruct (Z.ltb_spec (age / 60000) 1); [lia|].
    destruct (Z.ltb_spec (age / 60000) 60); [|lia]. split; [done|lia].
  - intros H. pose proof (Hdiv 60000 60 1440 ltac:(lia) ltac:(lia))%Z as Hm.
    pose proof (Hdiv 3600000 1 24 ltac:(lia) ltac:(lia))%Z as Hh.
    destruct (Z.ltb_spec (age / 60000) 1); [lia|].
    destruct (Z.ltb_spec (age / 60000) 60); [lia|].
    destruct (Z.ltb_spec (age / 3600000) 24); [|lia]. split; [done|lia].
  - intros H. pose proof (Hdiv 60000 1440 10080 ltac:(lia) ltac:(lia))%Z as Hm.
    pose proof (Hdiv 3600000 24 168 ltac:(lia) ltac:(lia))%Z as Hh.
    pose proof (Hdiv 86400000 1 7 ltac:(lia) ltac:(lia))%Z as Hd.
    destruct (Z.ltb_spec (age / 60000) 1); [lia|].
    destruct (Z.ltb_spec (age / 60000) 60); [lia|].
    destruct (Z.ltb_spec (age / 3600000) 24); [lia|].
    destruct (Z.ltb_spec (age / 86400000) 7); [|lia]. split; [done|lia].
  - intros H.
    assert (10080 <= age / 60000)%Z by (apply Z.div_le_lower_bound; lia).
    assert (168 <= age / 3600000)%Z by (apply Z.div_le_lower_bound; lia).
    assert (7 <= age / 86400000)%Z by (apply Z.div_le_lower_bound; lia).
    destruct (Z.ltb_spec (age / 60000) 1); [lia|].
    destruct (Z.ltb_spec (age / 60000) 60); [lia|].
    destruct (Z.ltb_spec (age / 3600000) 24); [lia|].
    destruct (Z.ltb_spec (age / 86400000) 7); [lia|]. done.
Qed.

(** *** Labels of the inspector *)

Import InspectorPanel.

Lemma is_word_upper c : is_word (ascii_upper c) = is_word c.
Proof. by destruct c as [[] [] [] [] [] [] [] []]. Qed.

Lemma ascii_upper_idem c : ascii_upper (ascii_upper c) = ascii_upper c.
Proof. by destruct c as [[] [] [] [] [] [] [] []]. Qed.

Lemma upper_is_no_underscore c :
  Ascii.eqb c "_" = false -> Ascii.eqb (ascii_upper c) "_" = false.
Proof. by destruct c as [[] [] [] [] [] [] [] []]. Qed.

Lemma capitalized_from_idem b s :
  capitalized_from b (capitalized_from b s) = capitalized_from b s.
Proof.
  revert b. induction s as [|c s IH]; intros b; [done|]. cbn.
  destruct (is_word c && negb b) eqn:E.
  - rewrite is_word_upper, E, ascii_upper_idem, IH. reflexivity.
  - by rewrite E, IH.
Qed.

Lemma length_capitalized_from b s :
  String.length (capitalized_from b s) = String.length s.
Proof. revert b. induction s as [|c s IH]; intros b; [done|]. cbn. by rewrite IH. Qed.

Lemma capitalized_from_no_underscore b s :
  all_units (fun c => negb (Ascii.eqb c "_")) s = true ->
  all_units (fun c => negb (Ascii.eqb c "_")) (capitalized_from b s) = true.
Proof.
  revert b. induction s as [|c s IH]; intros b; [done|]. cbn.
  intros [Hc Hs]%andb_prop. rewrite (IH _ Hs), andb_true_r.
  apply negb_true_iff in Hc.
  destruct (is_word c && negb b); [|by rewrite Hc]. by rewrite upper_is_no_underscore.
Qed.

Lemma spaced_no_underscore s :
  all_units (fun c => negb (Ascii.eqb c "_")) (spaced s) = true.
Proof.
  unfold spaced. induction s as [|c s IH]; [done|]. cbn. rewrite IH, andb_true_r.
  by destruct (Ascii.eqb c "_") eqn:E; [|rewrite E].
Qed.

Lemma spaced_id s :
  all_units (fun c => negb (Ascii.eqb c "_")) s = true -> spaced s = s.
Proof.
  unfold spaced. induction s as [|c s IH]; [done|]. cbn. intros [Hc Hs]%andb_prop.
  apply negb_true_iff in Hc. by rewrite Hc, (IH Hs).
Qed.

(** X22.  [formatActionType] turns the type of an action into a label
    of the same length, without any underscore: each underscore becomes
    a space, and each letter that begins a word becomes a capital.
    Formatting a label again changes nothing. *)
Theorem formatActionType_label type :
  String.length (formatActionType type) = String.length type /\
  all_units (fun c => negb (Ascii.eqb c "_")) (formatActionType type) = true /\
  formatActionType (formatActionType type) = formatActionType type.
Proof.
  unfold formatActionType, capitalized. split_and!.
  - rewrite length_capitalized_from. apply length_map_string.
  - apply capitalized_from_no_underscore, spaced_no_underscore.
  - rewrite spaced_id by apply capitalized_from_no_underscore, spaced_no_underscore.
    apply capitalized_from_idem.
Qed.

End ComponentFacts.

(** ** Markdown *)

Module MarkdownFacts.
Import JsString StringFacts TextFacts Markdown.

Lemma kept_le p : kept p <= 2.
Proof. unfold kept. destruct (Nat.leb_spec 3 p); lia. Qed.

Lemma kept_small p : p <= 2 -> kept p = p.
Proof. unfold kept. destruct (Nat.leb_spec 3 p); lia. Qed.

Lemma line_feeds_comm p r :
  line_feeds p +:+ String LF r = String LF (line_feeds p +:+ r).
Proof. induction p as [|p IH]; [done|]. cbn [line_feeds]. by rewrite !append_cons, IH. Qed.

Lemma short_runs_line_feeds q n x :
  q + n <= 2 ->
  short_runs_from q (line_feeds n +:+ x) = short_runs_from (q + n) x.
Proof.
  revert q. induction n as [|n IH]; intros q H.
  - by rewrite Nat.add_0_r.
  - cbn [line_feeds]. rewrite append_cons. cbn [short_runs_from].
    change (Ascii.eqb LF LF) with true. cbv iota.
    rewrite (proj2 (Nat.ltb_lt q 2)) by lia. cbn [andb].
    rewrite IH by lia. f_equal. lia.
Qed.

Lemma normalize_short p s : short_runs_from 0 (normalize_from p s) = true.
Proof.
  revert p. induction s as [|c s IH]; intros p; cbn [normalize_from].
  - rewrite <- (append_nil_r (line_feeds (kept p))).
    rewrite short_runs_line_feeds by (pose proof (kept_le p); lia). reflexivity.
  - destruct (Ascii.eqb c LF) eqn:E; [apply IH|].
    rewrite short_runs_line_feeds by (pose proof (kept_le p); lia).
    cbn [short_runs_from]. rewrite E. apply IH.
Qed.

Lemma normalize_id p s :
  p <= 2 -> short_runs_from p s = true -> normalize_from p s = line_feeds p +:+ s.
Proof.
  revert p. induction s as [|c s IH]; intros p Hp H; cbn [normalize_from].
  - by rewrite kept_small, append_nil_r.
  - cbn [short_runs_from] in H. destruct (Ascii.eqb c LF) eqn:E.
    + apply andb_prop in H as [Hlt H]. apply Nat.ltb_lt in Hlt.
      rewrite IH by (done || lia). cbn [line_feeds]. rewrite append_cons.
      apply Ascii.eqb_eq in E. subst c. by rewrite line_feeds_comm.
    + rewrite kept_small by done. rewrite (IH 0) by (done || lia). reflexivity.
Qed.

(** *** The ends of the cleaned text *)

Lemma length_trimStart s : String.length (trimStart s) <= String.length s.
Proof.
  induction s as [|c s IH]; [done|]. cbn. destruct (is_space c); cbn; lia.
Qed.

Lemma trimStart_fixed c r : trimStart (String c r) = String c r -> is_space c = false.
Proof.
  cbn. destruct (is_space c); [|done]. intros H.
  pose proof (length_trimStart r) as Hl. rewrite H in Hl. cbn in Hl. lia.
Qed.

Lemma is_space_LF c : is_space c = false -> Ascii.eqb c LF = false.
Proof. by destruct c as [[] [] [] [] [] [] [] []]. Qed.

Lemma trimEnd_fixed c r :
  trimEnd (String c r) = String c r ->
  (r = EmptyString /\ is_space c = false) \/ (r <> EmptyString /\ trimEnd r = r).
Proof.
  cbn. destruct (trimEnd r) as [|c' r'] eqn:E.
  - destruct (is_space c); [done|]. intros [= <-]. by left.
  - intros [= <-]. by right.
Qed.

Lemma trimEnd_keep c r :
  r <> EmptyString -> trimEnd r = r -> trimEnd (String c r) = String c r.
Proof. intros Hne E. cbn. rewrite E. by destruct r. Qed.

Lemma trimEnd_app a b :
  b <> EmptyString -> trimEnd b = b -> trimEnd (a +:+ b) = a +:+ b.
Proof.
  intros Hne E. induction a as [|c a IH]; [done|]. rewrite append_cons.
  apply trimEnd_keep; [|exact IH]. destruct a; [done|by rewrite append_cons].
Qed.

Lemma append_not_nil a b : b <> EmptyString -> a +:+ b <> EmptyString.
Proof. intros H. destruct a; [done|by rewrite append_cons]. Qed.

Lemma normalize_end p s :
  s <> EmptyString -> trimEnd s = s ->
  trimEnd (normalize_from p s) = normalize_from p s /\ normalize_from p s <> EmptyString.
Proof.
  revert p. induction s as [|c s IH]; intros p Hne H; [done|].
  cbn [normalize_from]. destruct (trimEnd_fixed c s H) as [[-> Hc]|[Hs Hr]].
  - rewrite (is_space_LF c Hc). cbn [normalize_from].
    change (line_feeds (kept 0)) with EmptyString. split.
    + apply trimEnd_app; [done|]. cbn. by rewrite Hc.
    + by apply append_not_nil.
  - destruct (Ascii.eqb c LF); [by apply IH|].
    destruct (IH 0 Hs Hr) as [IH1 IH2]. split.
    + apply trimEnd_app; [done|]. by apply trimEnd_keep.
    + by apply append_not_nil.
Qed.

Lemma normalize_trimmed t :
  trimStart t = t -> trimEnd t = t ->
  trim (normalize_breaks t) = normalize_breaks t.
Proof.
  intros Hs He. unfold trim, normalize_breaks. destruct t as [|c r]; [done|].
  pose proof (trimStart_fixed c r Hs) as Hc.
  assert (String c r <> EmptyString) as Hne by done.
  destruct (normalize_end 0 (String c r) Hne He) as [H1 _].
  assert (trimStart (normalize_from 0 (String c r)) = normalize_from 0 (String c r)) as H2.
  { cbn [normalize_from]. rewrite (is_space_LF c Hc).
    change (line_feeds (kept 0)) with EmptyString.
    change (EmptyString +:+ ?x) with x. cbn [trimStart]. by rewrite Hc. }
  by rewrite H2, H1.
Qed.

Lemma trim_ends s : trimStart (trim s) = trim s /\ trimEnd (trim s) = trim s.
Proof.
  unfold trim. split.
  - by rewrite trimStart_trimEnd, trimStart_idem.
  - apply trimEnd_idem.
Qed.

(** X23.  The text [renderMarkdown] hands to the renderer neither
    begins nor ends with white space, and no run of line feeds in it is
    longer than two.  A text that is like that already is handed over
    as it is, so that cleaning twice is cleaning once.  When the
    renderer throws, [renderMarkdown] yields the content as it was
    given, not the cleaned text. *)
Theorem cleaned_text content :
  short_runs (cleaned content) = true /\
  trim (cleaned content) = cleaned content /\
  (short_runs (trim content) = true -> cleaned content = trim content) /\
  cleaned (cleaned content) = cleaned content /\
  (forall marked, marked (cleaned content) = None -> renderMarkdown marked content = content).
Proof.
  destruct (trim_ends content) as [Hs He].
  assert (trim (cleaned content) = cleaned content) as Ht
    by (by apply normalize_trimmed).
  split_and!.
  - apply normalize_short.
  - exact Ht.
  - intros H. unfold cleaned, normalize_breaks. rewrite normalize_id; [done|lia|exact H].
  - unfold cleaned at 1. rewrite Ht. unfold normalize_breaks.
    rewrite normalize_id; [done|lia|apply normalize_short].
  - intros marked H. unfold renderMarkdown. by rewrite H.
Qed.

End MarkdownFacts.

(** ** Getters of the chat store *)

Module ChatGetterFacts.
Import Js Types ChatStore ChatStoreActions.

Lemma slice_last_length {A} n (l : list A) :
  length (JsArray.slice_last n l) = Nat.min n (length l).
Proof. unfold JsArray.slice_last. rewrite length_drop. lia. Qed.

(** X24.  The inspector shows the last ten actions: [recentActions]
    yields the actions of the store when there are ten or fewer, and the
    last ten, in their order, otherwise.  An action just added is the
    last one it yields. *)
Theorem recentActions_last_ten s :
  length (recentActions s) = Nat.min 10 (length (agentActions s)) /\
  (exists older, agentActions s = older ++ recentActions s) /\
  (length (agentActions s) <= 10 -> recentActions s = agentActions s) /\
  (forall action, last (recentActions (addAgentAction action s)) = Some action).
Proof.
  unfold recentActions. split_and!.
  - apply slice_last_length.
  - exists (take (length (agentActions s) - 10) (agentActions s)).
    unfold JsArray.slice_last. by rewrite take_drop.
  - intros H. unfold JsArray.slice_last.
    by replace (length (agentActions s) - 10) with 0 by lia.
  - intros action. unfold JsArray.slice_last. cbn [agentActions addAgentAction].
    rewrite length_app. cbn [length].
    rewrite drop_app_le by lia. by rewrite last_snoc.
Qed.

End ChatGetterFacts.

(** ** Loading and switching conversations *)

Module HistoryFacts.
Import JsString Js Types UseChat StreamFacts History.

Lemma message_eta msg :
  mkMessage (m_id msg) (m_role msg) (m_content msg) (m_timestamp msg) (m_isError msg) = msg.
Proof. by destruct msg. Qed.

Lemma lookups_in_prefix (h extra : Heap) cached objs :
  Forall (fun r => r < length h) cached ->
  Forall2 (fun r o => (h ++ extra) !! r = Some o) cached objs ->
  Forall2 (fun r o => h !! r = Some o) cached objs.
Proof.
  intros Hv H. induction H as [|r o cached objs Hr H IH]; [constructor|].
  apply Forall_cons in Hv as [Hlt Hv]. constructor; [|by apply IH].
  by rewrite lookup_app_l in Hr.
Qed.

(** Copying messages that are in the heap appends their copies to it. *)
Lemma copy_messages_run cached m :
  Forall (fun r => r < length (heap m)) cached ->
  exists objs,
    Forall2 (fun r o => heap m !! r = Some o) cached objs /\
    copy_messages cached m
    = Normal (seq (length (heap m)) (length cached))
             (mkMachine (chatStore m) (preferences m) (sessionsStore m) (heap m ++ objs)
                        (uuid_calls m) (clock_reads m) (locals m)).
Proof.
  revert m. induction cached as [|r cached IH]; intros m Hvalid.
  - exists []. split; [constructor|]. cbn. rewrite app_nil_r. by destruct m.
  - pose proof Hvalid as Hall. apply Forall_cons in Hvalid as [Hr Hvalid].
    destruct (lookup_lt_is_Some_2 (heap m) r Hr) as [msg Hmsg].
    cbn [copy_messages]. rewrite bind_eq. unfold gets. rewrite Hmsg.
    rewrite bind_eq. unfold new_Message. rewrite message_eta.
    set (m1 := on_heap _ m).
    destruct (IH m1) as (objs & Hobjs & E).
    { eapply Forall_impl; [exact Hvalid|]. cbn. intros x Hx. rewrite length_app. lia. }
    exists (msg :: objs). split.
    + constructor; [done|].
      apply (lookups_in_prefix (heap m) [msg]); [exact Hvalid|exact Hobjs].
    + rewrite bind_eq, E. cbn. rewrite length_app. cbn.
      rewrite <- app_assoc. cbn. by rewrite Nat.add_1_r.
Qed.

(** Whether or not they are all in the heap, copying only adds to it. *)
Lemma copy_messages_frame cached m :
  heap m `prefix_of` heap (machine_of (copy_messages cached m)) /\
  chatStore (machine_of (copy_messages cached m)) = chatStore m.
Proof.
  revert m. induction cached as [|r cached IH]; intros m; [done|].
  cbn [copy_messages]. rewrite bind_eq. unfold gets.
  destruct (heap m !! r) as [msg|]; [|done].
  rewrite bind_eq. unfold new_Message. set (m1 := on_heap _ m).
  destruct (IH m1) as [Hh Hc]. rewrite bind_eq.
  destruct (copy_messages cached m1) as [copies m2|m2|e m2]; cbn in *;
    (split; [etrans; [|exact Hh]; by apply prefix_app_r | done]).
Qed.

Section Runtime.
Variable uuidv4 : nat -> string.
Variable Date_now : nat -> Date.

Local Abbreviation backend_messages := (History.backend_messages uuidv4).
Local Abbreviation load_from_backend := (History.load_from_backend uuidv4 Date_now).
Local Abbreviation loadConversationHistory :=
  (History.loadConversationHistory uuidv4 Date_now).
Local Abbreviation switchSession := (History.switchSession uuidv4 Date_now).
Local Abbreviation initializeWelcome := (NewChat.initializeWelcome uuidv4 Date_now).

Lemma backend_messages_frame l m :
  exists messages m',
    backend_messages l m = Normal messages m' /\
    heap m `prefix_of` heap m' /\ chatStore m' = chatStore m.
Proof.
  revert m. induction l as [|[[role content] timestamp] l IH]; intros m.
  - by exists [], m.
  - cbn [History.backend_messages]. rewrite bind_eq. unfold new_uuid.
    rewrite bind_eq. unfold new_Message. set (m1 := on_heap _ _).
    destruct (IH m1) as (messages & m' & E & Hh & Hc).
    rewrite bind_eq, E. eexists _, _. split; [reflexivity|].
    split; [etrans; [|exact Hh]; by apply prefix_app_r | done].
Qed.

Lemma cache_kept_but_refl sid m : cache_kept_but sid m m.
Proof. by split_and!. Qed.

Lemma cache_kept_but_trans sid m1 m2 m3 :
  cache_kept_but sid m1 m2 -> cache_kept_but sid m2 m3 -> cache_kept_but sid m1 m3.
Proof.
  intros (Hh & Hs & Hk) (Hh' & Hs' & Hk'). split_and!; [by etrans|congruence|].
  intros k Hne. destruct (Hk k Hne) as (? & ? & ?), (Hk' k Hne) as (? & ? & ?).
  split_and!; congruence.
Qed.

Lemma finally_eq {A} (body : M A) (last : M unit) m :
  finally body last m
  = match body m with
    | Normal a m' =>
        match last m' with
        | Normal _ m'' => Normal a m''
        | Returned m'' => Returned m''
        | Thrown e m'' => Thrown e m''
        end
    | Returned m' =>
        match last m' with
        | Normal _ m'' | Returned m'' => Returned m''
        | Thrown e m'' => Thrown e m''
        end
    | Thrown e m' =>
        match last m' with
        | Normal _ m'' => Thrown e m''
        | Returned m'' => Returned m''
        | Thrown e' m'' => Thrown e' m''
        end
    end.
Proof. reflexivity. Qed.

Lemma initializeWelcome_frame sid m :
  exists m', initializeWelcome m = Normal tt m' /\ cache_kept_but sid m m'.
Proof.
  eexists. split; [reflexivity|].
  split_and!; cbn; [by apply prefix_app_r|done|done].
Qed.

Lemma load_from_cache_frame sid cached actions memory m :
  cache_kept_but sid m (machine_of (load_from_cache cached actions memory m)).
Proof.
  unfold load_from_cache. rewrite bind_eq.
  destruct (copy_messages_frame cached m) as [Hh Hc].
  destruct (copy_messages cached m) as [copies m1|m1|e m1]; cbn in Hh, Hc.
  - cbn. split_and!; cbn; [done|by rewrite Hc|intros k Hne; by rewrite Hc].
  - cbn. split_and!; cbn; [done|by rewrite Hc|intros k Hne; by rewrite Hc].
  - cbn. split_and!; cbn; [done|by rewrite Hc|intros k Hne; by rewrite Hc].
Qed.

Lemma load_from_backend_frame sid backend m :
  cache_kept_but sid m (machine_of (load_from_backend sid backend m)).
Proof.
  unfold History.load_from_backend.
  destruct backend as [|history context]; [apply cache_kept_but_refl|].
  rewrite bind_eq.
  assert (exists c, (match history with
                     | HistoryNotOk => initializeWelcome
                     | HistoryUnreadable => throw SyntaxError
                     | HistoryMessages [] => initializeWelcome
                     | HistoryMessages l =>
                         bind (backend_messages l)
                           (fun backendMessages =>
                              bind (modify (on_chat (ChatStore.set_messages backendMessages)))
                                (fun _ => modify (on_chat (cache_messages sid backendMessages))))
                     end) m = c /\
                    cache_kept_but sid m (machine_of c) /\
                    match c with Returned _ => False | _ => True end)
    as (c & -> & Hc & Hnot).
  { destruct history as [| |[|x l]].
    - eexists. split; [reflexivity|]. split; [|done].
      by destruct (initializeWelcome_frame sid m) as (m' & [= <-] & H).
    - eexists. split; [reflexivity|]. split; [apply cache_kept_but_refl|done].
    - eexists. split; [reflexivity|]. split; [|done].
      by destruct (initializeWelcome_frame sid m) as (m' & [= <-] & H).
    - rewrite bind_eq.
      destruct (backend_messages_frame (x :: l) m) as (messages & m1 & -> & Hh & Hc1).
      eexists. split; [reflexivity|]. split; [|done].
      cbn. split_and!; cbn; [done|by rewrite Hc1|].
      intros k Hne. rewrite Hc1. by rewrite lookup_insert_ne. }
  destruct c as [[] m1|m1|e m1]; [|done|exact Hc].
  cbn [machine_of] in Hc.
  eapply cache_kept_but_trans; [exact Hc|].
  destruct context as [| |p]; cbn; [apply cache_kept_but_refl..|].
  split_and!; cbn; [done..|]. intros k Hne. by rewrite lookup_insert_ne.
Qed.

(** Loading the conversation of [sid] always returns; it leaves the
    heap grown and the cache of the other sessions as it was. *)
Lemma load_frame sid backend m :
  exists m',
    call (loadConversationHistory sid backend) m = Normal tt m' /\
    cache_kept_but sid m m' /\
    ChatStore.isLoadingHistory (chatStore m') = false.
Proof.
  unfold call, History.loadConversationHistory.
  rewrite bind_eq. unfold modify at 1. cbv beta iota.
  rewrite bind_eq. unfold modify at 1. cbv beta iota.
  set (m0 := on_chat (ChatStore.setError JNull) (on_chat (set_isLoadingHistory true) m)).
  assert (cache_kept_but sid m m0) as H0 by (by split_and!).
  rewrite finally_eq, try_catch_eq.
  assert (cache_kept_but sid m0 (machine_of (History.load_conversation uuidv4 Date_now
                                               sid backend m0))) as Hbody.
  { unfold History.load_conversation.
    do 3 (rewrite bind_eq; unfold gets at 1; cbv beta iota).
    destruct (ChatStore.sessionMessages (chatStore m0) !! sid) as [cached|];
      [destruct (Nat.ltb 1 (length cached))|];
      first [apply load_from_cache_frame | apply load_from_backend_frame]. }
  destruct (History.load_conversation uuidv4 Date_now sid backend m0) as [[] m1|m1|e m1];
    cbn [machine_of] in Hbody.
  - eexists. split; [reflexivity|]. split; [|reflexivity].
    eapply cache_kept_but_trans; [exact H0|]. eapply cache_kept_but_trans; [exact Hbody|].
    by split_and!.
  - eexists. split; [reflexivity|]. split; [|reflexivity].
    eapply cache_kept_but_trans; [exact H0|]. eapply cache_kept_but_trans; [exact Hbody|].
    by split_and!.
  - eexists. split; [reflexivity|]. split; [|reflexivity].
    eapply cache_kept_but_trans; [exact H0|]. eapply cache_kept_but_trans; [exact Hbody|].
    split_and!; cbn; [by apply prefix_app_r|done|done].
Qed.

(** The conversation after loading from the cache. *)
Lemma lookups_of_copies (h : Heap) objs :
  map (fun r => (h ++ objs) !! r) (seq (length h) (length objs)) = map Some objs.
Proof.
  revert h. induction objs as [|o objs IH]; intros h; [done|]. cbn [length seq map].
  rewrite list_lookup_middle by done. f_equal.
  specialize (IH (h ++ [o])). rewrite length_app in IH. cbn in IH.
  rewrite Nat.add_1_r, <- app_assoc in IH. exact IH.
Qed.

Lemma load_cached sid backend cached actions memory m :
  ChatStore.sessionMessages (chatStore m) !! sid = Some cached ->
  ChatStore.sessionActions (chatStore m) !! sid = Some actions ->
  ChatStore.sessionMemory (chatStore m) !! sid = Some memory ->
  2 <= length cached ->
  Forall (fun r => r < length (heap m)) cached ->
  exists m',
    call (loadConversationHistory sid backend) m = Normal tt m' /\
    conversation m' = map (fun r => heap m !! r) cached /\
    ChatStore.agentActions (chatStore m') = actions /\
    ChatStore.memoryUpdates (chatStore m') = memory /\
    ChatStore.sessionId (chatStore m') = ChatStore.sessionId (chatStore m) /\
    ChatStore.isTyping (chatStore m') = ChatStore.isTyping (chatStore m) /\
    ChatStore.error (chatStore m') = JNull /\
    ChatStore.isLoadingHistory (chatStore m') = false.
Proof.
  intros Hm Ha Hmem Hlen Hvalid.
  unfold call, History.loadConversationHistory.
  rewrite bind_eq. unfold modify at 1. cbv beta iota.
  rewrite bind_eq. unfold modify at 1. cbv beta iota.
  set (m0 := on_chat (ChatStore.setError JNull) (on_chat (set_isLoadingHistory true) m)).
  rewrite finally_eq, try_catch_eq.
  unfold History.load_conversation.
  do 3 (rewrite bind_eq; unfold gets at 1; cbv beta iota).
  change (chatStore m0) with (ChatStore.setError JNull (set_isLoadingHistory true (chatStore m))).
  cbn [ChatStore.sessionMessages ChatStore.sessionActions ChatStore.sessionMemory
       ChatStore.setError set_isLoadingHistory].
  rewrite Hm, Ha, Hmem. rewrite (proj2 (Nat.ltb_lt 1 (length cached))) by lia.
  unfold load_from_cache. rewrite bind_eq.
  destruct (copy_messages_run cached m0 Hvalid) as (objs & Hobjs & ->).
  eexists. split; [reflexivity|].
  split_and!; try reflexivity.
  unfold conversation. cbn.
  rewrite (Forall2_length _ _ _ Hobjs), lookups_of_copies.
  change (heap m0) with (heap m) in Hobjs.
  clear -Hobjs. induction Hobjs as [|r o cached objs Hr H IH]; [done|].
  cbn. by rewrite IH, Hr.
Qed.

(** X25.  Switching to another session and back restores the
    conversation.  When the chat holds two messages or more, switching
    to a session with another id and then back to the first one leaves
    the messages of the chat with the ids, roles, contents and instants
    they had, in the same order, and the actions and the memory the chat
    had, whatever the backend answers in between; the indicator is off,
    no error is recorded and loading is finished. *)
Theorem switching_back_restores_the_conversation other backend1 backend2 m :
  well_formed m ->
  other <> ChatStore.sessionId (chatStore m) ->
  2 <= length (ChatStore.messages (chatStore m)) ->
  exists m1 m2,
    switchSession other backend1 m = Normal tt m1 /\
    switchSession (ChatStore.sessionId (chatStore m)) backend2 m1 = Normal tt m2 /\
    conversation m2 = conversation m /\
    ChatStore.agentActions (chatStore m2) = ChatStore.agentActions (chatStore m) /\
    ChatStore.memoryUpdates (chatStore m2) = ChatStore.memoryUpdates (chatStore m) /\
    ChatStore.sessionId (chatStore m2) = ChatStore.sessionId (chatStore m) /\
    ChatStore.isTyping (chatStore m2) = false /\
    ChatStore.error (chatStore m2) = JNull /\
    ChatStore.isLoadingHistory (chatStore m2) = false.
Proof.
  intros Hwf Hother Hlen.
  set (a := ChatStore.sessionId (chatStore m)) in *.
  (* the first switch *)
  set (ma := on_chat (ChatStoreActions.set_sessionId other)
               (on_chat ChatStoreActions.clearAll
                  (on_chat ChatStore.saveCurrentSession m))).
  destruct (load_frame other backend1 ma) as (m1 & E1 & (Hheap1 & Hsid1 & Hcache1) & _).
  assert (switchSession other backend1 m = Normal tt m1) as Hs1.
  { unfold History.switchSession. rewrite bind_eq. unfold gets. cbv beta iota.
    rewrite (proj2 (Nat.ltb_lt 0 _)) by lia.
    rewrite bind_eq. unfold modify at 1. cbv beta iota.
    rewrite bind_eq. unfold modify at 1. cbv beta iota.
    rewrite bind_eq. unfold modify at 1. cbv beta iota. exact E1. }
  destruct (Hcache1 a ltac:(done)) as (Hm1 & Ha1 & Hmem1).
  cbn in Hm1, Ha1, Hmem1, Hsid1, Hheap1. fold a in Hm1, Ha1, Hmem1.
  rewrite lookup_insert_eq in Hm1. rewrite lookup_insert_eq in Ha1.
  rewrite lookup_insert_eq in Hmem1.
  (* the second switch *)
  set (saved := if Nat.ltb 0 (length (ChatStore.messages (chatStore m1)))
                then on_chat ChatStore.saveCurrentSession m1 else m1).
  assert (ChatStore.sessionMessages (chatStore saved) !! a
            = Some (ChatStore.messages (chatStore m)) /\
          ChatStore.sessionActions (chatStore saved) !! a
            = Some (ChatStore.agentActions (chatStore m)) /\
          ChatStore.sessionMemory (chatStore saved) !! a
            = Some (ChatStore.memoryUpdates (chatStore m)) /\
          heap saved = heap m1) as (Hm & Ha & Hmem & Hheap).
  { unfold saved. destruct (Nat.ltb 0 _); [|done]. cbn. rewrite Hsid1.
    by rewrite !lookup_insert_ne. }
  set (mb := on_chat (ChatStoreActions.set_sessionId a)
               (on_chat ChatStoreActions.clearAll saved)).
  destruct (load_cached a backend2 (ChatStore.messages (chatStore m))
              (ChatStore.agentActions (chatStore m)) (ChatStore.memoryUpdates (chatStore m)) mb)
    as (m2 & E2 & Hconv & Hacts & Hmemory & Hsid2 & Htyping & Herr & Hload);
    [exact Hm|exact Ha|exact Hmem|exact Hlen| |].
  { change (heap mb) with (heap saved). rewrite Hheap.
    eapply Forall_impl; [exact Hwf|]. cbn. intros r Hr.
    apply prefix_length in Hheap1. lia. }
  exists m1, m2. split; [exact Hs1|]. split.
  { unfold History.switchSession. rewrite bind_eq. unfold gets. cbv beta iota.
    rewrite bind_eq. fold a.
    assert ((if Nat.ltb 0 (length (ChatStore.messages (chatStore m1)))
             then modify (on_chat ChatStore.saveCurrentSession) else ret tt) m1
            = Normal tt saved) as -> by (unfold saved; by destruct (Nat.ltb 0 _)).
    rewrite bind_eq. unfold modify at 1. cbv beta iota.
    rewrite bind_eq. unfold modify at 1. cbv beta iota. exact E2. }
  split_and!; try done.
  rewrite Hconv. unfold conversation. apply map_ext_in. intros r Hr.
  change (heap mb) with (heap saved). rewrite Hheap.
  destruct Hheap1 as [extra ->]. apply lookup_app_l.
  unfold well_formed in Hwf. rewrite Forall_forall in Hwf. apply Hwf.
  by apply list_elem_of_In.
Qed.

Lemma load_from_backend_fails sid backend m :
  load_fails backend = true ->
  exists e m', load_from_backend sid backend m = Thrown e m'.
Proof.
  intros H. unfold History.load_from_backend.
  destruct backend as [|history context]; [by eexists _, _|].
  rewrite bind_eq.
  destruct history as [| |[|x l]].
  - destruct context; try done. by eexists _, _.
  - by eexists _, _.
  - destruct context; try done. by eexists _, _.
  - destruct context; try done. rewrite bind_eq.
    destruct (backend_messages_frame (x :: l) m) as (messages & m1 & -> & _).
    by eexists _, _.
Qed.

(** X26.  A load that fails shows the welcome message.  When the cache
    holds no conversation of two messages or more for the session, and
    the requests are rejected or an answer cannot be read,
    [loadConversationHistory] still returns: it records the fixed error
    text, leaves the welcome message, newly made, as the only message
    of the chat, and ends loading. *)
Theorem failed_load_shows_the_welcome sid backend m :
  load_fails backend = true ->
  (forall cached, ChatStore.sessionMessages (chatStore m) !! sid = Some cached ->
                  length cached <= 1) ->
  exists m' welcome,
    call (loadConversationHistory sid backend) m = Normal tt m' /\
    conversation m' = [Some welcome] /\
    m_role welcome = assistant /\
    m_content welcome = JString ChatStoreActions.welcome_content /\
    ChatStore.error (chatStore m') = JString "Failed to load conversation history" /\
    ChatStore.isLoadingHistory (chatStore m') = false.
Proof.
  intros Hfails Hcache.
  unfold call, History.loadConversationHistory.
  rewrite bind_eq. unfold modify at 1. cbv beta iota.
  rewrite bind_eq. unfold modify at 1. cbv beta iota.
  set (m0 := on_chat (ChatStore.setError JNull) (on_chat (set_isLoadingHistory true) m)).
  rewrite finally_eq, try_catch_eq.
  assert (exists e m1, History.load_conversation uuidv4 Date_now sid backend m0 = Thrown e m1)
    as (e & m1 & ->).
  { unfold History.load_conversation.
    do 3 (rewrite bind_eq; unfold gets at 1; cbv beta iota).
    change (ChatStore.sessionMessages (chatStore m0))
      with (ChatStore.sessionMessages (chatStore m)).
    destruct (ChatStore.sessionMessages (chatStore m) !! sid) as [cached|] eqn:E;
      [|by apply load_from_backend_fails].
    rewrite (proj2 (Nat.ltb_ge 1 (length cached))) by (by apply Hcache).
    by apply load_from_backend_fails. }
  eexists _, _. split; [reflexivity|].
  split; [unfold conversation; cbn; by rewrite list_lookup_middle|].
  split_and!; reflexivity.
Qed.

End Runtime.
End HistoryFacts.

(** ** Tokens whose content is not a string *)

Module TokenContentFacts.
Import JsString Js Types UseChat StringFacts StreamFacts HandlerFacts TokenFacts.

Section Runtime.
Variable Array_prototype_keys : list string.
Variable JSON_parse : string -> option JSValue.
Variable uuidv4 : nat -> string.
Variable Date_now : nat -> Date.
Variable toISOString : Date -> string.
Variable toLowerCase : string -> string.

Local Abbreviation for_lines :=
  (UseChat.for_lines Array_prototype_keys JSON_parse uuidv4 Date_now toISOString toLowerCase).
Local Abbreviation carries := (UseChat.carries JSON_parse).
Local Abbreviation token_line := (UseChat.token_line JSON_parse).

(** A token whose content cannot be converted to a string: [+=] throws
    before anything is assigned, and the line is skipped. *)
Lemma on_token_throws data v e current m :
  currentMessage (locals m) = Some current ->
  Get data "content" = inr v ->
  ToString v = inl e ->
  on_token data m = Thrown e m.
Proof.
  intros Hcur Hget Htext.
  unfold UseChat.on_token, bind, gets, lift, modify, ret.
  by rewrite Hcur, Hget, Htext.
Qed.

(** X27.  After [response_start] and any tokens, a token event extends the
    answer by the string conversion of what it holds under [content],
    whatever that is: the text [undefined] when the event has no
    content, [null] for null, the text of a number.  When the conversion
    throws, as it does for an object with a [toString] property of its
    own that cannot be called, the line is skipped: the stores and the
    answer are as if the line were not there. *)
Theorem token_content_is_converted sid rs toks cs l data v m :
  well_formed m ->
  carries "response_start" rs = true ->
  Forall2 (fun l c => token_line l = Some c) toks cs ->
  event_of JSON_parse l = Some data ->
  has_type data "token" = true ->
  Get data "content" = inr v ->
  (forall text,
     ToString v = inr text ->
     exists m' msg,
       for_lines sid (rs :: toks ++ [l]) m = Normal tt m' /\
       final_message m' = Some msg /\
       m_role msg = assistant /\
       m_content msg = JString (concat_all cs +:+ text) /\
       length (ChatStore.messages (chatStore m'))
       = S (length (ChatStore.messages (chatStore m)))) /\
  (forall e,
     ToString v = inl e ->
     for_lines sid (rs :: toks ++ [l]) m = for_lines sid (rs :: toks) m) /\
  ToString JUndefined = inr "undefined" /\
  ToString JNull = inr "null".
Proof.
  intros Hwf Hrs Htoks He Ht Hv.
  destruct (for_lines_answer Array_prototype_keys JSON_parse uuidv4 Date_now toISOString toLowerCase
              sid rs toks cs m Hwf Hrs Htoks) as (m1 & Hm1 & Hs1).
  assert (for_lines sid (rs :: toks ++ [l]) m
          = try_catch (on_token data) (fun _ => ret tt) m1) as Hrun.
  { rewrite app_comm_cons, for_lines_app, bind_eq, Hm1.
    cbn [UseChat.for_lines]. rewrite bind_eq, process_line_event, He, !try_catch_eq.
    rewrite (handle_token _ _ _ _ _ _ _ _ Ht).
    by destruct (on_token data m1) as [[] ?| |]. }
  split_and!; [| |reflexivity..].
  - intros text Htext.
    edestruct on_token_streaming as (m2 & Hm2 & Hs2); [exact Hs1|exact Hv|exact Htext|].
    exists m2.
    destruct Hs2 as (current & msg & entry & msg' & _ & _ & _ & _ & _ & _ &
                     Hlen & Hentry & Hmsg' & _ & Hrole' & Hcont' & _).
    exists msg'. split_and!; try done.
    + by rewrite Hrun, try_catch_eq, Hm2.
    + unfold final_message. by rewrite (last_entry _ _ _ Hlen Hentry).
  - intros e Htext. rewrite Hrun, Hm1, try_catch_eq.
    destruct Hs1 as (current & _ & _ & _ & Hcur & _).
    by rewrite (on_token_throws data v e current m1 Hcur Hv Htext).
Qed.

End Runtime.

End TokenContentFacts.

(** ** The lines of a stream, one stage after the other *)

Module RunFacts.
Import JsString Js Types UseChat StringFacts StreamFacts HandlerFacts SendFacts TokenFacts.
Import CompleteFacts Frames.

Lemma same_conversation_refl m : same_conversation m m.
Proof. by repeat split. Qed.

Lemma same_conversation_trans m0 m1 m2 :
  same_conversation m0 m1 -> same_conversation m1 m2 -> same_conversation m0 m2.
Proof.
  intros (H1 & H2 & H3 & H4) (G1 & G2 & G3 & G4).
  repeat split; congruence.
Qed.

(** What the final message is depends on the message list and on the
    objects only. *)
Lemma final_message_same m m' :
  ChatStore.messages (chatStore m') = ChatStore.messages (chatStore m) ->
  heap m' = heap m ->
  final_message m' = final_message m.
Proof. intros Hm Hh. unfold final_message. by rewrite Hm, Hh. Qed.

Lemma shown_same m m' :
  ChatStore.messages (chatStore m') = ChatStore.messages (chatStore m) ->
  heap m' = heap m ->
  shown m' = shown m.
Proof. intros Hm Hh. unfold shown. by rewrite Hm, Hh. Qed.

(** What a machine in which an answer streams shows of it. *)
Lemma streaming_final u old base k acc m :
  streaming u old base k acc m ->
  exists msg,
    final_message m = Some msg /\
    m_role msg = assistant /\
    m_content msg = JString acc /\
    length (ChatStore.messages (chatStore m)) = S (length old) /\
    uuid_calls m = k /\
    ChatStore.isTyping (chatStore m) = false.
Proof.
  intros (current & msg & entry & msg' & _ & _ & _ & _ & _ & _ &
          Hlen & Hentry & Hmsg' & _ & Hrole' & Hcont' & _ & _ & Htyping & Hk & _).
  exists msg'. split_and!; try done.
  unfold final_message. by rewrite (last_entry _ _ _ Hlen Hentry).
Qed.

Lemma streaming_text_final u old base k acc m :
  streaming u old base k acc m -> text_final m.
Proof.
  intros (msg & Hfinal & _ & Hcont & _)%streaming_final.
  by exists msg, acc.
Qed.

Section Runtime.
Variable Array_prototype_keys : list string.
Variable JSON_parse : string -> option JSValue.
Variable uuidv4 : nat -> string.
Variable Date_now : nat -> Date.
Variable toISOString : Date -> string.
Variable toLowerCase : string -> string.

Local Abbreviation handle_event :=
  (UseChat.handle_event Array_prototype_keys uuidv4 Date_now toISOString toLowerCase).
Local Abbreviation process_line :=
  (UseChat.process_line Array_prototype_keys JSON_parse uuidv4 Date_now toISOString toLowerCase).
Local Abbreviation for_lines :=
  (UseChat.for_lines Array_prototype_keys JSON_parse uuidv4 Date_now toISOString toLowerCase).
Local Abbreviation read_loop :=
  (UseChat.read_loop Array_prototype_keys JSON_parse uuidv4 Date_now toISOString toLowerCase).
Local Abbreviation sendMessage :=
  (UseChat.sendMessage Array_prototype_keys JSON_parse uuidv4 Date_now toISOString toLowerCase).
Local Abbreviation add_user_message := (UseChat.add_user_message uuidv4 Date_now).
Local Abbreviation on_response_start := (UseChat.on_response_start uuidv4 Date_now).
Local Abbreviation on_complete := (UseChat.on_complete Date_now).
Local Abbreviation report_failure := (UseChat.report_failure uuidv4 Date_now).
Local Abbreviation carries := (UseChat.carries JSON_parse).
Local Abbreviation event_of := (UseChat.event_of JSON_parse).
Local Abbreviation token_line := (UseChat.token_line JSON_parse).
Local Abbreviation quiet := (Frames.quiet JSON_parse).
Local Abbreviation streams := (Frames.streams JSON_parse).
Local Abbreviation token_texts := (Frames.token_texts JSON_parse).
Local Abbreviation ends := (Frames.ends JSON_parse).

(** *** Before the answer *)

(** An event that is none of [response_start], [complete] and [error],
    while no message is in progress: the call goes on, and the
    conversation is as it was. *)
Lemma handle_quiet_conversation sid data m :
  has_type data "response_start" = false ->
  has_type data "complete" = false ->
  has_type data "error" = false ->
  currentMessage (locals m) = None ->
  match handle_event sid data m with
  | Normal _ m' | Thrown _ m' => same_conversation m m'
  | Returned _ => False
  end.
Proof.
  unfold has_type, UseChat.handle_event. intros Hrs Hc He Hcur. rewrite bind_eq.
  destruct (Get data "type") as [e|type]; [apply same_conversation_refl|]. cbn [lift ret].
  destruct (is_string type "start"); [by repeat split|].
  destruct (is_string type "action").
  { unfold UseChat.on_action. clear Hrs Hc He. run; by repeat split. }
  destruct (is_string type "memory").
  { unfold UseChat.on_memory. clear Hrs Hc He. run; by repeat split. }
  rewrite Hrs.
  destruct (is_string type "token").
  { unfold UseChat.on_token, bind, gets. rewrite Hcur. apply same_conversation_refl. }
  rewrite Hc, He. apply same_conversation_refl.
Qed.

Lemma process_quiet_conversation sid line m :
  quiet line = true ->
  currentMessage (locals m) = None ->
  exists m', process_line sid line m = Normal tt m' /\ same_conversation m m'.
Proof.
  unfold Frames.quiet, UseChat.carries. intros Hq Hcur. rewrite process_line_event.
  destruct (event_of line) as [data|]; [|exists m; split; [done|apply same_conversation_refl]].
  apply andb_prop in Hq as [Hq He]. apply andb_prop in Hq as [Hrs Hc].
  apply negb_true_iff in Hrs, Hc, He.
  rewrite try_catch_eq.
  pose proof (handle_quiet_conversation sid data m Hrs Hc He Hcur) as H.
  destruct (UseChat.handle_event _ _ _ _ _ sid data m) as [[] m'|m'|e m'];
    [by exists m'|done|by exists m'].
Qed.

(** The lines before [response_start]. *)
Lemma for_quiet_conversation sid lines m :
  forallb quiet lines = true ->
  currentMessage (locals m) = None ->
  exists m', for_lines sid lines m = Normal tt m' /\ same_conversation m m'.
Proof.
  revert m. induction lines as [|l lines IH]; intros m Hq Hcur.
  { exists m. split; [done|apply same_conversation_refl]. }
  cbn in Hq. apply andb_prop in Hq as [Hl Hq].
  destruct (process_quiet_conversation sid l m Hl Hcur) as (m1 & E1 & H1).
  destruct (IH m1 Hq) as (m2 & E2 & H2).
  { destruct H1 as (_ & _ & _ & ->). exact Hcur. }
  exists m2. cbn [UseChat.for_lines]. rewrite bind_eq, E1. split; [exact E2|].
  by eapply same_conversation_trans.
Qed.

(** *** The answer *)

(** The lines of an answer: [response_start], then lines that stream. *)
Lemma for_answer_lines sid rs body m :
  well_formed m ->
  carries "response_start" rs = true ->
  forallb streams body = true ->
  exists m', for_lines sid (rs :: body) m = Normal tt m' /\
             streaming (uuidv4 (uuid_calls m)) (ChatStore.messages (chatStore m)) (heap m)
                       (S (uuid_calls m)) (concat_all (token_texts body)) m'.
Proof.
  intros Hwf Hrs Hbody.
  destruct (on_response_start_streaming uuidv4 Date_now m Hwf) as (m1 & Hm1 & Hs1).
  destruct (for_lines_streams Array_prototype_keys JSON_parse uuidv4 Date_now toISOString
              toLowerCase sid body _ _ _ _ _ m1 Hbody Hs1) as (m2 & Hm2 & Hs2).
  exists m2. cbn [UseChat.for_lines].
  rewrite bind_eq.
  rewrite (response_start_line Array_prototype_keys JSON_parse uuidv4 Date_now toISOString
             toLowerCase sid rs m Hrs), Hm1, Hm2.
  done.
Qed.

(** *** The end of the stream *)

(** A [complete] line while the final message holds a text. *)
Lemma complete_line_returns sid c rest m :
  carries "complete" c = true ->
  text_final m ->
  exists m', for_lines sid (c :: rest) m = Returned m' /\
    ChatStore.messages (chatStore m') = ChatStore.messages (chatStore m) /\
    heap m' = heap m /\
    uuid_calls m' = uuid_calls m /\
    ChatStore.isTyping (chatStore m') = false.
Proof.
  unfold UseChat.carries. intros Hc Hfinal.
  destruct (event_of c) as [data|] eqn:He; [|discriminate].
  destruct (on_complete_returns Date_now sid m Hfinal) as (m' & E & Hm & Hh & Hu & Ht & _).
  exists m'. split; [|done].
  cbn [UseChat.for_lines].
  rewrite bind_eq, process_line_event, He, try_catch_eq.
  by rewrite (handle_complete _ _ _ _ _ _ _ _ Hc), E.
Qed.

(** How the loop ends after the answer: the call is over, with the
    conversation as the answer left it and the typing indicator off. *)
Lemma stream_end sid after tail e m :
  ends after tail e ->
  text_final m ->
  ChatStore.isTyping (chatStore m) = false ->
  exists m',
    (bind (for_lines sid after) (fun _ => read_loop sid [tail] e EmptyString) m = Normal tt m' \/
     bind (for_lines sid after) (fun _ => read_loop sid [tail] e EmptyString) m = Returned m') /\
    ChatStore.messages (chatStore m') = ChatStore.messages (chatStore m) /\
    heap m' = heap m /\
    uuid_calls m' = uuid_calls m /\
    ChatStore.isTyping (chatStore m') = false.
Proof.
  intros [(-> & Htail & ->)|(c & rest & -> & Hc)] Hfinal Htyping.
  - exists m. split; [|done]. left.
    rewrite bind_eq. cbn [UseChat.for_lines ret].
    by apply read_loop_last.
  - destruct (complete_line_returns sid c rest m Hc Hfinal) as (m' & E & H).
    exists m'. split; [|exact H]. right. by rewrite bind_eq, E.
Qed.

(** The lines of a list in two parts, with what follows them. *)
Lemma bind_for_lines_app {A} sid l1 l2 (k : unit -> M A) m :
  bind (for_lines sid (l1 ++ l2)) k m
  = bind (for_lines sid l1) (fun _ => bind (for_lines sid l2) k) m.
Proof.
  rewrite !bind_eq, for_lines_app, bind_eq.
  by destruct (for_lines sid l1 m) as [[] m1|m1|e1 m1].
Qed.

(** *** The whole call *)

(** One answer, in a chat that holds two messages or more.  The stream
    holds lines without [response_start], [complete] and [error], then
    [response_start], then lines that stream, and then it ends. *)
Lemma sendMessage_streamed sid content status chunks e pre rs body after tail m :
  well_formed m ->
  2 <= length (ChatStore.messages (chatStore m)) ->
  nonempty (trim content) = true ->
  forallb no_LF (pre ++ rs :: body ++ after) = true ->
  forallb quiet pre = true ->
  carries "response_start" rs = true ->
  forallb streams body = true ->
  ends after tail e ->
  concat_all chunks = unlines (pre ++ rs :: body ++ after) +:+ tail ->
  exists m' msg,
    sendMessage sid content (Response true status (Some (mkBody chunks e))) m = Normal tt m' /\
    length (ChatStore.messages (chatStore m')) = length (ChatStore.messages (chatStore m)) + 2 /\
    final_message m' = Some msg /\
    m_role msg = assistant /\
    m_content msg = JString (concat_all (token_texts body)) /\
    uuid_calls m' = uuid_calls m + 2 /\
    ChatStore.isTyping (chatStore m') = false /\
    (fresh_id (uuidv4 (S (uuid_calls m))) (ChatStore.messages (chatStore m)) (heap m) ->
     uuidv4 (uuid_calls m) <> uuidv4 (S (uuid_calls m)) ->
     shown m' = shown m ++ [Some (user, JString (trim content));
                            Some (assistant, JString (concat_all (token_texts body)))]).
Proof.
  intros Hwf Hlen Hc Hls Hpre Hrs Hbody Hend Htext.
  destruct (add_user_message_effect uuidv4 Date_now sid content m Hlen)
    as (m0 & E0 & Hheap0 & Hmsgs0 & Huuid0 & _).
  set (m1 := on_locals (fun _ => mkLocals None EmptyString)
                       (on_chat (ChatStore.setTyping true) m0)).
  destruct (for_quiet_conversation sid pre m1 Hpre eq_refl) as (mA & EA & HmA & HhA & HuA & _).
  change (ChatStore.messages (chatStore m1)) with (ChatStore.messages (chatStore m0)) in HmA.
  change (heap m1) with (heap m0) in HhA.
  change (uuid_calls m1) with (uuid_calls m0) in HuA.
  rewrite Hmsgs0 in HmA. rewrite Hheap0 in HhA. rewrite Huuid0 in HuA.
  assert (well_formed mA) as HwfA.
  { unfold well_formed in *. rewrite HmA, HhA, length_app. cbn.
    apply Forall_app. split; [|repeat constructor; lia].
    eapply Forall_impl; [exact Hwf|]. cbn. lia. }
  destruct (for_answer_lines sid rs body mA HwfA Hrs Hbody) as (mC & EC & Hs).
  pose proof (shown_streaming _ _ _ _ _ _ Hs) as Hlist.
  destruct (streaming_final _ _ _ _ _ _ Hs) as (msg & Hfinal & Hrole & Hcont & HlenC & Hk & Htyping).
  destruct (stream_end sid after tail e mC Hend (streaming_text_final _ _ _ _ _ _ Hs) Htyping)
    as (mF & Erun & HmF & HhF & HuF & HtF).
  exists (on_locals (fun _ => locals m) mF), msg.
  cbn [chatStore on_locals uuid_calls].
  change (final_message (on_locals (fun _ => locals m) mF)) with (final_message mF).
  change (shown (on_locals (fun _ => locals m) mF)) with (shown mF).
  rewrite (final_message_same mC mF HmF HhF), (shown_same mC mF HmF HhF), HmF, HuF.
  split_and!; try done.
  - rewrite (sendMessage_lines Array_prototype_keys JSON_parse uuidv4 Date_now toISOString
               toLowerCase sid content status chunks _ tail e m m0 Hc E0 Hls Htext).
    unfold call. rewrite try_catch_eq.
    rewrite (bind_for_lines_app sid pre), bind_eq. fold m1. rewrite EA.
    change (rs :: body ++ after) with ((rs :: body) ++ after).
    rewrite bind_for_lines_app, bind_eq, EC.
    by destruct Erun as [-> | ->].
  - rewrite HlenC, HmA, length_app. cbn. lia.
  - rewrite Hk, HuA. lia.
  - intros Hfresh Hne. rewrite HuA, HmA, HhA in Hlist.
    rewrite Hlist.
    + rewrite map_app. cbn [map]. rewrite list_lookup_middle by done. cbn.
      rewrite <- app_assoc. cbn [app]. f_equal.
      apply map_ext_in. intros r Hr. rewrite lookup_app_l; [done|].
      unfold well_formed in Hwf. rewrite Forall_forall in Hwf.
      apply Hwf. by apply list_elem_of_In.
    + intros r msgr Hr Hmsgr. apply elem_of_app in Hr as [Hr|Hr].
      * apply (Hfresh r msgr Hr). rewrite lookup_app_l in Hmsgr; [done|].
        unfold well_formed in Hwf. rewrite Forall_forall in Hwf. by apply Hwf.
      * apply list_elem_of_singleton in Hr. subst r.
        rewrite list_lookup_middle in Hmsgr by done. by simplify_eq/=.
Qed.

(** The result of the call depends on the reads only through the text
    they bring, one read after the other. *)
Lemma sendMessage_text sid content status chunks chunks' e m :
  concat_all chunks = concat_all chunks' ->
  sendMessage sid content (Response true status (Some (mkBody chunks e))) m
  = sendMessage sid content (Response true status (Some (mkBody chunks' e))) m.
Proof.
  intros H. apply sendMessage_stream_ext. intros m1 _.
  rewrite (read_loop_received _ _ _ _ _ _ _ chunks), (read_loop_received _ _ _ _ _ _ _ chunks')
    by reflexivity.
  by rewrite H.
Qed.

(** The loop over the reads throws only when a read fails. *)
Lemma read_loop_not_thrown sid chunks buffer m err m' :
  read_loop sid chunks EndOfData buffer m <> Thrown err m'.
Proof.
  revert buffer m. induction chunks as [|c chunks IH]; intros buffer m; [discriminate|].
  cbn [UseChat.read_loop]. destruct (pop _) as [lines b]. rewrite bind_eq.
  pose proof (for_lines_not_thrown Array_prototype_keys JSON_parse uuidv4 Date_now toISOString
                toLowerCase sid lines m) as Hl.
  destruct (for_lines sid lines m) as [[] m1|m1|e1 m1]; [apply IH|discriminate|].
  intros H. by eapply Hl.
Qed.

(** A read that brings no line feed: its text waits in the buffer. *)
Lemma read_loop_retains sid c rest e buffer m :
  no_LF buffer = true -> no_LF c = true ->
  read_loop sid (c :: rest) e buffer m = read_loop sid rest e (buffer +:+ c) m.
Proof.
  intros Hb Hc. cbn [UseChat.read_loop]. unfold pop.
  rewrite split_lines_one_line; [reflexivity|].
  by apply no_LF_append.
Qed.

(** A read that brings the end of a line: the line is what the buffer
    held followed by what the read brings, and it is handled then. *)
Lemma read_loop_completes sid c rest e buffer m :
  no_LF buffer = true -> no_LF c = true ->
  read_loop sid ((c +:+ String LF EmptyString) :: rest) e buffer m
  = bind (process_line sid (buffer +:+ c)) (fun _ => read_loop sid rest e EmptyString) m.
Proof.
  intros Hb Hc. cbn [UseChat.read_loop]. unfold pop.
  rewrite <- append_assoc.
  rewrite split_lines_first_line.
  - cbn [split_lines removelast List.last UseChat.for_lines]. rewrite !bind_eq.
    by destruct (process_line sid (buffer +:+ c) m) as [[] m1|m1|e1 m1].
  - by apply no_LF_append.
Qed.

End Runtime.
End RunFacts.

(** ** One answer, end to end *)

Module AnswerFacts.
Import JsString Js Types UseChat Frames.

(** C1.  In a chat that holds two messages or more, for every stream
    that holds lines without [response_start], [complete] and [error]
    (a [start] event, blank lines), then a [response_start] line, then
    token lines with blank lines or other lines without an event between
    them, and that ends there or goes on with a [complete] line, however
    the reads cut it: the call appends the user's message and exactly one
    more, the assistant's, generated with one new id, and that message
    ends with the texts of the tokens concatenated in the order of
    arrival; the typing indicator is off.  In particular the stream
    [start, response_start, token("Hel"), token("lo"), complete], each
    event followed by a blank line, leaves one assistant message
    ["Hello"] after the user's message, and the typing indicator off.
    When the ids the generator yields are new, the list shows what it
    showed before, then the user's message, then that one message of the
    assistant. *)
Theorem tokens_concatenate :
  (forall Array_prototype_keys JSON_parse uuidv4 Date_now toISOString toLowerCase
          sid content status chunks e pre rs body after tail m,
      well_formed m ->
      2 <= length (ChatStore.messages (chatStore m)) ->
      nonempty (trim content) = true ->
      forallb no_LF (pre ++ rs :: body ++ after) = true ->
      forallb (quiet JSON_parse) pre = true ->
      carries JSON_parse "response_start" rs = true ->
      forallb (streams JSON_parse) body = true ->
      ends JSON_parse after tail e ->
      concat_all chunks = unlines (pre ++ rs :: body ++ after) +:+ tail ->
      exists m' msg,
        UseChat.sendMessage Array_prototype_keys JSON_parse uuidv4 Date_now toISOString toLowerCase
          sid content (Response true status (Some (mkBody chunks e))) m
          = Normal tt m' /\
        length (ChatStore.messages (chatStore m'))
          = length (ChatStore.messages (chatStore m)) + 2 /\
        final_message m' = Some msg /\
        m_role msg = assistant /\
        m_content msg = JString (concat_all (token_texts JSON_parse body)) /\
        uuid_calls m' = uuid_calls m + 2 /\
        ChatStore.isTyping (chatStore m') = false /\
        (fresh_id (uuidv4 (S (uuid_calls m))) (ChatStore.messages (chatStore m)) (heap m) ->
         uuidv4 (uuid_calls m) <> uuidv4 (S (uuid_calls m)) ->
         shown m' = shown m ++ [Some (user, JString (trim content));
                                Some (assistant,
                                      JString (concat_all (token_texts JSON_parse body)))])) /\
  (exists m',
      Sample.sendMessage "s1" "To Goa"
        (Response true 200 (Some (mkBody [Sample.hello_stream] EndOfData)))
        (Examples.answered "s1") = Normal tt m' /\
      shown m' = [Some (assistant, JString Sample.welcome_text);
                  Some (user, JString "Hi");
                  Some (assistant, JString "Hello");
                  Some (user, JString "To Goa");
                  Some (assistant, JString "Hello")] /\
      ChatStore.isTyping (chatStore m') = false).
Proof.
  split.
  - intros. by eapply RunFacts.sendMessage_streamed.
  - eexists. split; [vm_compute; reflexivity|]. split; vm_compute; reflexivity.
Qed.

End AnswerFacts.

(** ** A payload that does not parse *)

Module ParserFacts.
Import JsString Js Types UseChat StringFacts StreamFacts HandlerFacts SendFacts TokenFacts.
Import Frames RunFacts.

Section Runtime.
Variable Array_prototype_keys : list string.
Variable JSON_parse : string -> option JSValue.
Variable uuidv4 : nat -> string.
Variable Date_now : nat -> Date.
Variable toISOString : Date -> string.
Variable toLowerCase : string -> string.

Local Abbreviation handle_event :=
  (UseChat.handle_event Array_prototype_keys uuidv4 Date_now toISOString toLowerCase).
Local Abbreviation process_line :=
  (UseChat.process_line Array_prototype_keys JSON_parse uuidv4 Date_now toISOString toLowerCase).
Local Abbreviation for_lines :=
  (UseChat.for_lines Array_prototype_keys JSON_parse uuidv4 Date_now toISOString toLowerCase).
Local Abbreviation read_loop :=
  (UseChat.read_loop Array_prototype_keys JSON_parse uuidv4 Date_now toISOString toLowerCase).
Local Abbreviation sendMessage :=
  (UseChat.sendMessage Array_prototype_keys JSON_parse uuidv4 Date_now toISOString toLowerCase).
Local Abbreviation carries := (UseChat.carries JSON_parse).
Local Abbreviation event_of := (UseChat.event_of JSON_parse).
Local Abbreviation token_line := (UseChat.token_line JSON_parse).
Local Abbreviation malformed := (UseChat.malformed JSON_parse).

(** The malformed line between two lines that carry events: the two
    events are handled, one after the other. *)
Lemma between_two_events sid first bad second data1 data2 m :
  malformed bad ->
  event_of first = Some data1 -> event_of second = Some data2 ->
  for_lines sid [first; bad; second] m
  = bind (try_catch (handle_event sid data1) (fun _ => ret tt))
         (fun _ => try_catch (handle_event sid data2) (fun _ => ret tt)) m.
Proof.
  intros Hbad H1 H2. cbn [UseChat.for_lines].
  rewrite !bind_eq, process_line_event, H1.
  destruct (try_catch (handle_event sid data1) (fun _ => ret tt) m) as [[] m1|m1|e1 m1];
    [|reflexivity..].
  rewrite bind_eq, (process_line_malformed _ _ _ _ _ _ sid bad m1 Hbad).
  rewrite bind_eq, process_line_event, H2.
  by destruct (try_catch (handle_event sid data2) (fun _ => ret tt) m1) as [[] m2|m2|e2 m2].
Qed.

(** The malformed line between two tokens of an answer. *)
Lemma between_two_tokens sid rs t1 bad t2 c1 c2 m :
  malformed bad ->
  well_formed m ->
  carries "response_start" rs = true ->
  token_line t1 = Some c1 -> token_line t2 = Some c2 ->
  exists m' msg,
    for_lines sid [rs; t1; bad; t2] m = Normal tt m' /\
    final_message m' = Some msg /\
    m_role msg = assistant /\
    m_content msg = JString (c1 +:+ c2) /\
    length (ChatStore.messages (chatStore m')) = S (length (ChatStore.messages (chatStore m))) /\
    uuid_calls m' = S (uuid_calls m).
Proof.
  intros Hbad Hwf Hrs Ht1 Ht2.
  destruct (for_lines_answer Array_prototype_keys JSON_parse uuidv4 Date_now toISOString
              toLowerCase sid rs [t1; t2] [c1; c2] m Hwf Hrs) as (m' & E & Hs).
  { by repeat constructor. }
  destruct (streaming_final _ _ _ _ _ _ Hs) as (msg & Hfinal & Hrole & Hcont & Hlen & Hk & _).
  exists m', msg. split_and!; try done.
  - rewrite <- E.
    apply (for_lines_skip Array_prototype_keys JSON_parse uuidv4 Date_now toISOString
             toLowerCase sid [rs; t1] bad [t2] m).
    intros m1 _. by apply process_line_malformed.
  - rewrite Hcont. cbn. by rewrite append_nil_r.
Qed.

(** C4.  A line with the [data: ] prefix whose payload does not parse is
    discarded: handling it changes nothing and throws nothing.  Between
    two lines that carry events, the two events are handled one after
    the other, as they are without it; between two tokens of an answer,
    the answer ends with the texts of both.  Wherever the line stands
    among the lines of a stream, the lines are handled as without it,
    and so is the whole call, however the reads cut the two streams.  No
    exception leaves the loop over the lines, nor the loop over the
    reads unless a read fails; in a chat that holds two messages or more
    the call returns. *)
Theorem malformed_line_is_skipped sid bad :
  malformed bad ->
  (forall m, process_line sid bad m = Normal tt m) /\
  (forall first second data1 data2 m,
      event_of first = Some data1 -> event_of second = Some data2 ->
      for_lines sid [first; bad; second] m
      = bind (try_catch (handle_event sid data1) (fun _ => ret tt))
             (fun _ => try_catch (handle_event sid data2) (fun _ => ret tt)) m) /\
  (forall rs t1 t2 c1 c2 m,
      well_formed m ->
      carries "response_start" rs = true ->
      token_line t1 = Some c1 -> token_line t2 = Some c2 ->
      exists m' msg,
        for_lines sid [rs; t1; bad; t2] m = Normal tt m' /\
        final_message m' = Some msg /\
        m_role msg = assistant /\
        m_content msg = JString (c1 +:+ c2) /\
        length (ChatStore.messages (chatStore m'))
        = S (length (ChatStore.messages (chatStore m))) /\
        uuid_calls m' = S (uuid_calls m)) /\
  (forall pre post m,
      for_lines sid (pre ++ bad :: post) m = for_lines sid (pre ++ post) m) /\
  (forall lines m err m', for_lines sid lines m <> Thrown err m') /\
  (forall chunks buffer m err m', read_loop sid chunks EndOfData buffer m <> Thrown err m') /\
  (forall content status chunks chunks' pre post tail e m,
      forallb no_LF (pre ++ bad :: post) = true ->
      concat_all chunks = unlines (pre ++ bad :: post) +:+ tail ->
      concat_all chunks' = unlines (pre ++ post) +:+ tail ->
      sendMessage sid content (Response true status (Some (mkBody chunks e))) m
      = sendMessage sid content (Response true status (Some (mkBody chunks' e))) m /\
      (2 <= length (ChatStore.messages (chatStore m)) ->
       exists m',
         sendMessage sid content (Response true status (Some (mkBody chunks e))) m
         = Normal tt m')).
Proof.
  intros Hbad.
  assert (forall m, process_line sid bad m = Normal tt m) as Hskip.
  { intros m. by apply process_line_malformed. }
  assert (forall pre post m,
             for_lines sid (pre ++ bad :: post) m = for_lines sid (pre ++ post) m) as Hlines.
  { intros pre post m. apply for_lines_skip. intros m1 _. apply Hskip. }
  split_and!.
  - exact Hskip.
  - intros first second data1 data2 m H1 H2. by apply between_two_events.
  - intros rs t1 t2 c1 c2 m Hwf Hrs Ht1 Ht2. by apply between_two_tokens.
  - exact Hlines.
  - intros lines m err m'. apply for_lines_not_thrown.
  - intros chunks buffer m err m'. apply read_loop_not_thrown.
  - intros content status chunks chunks' pre post tail e m Hls Hc Hc'. split.
    + apply sendMessage_stream_ext. intros m1 _.
      rewrite (read_loop_received _ _ _ _ _ _ _ chunks),
        (read_loop_received _ _ _ _ _ _ _ chunks') by reflexivity.
      rewrite Hc, Hc'.
      apply forallb_Forall in Hls.
      rewrite !read_loop_lines.
      * by rewrite !bind_eq, Hlines.
      * apply Forall_app in Hls as [Hpre Hpost]. apply Forall_app. split; [done|].
        by inversion Hpost.
      * exact Hls.
    + intros Hlen. by apply sendMessage_normal.
Qed.

End Runtime.
End ParserFacts.

(** ** A line that arrives in two reads *)

Module BufferFacts.
Import JsString Js Types UseChat StringFacts StreamFacts HandlerFacts SendFacts TokenFacts.
Import Frames RunFacts.

(** A chunk of bytes given to the decoder in two parts yields the text
    and leaves the state that the whole chunk does. *)
Lemma decode_app {State} (handler : State -> Byte.byte -> string * State) s a b :
  decode handler s (a ++ b)
  = let '(t1, s1) := decode handler s a in
    let '(t2, s2) := decode handler s1 b in
    (t1 +:+ t2, s2).
Proof.
  revert s. induction a as [|x a IH]; intros s.
  - cbn [app decode]. by destruct (decode handler s b).
  - cbn [app decode]. destruct (handler s x) as [t s1]. rewrite IH.
    destruct (decode handler s1 a) as [u s2]. destruct (decode handler s2 b) as [w s3].
    by rewrite append_assoc.
Qed.

(** The texts of the reads, one after the other, do not depend on where
    the reads cut the bytes. *)
Lemma decoded_join {State} (handler : State -> Byte.byte -> string * State) s pre a b post :
  concat_all (decoded handler s (pre ++ a :: b :: post))
  = concat_all (decoded handler s (pre ++ (a ++ b) :: post)).
Proof.
  revert s. induction pre as [|c pre IH]; intros s.
  - cbn [app decoded]. rewrite (decode_app handler s a b).
    destruct (decode handler s a) as [t1 s1]. destruct (decode handler s1 b) as [t2 s2].
    change (concat_all (t1 :: t2 :: decoded handler s2 post))
      with (t1 +:+ (t2 +:+ concat_all (decoded handler s2 post))).
    change (concat_all ((t1 +:+ t2) :: decoded handler s2 post))
      with ((t1 +:+ t2) +:+ concat_all (decoded handler s2 post)).
    by rewrite append_assoc.
  - cbn [app decoded]. destruct (decode handler s c) as [t s'].
    change (concat_all (t :: decoded handler s' (pre ++ a :: b :: post)))
      with (t +:+ concat_all (decoded handler s' (pre ++ a :: b :: post))).
    change (concat_all (t :: decoded handler s' (pre ++ (a ++ b) :: post)))
      with (t +:+ concat_all (decoded handler s' (pre ++ (a ++ b) :: post))).
    by rewrite IH.
Qed.

Section Runtime.
Variable Array_prototype_keys : list string.
Variable JSON_parse : string -> option JSValue.
Variable uuidv4 : nat -> string.
Variable Date_now : nat -> Date.
Variable toISOString : Date -> string.
Variable toLowerCase : string -> string.

Local Abbreviation process_line :=
  (UseChat.process_line Array_prototype_keys JSON_parse uuidv4 Date_now toISOString toLowerCase).
Local Abbreviation for_lines :=
  (UseChat.for_lines Array_prototype_keys JSON_parse uuidv4 Date_now toISOString toLowerCase).
Local Abbreviation read_loop :=
  (UseChat.read_loop Array_prototype_keys JSON_parse uuidv4 Date_now toISOString toLowerCase).
Local Abbreviation sendMessage :=
  (UseChat.sendMessage Array_prototype_keys JSON_parse uuidv4 Date_now toISOString toLowerCase).
Local Abbreviation carries := (UseChat.carries JSON_parse).
Local Abbreviation token_line := (UseChat.token_line JSON_parse).

(** The two parts of a line, then its line feed. *)
Lemma read_loop_split sid c1 c2 rest e buffer m :
  no_LF c1 = true -> no_LF c2 = true -> no_LF buffer = true ->
  read_loop sid (c1 :: (c2 +:+ String LF EmptyString) :: rest) e buffer m
  = bind (process_line sid (buffer +:+ c1 +:+ c2))
         (fun _ => read_loop sid rest e EmptyString) m.
Proof.
  intros H1 H2 Hb.
  rewrite (read_loop_retains _ _ _ _ _ _ sid c1 _ e buffer m Hb H1).
  rewrite read_loop_completes; [by rewrite append_assoc| |exact H2].
  by apply no_LF_append.
Qed.

(** The whole line in one read. *)
Lemma read_loop_unsplit sid c1 c2 rest e buffer m :
  no_LF c1 = true -> no_LF c2 = true -> no_LF buffer = true ->
  read_loop sid ((c1 +:+ c2 +:+ String LF EmptyString) :: rest) e buffer m
  = bind (process_line sid (buffer +:+ c1 +:+ c2))
         (fun _ => read_loop sid rest e EmptyString) m.
Proof.
  intros H1 H2 Hb.
  rewrite <- (append_assoc c1 c2).
  rewrite read_loop_completes; [reflexivity|exact Hb|].
  by apply no_LF_append.
Qed.

(** A token line that arrives in two reads, while an answer streams. *)
Lemma split_token sid c1 c2 c u old base k acc m :
  no_LF c1 = true -> no_LF c2 = true ->
  token_line (c1 +:+ c2) = Some c ->
  streaming u old base k acc m ->
  exists m',
    read_loop sid [c1; c2 +:+ String LF EmptyString] EndOfData EmptyString m = Normal tt m' /\
    streaming u old base k (acc +:+ c) m'.
Proof.
  intros H1 H2 Hc Hs.
  rewrite read_loop_split by done.
  destruct (process_token_line Array_prototype_keys JSON_parse uuidv4 Date_now toISOString
              toLowerCase sid (c1 +:+ c2) c u old base k acc m Hs Hc) as (m' & E & Hs').
  exists m'. split; [|exact Hs'].
  rewrite bind_eq. change (EmptyString +:+ c1 +:+ c2) with (c1 +:+ c2). by rewrite E.
Qed.

(** The same after the line of [response_start]. *)
Lemma split_first_token sid rs c1 c2 c m :
  no_LF c1 = true -> no_LF c2 = true ->
  well_formed m ->
  no_LF rs = true -> carries "response_start" rs = true ->
  token_line (c1 +:+ c2) = Some c ->
  exists m' msg,
    read_loop sid [rs +:+ String LF EmptyString; c1; c2 +:+ String LF EmptyString]
              EndOfData EmptyString m = Normal tt m' /\
    final_message m' = Some msg /\
    m_role msg = assistant /\
    m_content msg = JString c /\
    length (ChatStore.messages (chatStore m')) = S (length (ChatStore.messages (chatStore m))).
Proof.
  intros H1 H2 Hwf Hrs Hcarries Hc.
  destruct (on_response_start_streaming uuidv4 Date_now m Hwf) as (m1 & E1 & Hs1).
  destruct (split_token sid c1 c2 c _ _ _ _ _ m1 H1 H2 Hc Hs1) as (m2 & E2 & Hs2).
  destruct (streaming_final _ _ _ _ _ _ Hs2) as (msg & Hfinal & Hrole & Hcont & Hlen & _).
  exists m2, msg. split_and!; try done.
  rewrite (read_loop_completes _ _ _ _ _ _ sid rs _ EndOfData EmptyString m eq_refl Hrs).
  rewrite bind_eq. change (EmptyString +:+ rs) with rs.
  rewrite (response_start_line Array_prototype_keys JSON_parse uuidv4 Date_now toISOString
             toLowerCase sid rs m Hcarries), E1.
  exact E2.
Qed.

(** C5.  An event line whose text arrives in two reads, [c1] in one and
    [c2] with the line feed in the next.  The first read processes
    nothing and leaves its text in the buffer, after what the buffer
    held; the second read handles the joined line, once, and empties
    the buffer: the two reads do what the single read of the whole line
    does.  So a token line cut in two extends the answer by its text,
    once.  For any two consecutive reads the whole call ends as it does
    when their text arrives in one read.  The same holds before the
    decoder: it handles its bytes one at a time and keeps those of an
    incomplete character, so cutting a chunk of bytes anywhere, also
    inside a character, leaves the text of the reads, and with it the
    call, as it is. *)
Theorem chunk_split_invariance sid c1 c2 :
  no_LF c1 = true -> no_LF c2 = true ->
  (forall rest e buffer m,
      no_LF buffer = true ->
      read_loop sid (c1 :: rest) e buffer m = read_loop sid rest e (buffer +:+ c1) m) /\
  (forall rest e buffer m,
      no_LF buffer = true ->
      read_loop sid (c1 :: (c2 +:+ String LF EmptyString) :: rest) e buffer m
      = bind (process_line sid (buffer +:+ c1 +:+ c2))
             (fun _ => read_loop sid rest e EmptyString) m /\
      read_loop sid ((c1 +:+ c2 +:+ String LF EmptyString) :: rest) e buffer m
      = bind (process_line sid (buffer +:+ c1 +:+ c2))
             (fun _ => read_loop sid rest e EmptyString) m) /\
  (forall c u old base k acc m,
      token_line (c1 +:+ c2) = Some c ->
      streaming u old base k acc m ->
      exists m',
        read_loop sid [c1; c2 +:+ String LF EmptyString] EndOfData EmptyString m
        = Normal tt m' /\
        streaming u old base k (acc +:+ c) m') /\
  (forall rs c m,
      well_formed m ->
      no_LF rs = true -> carries "response_start" rs = true ->
      token_line (c1 +:+ c2) = Some c ->
      exists m' msg,
        read_loop sid [rs +:+ String LF EmptyString; c1; c2 +:+ String LF EmptyString]
                  EndOfData EmptyString m = Normal tt m' /\
        final_message m' = Some msg /\
        m_role msg = assistant /\
        m_content msg = JString c /\
        length (ChatStore.messages (chatStore m'))
        = S (length (ChatStore.messages (chatStore m)))) /\
  (forall content status pre a b post e m,
      sendMessage sid content
        (Response true status (Some (mkBody (pre ++ a :: b :: post) e))) m
      = sendMessage sid content
          (Response true status (Some (mkBody (pre ++ (a +:+ b) :: post) e))) m) /\
  (forall (State : Type) (handler : State -> Byte.byte -> string * State) s
          content status pre a b post e m,
      concat_all (decoded handler s (pre ++ a :: b :: post))
      = concat_all (decoded handler s (pre ++ (a ++ b) :: post)) /\
      sendMessage sid content
        (Response true status (Some (mkBody (decoded handler s (pre ++ a :: b :: post)) e))) m
      = sendMessage sid content
          (Response true status
                    (Some (mkBody (decoded handler s (pre ++ (a ++ b) :: post)) e))) m).
Proof.
  intros H1 H2. split_and!.
  - intros rest e buffer m Hb. by apply read_loop_retains.
  - intros rest e buffer m Hb. split; [by apply read_loop_split|by apply read_loop_unsplit].
  - intros c u old base k acc m Hc Hs. by apply split_token.
  - intros rs c m Hwf Hrs Hcarries Hc. by apply split_first_token.
  - intros content status pre a b post e m.
    apply sendMessage_stream_ext. intros m1 _. apply read_loop_join_at.
  - intros State handler s content status pre a b post e m.
    pose proof (decoded_join handler s pre a b post) as Htext.
    split; [exact Htext|]. by apply sendMessage_text.
Qed.

End Runtime.
End BufferFacts.

(** ** The theorems at concrete inputs *)

Module Witnesses.
Import JsString Js Types UseChat.

(** The scenario [start, response_start, token("Hel"), token("lo"),
    complete], each event followed by a blank line, the text cut in the
    middle of lines, in a chat that holds an earlier answer. *)
Lemma tokens_concatenate_witness :
  exists m' msg,
    Sample.sendMessage "s1" "To Goa"
      (Response true 200
         (Some (mkBody [Sample.start_line +:+ String LF (String LF "data: ");
                        slice 6 Sample.response_start_line +:+ String LF (String LF EmptyString);
                        Sample.token_Hel +:+ String LF (String LF Sample.token_lo);
                        String LF (String LF Sample.complete_line);
                        String LF (String LF EmptyString)] EndOfData)))
      (Examples.answered "s1") = Normal tt m' /\
    length (ChatStore.messages (chatStore m')) = 3 + 2 /\
    final_message m' = Some msg /\
    m_role msg = assistant /\
    m_content msg = JString "Hello" /\
    uuid_calls m' = 3 + 2 /\
    ChatStore.isTyping (chatStore m') = false /\
    (fresh_id "uuid-4" [0; 1; 2] [Sample.welcome; Examples.question; Examples.answer] ->
     "uuid-3" <> "uuid-4" ->
     shown m' = [Some (assistant, JString Sample.welcome_text);
                 Some (user, JString "Hi"); Some (assistant, JString "Hello");
                 Some (user, JString "To Goa"); Some (assistant, JString "Hello")]).
Proof.
  apply (proj1 AnswerFacts.tokens_concatenate
           Sample.Array_prototype_keys Sample.JSON_parse Sample.uuidv4 Sample.Date_now
           Sample.toISOString Sample.toLowerCase "s1" "To Goa" 200 _ EndOfData
           [Sample.start_line; EmptyString]
           Sample.response_start_line
           [EmptyString; Sample.token_Hel; EmptyString; Sample.token_lo; EmptyString]
           [Sample.complete_line; EmptyString] EmptyString
           (Examples.answered "s1")).
  - repeat constructor.
  - cbn. lia.
  - reflexivity.
  - reflexivity.
  - reflexivity.
  - reflexivity.
  - reflexivity.
  - right. exists Sample.complete_line, [EmptyString]. split; reflexivity.
  - reflexivity.
Defined.

Lemma end_of_data_leaves_typing_witness :
  exists m',
    Sample.sendMessage "s1" "To Goa" (Response true 200 (Some (mkBody [] EndOfData)))
      (Examples.answered "s1") = Normal tt m' /\
    ChatStore.isTyping (chatStore m') = true.
Proof.
  apply (TypingFacts.end_of_data_leaves_typing
           Sample.Array_prototype_keys Sample.JSON_parse Sample.uuidv4 Sample.Date_now
           Sample.toISOString Sample.toLowerCase "s1" "To Goa" 200 (Examples.answered "s1")).
  - cbn. lia.
  - reflexivity.
Defined.

Lemma title_changes_at_most_once_witness :
  exists s',
    BackendSessions.sessions
      (BackendSessions.updateSessionFromMessage "s2" "Hotels in Pune" 9%Z Sample.two_sessions)
      !! 1 = Some s' /\
    (BackendSessions.title s' <> "Trip to Goa" ->
     "Trip to Goa" = "New Chat" /\ nonempty (trim "Hotels in Pune") = true) /\
    ("Trip to Goa" <> "New Chat" -> BackendSessions.title s' = "Trip to Goa").
Proof.
  apply (proj1 SessionFacts.title_changes_at_most_once "s2" "Hotels in Pune" 9%Z
           Sample.two_sessions 1
           (BackendSessions.mkChatSession "s2" "Trip to Goa" (Some "hi") 5%Z 2
              JUndefined JUndefined)).
  reflexivity.
Defined.

(** A payload that does not parse between the two tokens of an
    answer. *)
Lemma malformed_line_is_skipped_witness :
  exists m' msg,
    UseChat.for_lines Sample.Array_prototype_keys Sample.JSON_parse Sample.uuidv4
      Sample.Date_now Sample.toISOString Sample.toLowerCase "s1"
      [Sample.response_start_line; Sample.token_Hel; Sample.broken_line; Sample.token_lo]
      (Examples.answered "s1") = Normal tt m' /\
    final_message m' = Some msg /\
    m_role msg = assistant /\
    m_content msg = JString "Hello" /\
    length (ChatStore.messages (chatStore m')) = 4 /\
    uuid_calls m' = 4.
Proof.
  apply (proj1 (proj2 (proj2 (ParserFacts.malformed_line_is_skipped
           Sample.Array_prototype_keys Sample.JSON_parse Sample.uuidv4 Sample.Date_now
           Sample.toISOString Sample.toLowerCase "s1" Sample.broken_line
           (conj eq_refl eq_refl))))
           Sample.response_start_line Sample.token_Hel Sample.token_lo "Hel" "lo"
           (Examples.answered "s1")).
  - repeat constructor.
  - reflexivity.
  - reflexivity.
  - reflexivity.
Defined.

(** The line of the token ["Hel"], cut after its tenth unit, after the
    line of [response_start]. *)
Lemma chunk_split_invariance_witness :
  exists m' msg,
    UseChat.read_loop Sample.Array_prototype_keys Sample.JSON_parse Sample.uuidv4
      Sample.Date_now Sample.toISOString Sample.toLowerCase "s1"
      [Sample.response_start_line +:+ String LF EmptyString;
       substring0 10 Sample.token_Hel;
       slice 10 Sample.token_Hel +:+ String LF EmptyString]
      EndOfData EmptyString (Examples.answered "s1") = Normal tt m' /\
    final_message m' = Some msg /\
    m_role msg = assistant /\
    m_content msg = JString "Hel" /\
    length (ChatStore.messages (chatStore m')) = 4.
Proof.
  apply (proj1 (proj2 (proj2 (proj2 (BufferFacts.chunk_split_invariance
           Sample.Array_prototype_keys Sample.JSON_parse Sample.uuidv4 Sample.Date_now
           Sample.toISOString Sample.toLowerCase "s1"
           (substring0 10 Sample.token_Hel) (slice 10 Sample.token_Hel)
           eq_refl eq_refl))))
           Sample.response_start_line "Hel" (Examples.answered "s1")).
  - repeat constructor.
  - reflexivity.
  - reflexivity.
  - reflexivity.
Defined.


Lemma delete_session_local_first_witness :
  BackendSessions.deleteSession "s9" 7%Z BackendSessions.Rejected "s1" Sample.one_session
  = (false, Sample.one_session).
Proof.
  apply (proj1 SessionFacts.delete_session_local_first). reflexivity.
Defined.


Lemma blank_message_is_noop_witness :
  Sample.sendMessage "s1" "   " NetworkError (Sample.start "s1")
  = Normal tt (Sample.start "s1").
Proof.
  apply (SendFacts.blank_message_is_noop
           Sample.Array_prototype_keys Sample.JSON_parse Sample.uuidv4 Sample.Date_now
           Sample.toISOString Sample.toLowerCase "s1" "   " NetworkError (Sample.start "s1")).
  reflexivity.
Defined.

Lemma early_token_is_ignored_witness :
  UseChat.process_line Sample.Array_prototype_keys Sample.JSON_parse Sample.uuidv4
    Sample.Date_now Sample.toISOString Sample.toLowerCase "s1" Sample.token_Hel
    (on_chat (ChatStore.setTyping true) (Examples.answered "s1"))
  = Normal tt (on_chat (ChatStore.setTyping true) (Examples.answered "s1")).
Proof.
  apply (proj1 (EarlyTokenFacts.early_token_is_ignored
                  Sample.Array_prototype_keys Sample.JSON_parse Sample.uuidv4 Sample.Date_now
                  Sample.toISOString Sample.toLowerCase "s1" [Sample.start_line]
                  Sample.token_Hel eq_refl eq_refl)
           (Examples.answered "s1")); reflexivity.
Defined.

End Witnesses.

(** ** Instances of the further properties *)

Module Instances.
Import JsString Js Types UseChat Frames.

Lemma later_messages_keep_the_title_witness :
  exists m',
    Sample.sendMessage "s1" "Plan a trip to Goa" NetworkError (Examples.answered "s1")
    = Normal tt m' /\
    map BackendSessions.title (BackendSessions.sessions (sessionsStore m')) = ["Hi"].
Proof.
  apply (FrameFacts.later_messages_keep_the_title
           Sample.Array_prototype_keys Sample.JSON_parse Sample.uuidv4 Sample.Date_now Sample.toISOString
           Sample.toLowerCase
           "s1" "Plan a trip to Goa" NetworkError (Examples.answered "s1")).
  cbn. lia.
Defined.

Lemma unterminated_line_is_dropped_witness :
  Sample.sendMessage "s1" "To Goa"
    (Response true 200
       (Some (mkBody [unlines [Sample.start_line; Sample.response_start_line;
                               Sample.token_Hel]
                      +:+ Sample.complete_line] EndOfData)))
    (Examples.answered "s1")
  = Sample.sendMessage "s1" "To Goa"
      (Response true 200
         (Some (mkBody [unlines [Sample.start_line; Sample.response_start_line;
                                 Sample.token_Hel]] EndOfData)))
      (Examples.answered "s1").
Proof.
  apply (LineFacts.unterminated_line_is_dropped
           Sample.Array_prototype_keys Sample.JSON_parse Sample.uuidv4 Sample.Date_now Sample.toISOString
           Sample.toLowerCase
           "s1" "To Goa" 200 _
           [Sample.start_line; Sample.response_start_line; Sample.token_Hel]
           Sample.complete_line EndOfData (Examples.answered "s1"));
    by vm_compute.
Defined.

Lemma other_lines_are_skipped_witness :
  Sample.sendMessage "s1" "To Goa"
    (Response true 200
       (Some (mkBody [unlines [Sample.response_start_line; Examples.comment_line]
                      +:+ unlines [Sample.token_Hel; Sample.complete_line]] EndOfData)))
    (Examples.answered "s1")
  = Sample.sendMessage "s1" "To Goa"
      (Response true 200
         (Some (mkBody [unlines [Sample.response_start_line]
                        +:+ unlines [Sample.token_Hel; Sample.complete_line]] EndOfData)))
      (Examples.answered "s1").
Proof.
  apply (LineFacts.other_lines_are_skipped
           Sample.Array_prototype_keys Sample.JSON_parse Sample.uuidv4 Sample.Date_now Sample.toISOString
           Sample.toLowerCase
           "s1" "To Goa" 200 _ _ [Sample.response_start_line] Examples.comment_line
           (unlines [Sample.token_Hel; Sample.complete_line]) EndOfData (Examples.answered "s1"));
    by vm_compute.
Defined.

Lemma failed_request_is_reported_witness :
  exists m',
    Sample.sendMessage "s1" "To Goa" (Response false 503 None) (Examples.answered "s1")
    = Normal tt m' /\
    shown m'
    = [Some (assistant, JString Sample.welcome_text);
       Some (user, JString "Hi");
       Some (assistant, JString "Hello");
       Some (user, JString "To Goa");
       Some (assistant,
             JString "Sorry, I encountered an error sending your message. Please try again.")] /\
    ChatStore.error (chatStore m') = JString "Failed to send message. Please try again." /\
    ChatStore.isTyping (chatStore m') = false.
Proof.
  destruct (LineFacts.failed_request_is_reported
              Sample.Array_prototype_keys Sample.JSON_parse Sample.uuidv4 Sample.Date_now Sample.toISOString
              Sample.toLowerCase
              "s1" "To Goa" (Response false 503 None) (Examples.answered "s1"))
    as (m0 & m' & _ & E & _ & Hshown & Herror & Htyping).
  - repeat constructor.
  - cbn. lia.
  - reflexivity.
  - reflexivity.
  - exists m'. split_and!; [exact E|exact Hshown|exact Herror|exact Htyping].
Defined.

Lemma error_event_ends_the_call_witness :
  Sample.sendMessage "s1" "To Goa"
    (Response true 200
       (Some (mkBody [unlines [Sample.start_line; Examples.error_line]
                      +:+ unlines [Sample.response_start_line; Sample.token_Hel]]
                     EndOfData)))
    (Examples.answered "s1")
  = Sample.sendMessage "s1" "To Goa"
      (Response true 200
         (Some (mkBody [unlines [Sample.start_line; Examples.error_line] +:+ EmptyString]
                       ReadError)))
      (Examples.answered "s1").
Proof.
  apply (proj2 (LineFacts.error_event_ends_the_call
                  Sample.Array_prototype_keys Sample.JSON_parse Sample.uuidv4 Sample.Date_now Sample.toISOString
                  Sample.toLowerCase "s1" Examples.error_line eq_refl)
           "To Goa" 200 _ _ [Sample.start_line]
           (unlines [Sample.response_start_line; Sample.token_Hel]) EmptyString
           EndOfData ReadError (Examples.answered "s1"));
    by vm_compute.
Defined.

Lemma action_event_witness :
  exists m',
    UseChat.process_line Sample.Array_prototype_keys Sample.JSON_parse Sample.uuidv4 Sample.Date_now Sample.toISOString
      Sample.toLowerCase "s1" Examples.action_line (Examples.answered "s1") = Normal tt m' /\
    action_type <$> last (ChatStore.agentActions (chatStore m'))
    = Some "searching_for_flights".
Proof.
  destruct (LineFacts.action_event
              Sample.Array_prototype_keys Sample.JSON_parse Sample.uuidv4 Sample.Date_now Sample.toISOString
              Sample.toLowerCase "s1" Examples.action_line eq_refl (Examples.answered "s1"))
    as (data & description & Hdata & Hdescription & H).
  vm_compute in Hdata. injection Hdata as <-.
  vm_compute in Hdescription. injection Hdescription as <-.
  destruct H as [E _]. eexists. split; [exact E|reflexivity].
Defined.

Lemma initialize_gives_a_session_witness :
  BackendSessions.sessions
    (BackendCatalog.initialize BackendCatalog.Failed "u1" 5%Z Examples.empty_catalog)
  = [BackendSessions.mkChatSession "u1" "New Chat" None 5%Z 0 JUndefined JUndefined] /\
  BackendSessions.currentSessionId
    (BackendCatalog.initialize BackendCatalog.Failed "u1" 5%Z Examples.empty_catalog) = "u1".
Proof.
  apply (CatalogFacts.initialize_gives_a_session BackendCatalog.Failed "u1" 5%Z
           Examples.empty_catalog eq_refl).
Defined.

Lemma clearPreference_clears_witness :
  own (PreferencesGetters.clearPreference "people_count" PreferencesStore.initial)
    !! "people_count" = Some JUndefined /\
  PreferencesGetters.preferencesCount
    (PreferencesGetters.clearPreference "people_count" PreferencesStore.initial) + 1
  = PreferencesGetters.preferencesCount PreferencesStore.initial.
Proof.
  destruct (PreferencesFacts.clearPreference_clears "people_count" PreferencesStore.initial)
    as (H1 & _ & _ & _ & H5).
  - discriminate.
  - split; [exact H1|]. apply (H5 (JNumber "1")); reflexivity.
Defined.

(** An update with a key the preferences have and one they do not
    have. *)
Lemma setFromMemoryUpdates_is_restricted_assign_witness :
  PreferencesStore.setFromMemoryUpdates Sample.Array_prototype_keys
    [("destination", JString "Goa"); ("mood", JString "happy")] PreferencesStore.initial
  = PreferencesStore.updatePreferences [("destination", JString "Goa")]
      PreferencesStore.initial.
Proof.
  destruct (PreferencesFacts.setFromMemoryUpdates_is_restricted_assign
              Sample.Array_prototype_keys
              [("destination", JString "Goa"); ("mood", JString "happy")]
              PreferencesStore.initial eq_refl) as (H1 & _).
  exact H1.
Defined.

Lemma stream_without_answer_locks_the_input_witness :
  exists m',
    Sample.sendMessage "s1" "To Goa"
      (Response true 200
         (Some (mkBody [unlines [Sample.start_line; Examples.action_line]
                        +:+ Sample.response_start_line] EndOfData)))
      (Examples.answered "s1") = Normal tt m' /\
    ChatStore.isTyping (chatStore m') = true /\
    (forall inputMessage response,
        ChatInterface.handleSubmit Sample.Array_prototype_keys Sample.JSON_parse Sample.uuidv4 Sample.Date_now
          Sample.toISOString Sample.toLowerCase inputMessage response m'
        = (inputMessage, Normal tt m')) /\
    (forall suggestion response,
        ChatInterface.sendQuickSuggestion Sample.Array_prototype_keys Sample.JSON_parse Sample.uuidv4 Sample.Date_now
          Sample.toISOString Sample.toLowerCase suggestion response m'
        = Normal tt m').
Proof.
  apply (FormFacts.stream_without_answer_locks_the_input
           Sample.Array_prototype_keys Sample.JSON_parse Sample.uuidv4 Sample.Date_now Sample.toISOString
           Sample.toLowerCase
           "s1" "To Goa" 200 _ [Sample.start_line; Examples.action_line]
           Sample.response_start_line (Examples.answered "s1"));
    [cbn; lia|by vm_compute..].
Defined.

Lemma switching_back_restores_the_conversation_witness :
  exists m1 m2,
    History.switchSession Sample.uuidv4 Sample.Date_now "s2" History.Unreachable
      (Examples.answered "s1") = Normal tt m1 /\
    History.switchSession Sample.uuidv4 Sample.Date_now "s1" History.Unreachable m1
    = Normal tt m2 /\
    History.conversation m2
    = [Some Sample.welcome; Some Examples.question; Some Examples.answer].
Proof.
  destruct (HistoryFacts.switching_back_restores_the_conversation
              Sample.uuidv4 Sample.Date_now "s2" History.Unreachable History.Unreachable
              (Examples.answered "s1"))
    as (m1 & m2 & E1 & E2 & Hc & _).
  - repeat constructor.
  - discriminate.
  - repeat constructor.
  - exists m1, m2. split_and!; [exact E1|exact E2|exact Hc].
Defined.

Lemma failed_load_shows_the_welcome_witness :
  exists m' welcome,
    call (History.loadConversationHistory Sample.uuidv4 Sample.Date_now "s2"
            History.Unreachable) (Examples.answered "s1") = Normal tt m' /\
    History.conversation m' = [Some welcome] /\
    m_content welcome = JString ChatStoreActions.welcome_content /\
    ChatStore.error (chatStore m') = JString "Failed to load conversation history".
Proof.
  destruct (HistoryFacts.failed_load_shows_the_welcome
              Sample.uuidv4 Sample.Date_now "s2" History.Unreachable (Examples.answered "s1"))
    as (m' & welcome & E & Hc & _ & Hw & He & _).
  - reflexivity.
  - intros cached H. vm_compute in H. discriminate.
  - exists m', welcome. split_and!; [exact E|exact Hc|exact Hw|exact He].
Defined.

(** Ids that differ, as the generator yields them. *)
Lemma createNewChat_leaves_the_chat_unbound_witness :
  Sample.sendMessage "uuid-4" "Plan a trip to Goa" NetworkError
    (NewChat.opened Sample.uuidv4 Sample.Date_now "uuid-4" (Examples.answered "s1"))
  = Thrown TypeError
      (UseChat.with_user_message Sample.uuidv4 Sample.Date_now "Plan a trip to Goa"
         (NewChat.opened Sample.uuidv4 Sample.Date_now "uuid-4" (Examples.answered "s1"))) /\
  map BackendSessions.title
      (BackendSessions.sessions
         (sessionsStore
            (machine_of
               (Sample.sendMessage "uuid-4" "For a week" NetworkError
                  (UseChat.with_user_message Sample.uuidv4 Sample.Date_now "Plan a trip to Goa"
                     (NewChat.opened Sample.uuidv4 Sample.Date_now "uuid-4"
                        (Examples.answered "s1")))))))
  = ["New Chat"; "Hi"].
Proof.
  destruct (proj2 (proj2 (proj2 (NewChatFacts.createNewChat_leaves_the_chat_unbound
                                   Sample.Array_prototype_keys Sample.JSON_parse Sample.uuidv4
                                   Sample.Date_now Sample.toISOString Sample.toLowerCase
                                   (Examples.answered "s1"))))
              ltac:(discriminate) eq_refl "Plan a trip to Goa" NetworkError eq_refl)
    as (E & Hs).
  split; [exact E|].
  exact (f_equal (fun st => map BackendSessions.title (BackendSessions.sessions st))
                 (Hs "For a week" NetworkError)).
Defined.

Lemma token_content_is_converted_witness :
  exists m' msg,
    UseChat.for_lines Sample.Array_prototype_keys Sample.JSON_parse Sample.uuidv4
      Sample.Date_now Sample.toISOString Sample.toLowerCase "s1"
      [Sample.response_start_line; Sample.token_Hel; Examples.bare_token_line]
      (Examples.answered "s1") = Normal tt m' /\
    final_message m' = Some msg /\
    m_role msg = assistant /\
    m_content msg = JString "Helundefined" /\
    length (ChatStore.messages (chatStore m')) = 4.
Proof.
  destruct (TokenContentFacts.token_content_is_converted
              Sample.Array_prototype_keys Sample.JSON_parse Sample.uuidv4 Sample.Date_now
              Sample.toISOString Sample.toLowerCase "s1" Sample.response_start_line
              [Sample.token_Hel] ["Hel"]
              Examples.bare_token_line (JObject [("type", JString "token")]) JUndefined
              (Examples.answered "s1")) as (H & _).
  - repeat constructor.
  - reflexivity.
  - repeat constructor.
  - reflexivity.
  - reflexivity.
  - reflexivity.
  - exact (H "undefined" eq_refl).
Defined.

End Instances.

